(** * cFtpFs: a shallow embedding of the adaptation layer

    The development follows the C sources of the repository:
    - [include/cftpfs.h]: items, cache entries, handles, the context;
    - [src/cache.c]: the directory cache, a singly linked list, head first;
    - [src/parser.c]: the parser of LIST lines, Unix and Windows dialects;
    - [src/ftp_client.c]: the adapter, and the line splitting of its
      [ftp_list_dir];
    - [src/handles.c], [src/main.c]: the handle table and the callbacks.

    Conventions.  A C string is the [string] of its bytes before the
    terminating NUL; a [char *] walking through a line is the suffix that is
    still to be read.  [int] and [off_t] accumulators wrap in two's
    complement.  [time_t] values are integers; differences of time stamps
    are far from the 64-bit range and are taken in [Z].  Allocation failure
    ([calloc], [malloc], [strdup] returning NULL) is not modelled. *)

From Stdlib Require Import ZArith String Ascii Bool Lia.
From stdpp Require Import base list strings.

Open Scope string_scope.
Open Scope list_scope.
Open Scope Z_scope.

(* ===================================================================== *)
(** * Part I: definitions                                                  *)
(* ===================================================================== *)

(** ** libc: <ctype.h> and <string.h> in the "C" locale *)

Module Libc.

Definition byte (c : ascii) : Z := Z.of_N (N_of_ascii c).

Definition isspace (c : ascii) : bool :=
  (byte c =? 32) || ((9 <=? byte c) && (byte c <=? 13)).

Definition isdigit (c : ascii) : bool :=
  (48 <=? byte c) && (byte c <=? 57).

Definition isupper (c : ascii) : bool :=
  (65 <=? byte c) && (byte c <=? 90).

Definition tolower (c : ascii) : Z :=
  if isupper c then byte c + 32 else byte c.

Definition strlen (s : string) : Z := Z.of_nat (String.length s).

(** [strcmp]: the sign of the difference at the first position where the
    two strings differ, the terminator being smaller than every byte. *)
Fixpoint strcmp (a b : string) : Z :=
  match a, b with
  | EmptyString, EmptyString => 0
  | EmptyString, String _ _ => -1
  | String _ _, EmptyString => 1
  | String c a', String d b' =>
      if byte c =? byte d then strcmp a' b'
      else if byte c <? byte d then -1 else 1
  end.

(** [strncmp a b n]: as [strcmp], over at most [n] bytes. *)
Fixpoint strncmp (a b : string) (n : nat) {struct n} : Z :=
  match n with
  | O => 0
  | S n' =>
      match a, b with
      | EmptyString, EmptyString => 0
      | EmptyString, String _ _ => -1
      | String _ _, EmptyString => 1
      | String c a', String d b' =>
          if byte c =? byte d then strncmp a' b' n'
          else if byte c <? byte d then -1 else 1
      end
  end.

(** [strncasecmp a b n]: as [strncmp], on the lower-cased bytes. *)
Fixpoint strncasecmp (a b : string) (n : nat) {struct n} : Z :=
  match n with
  | O => 0
  | S n' =>
      match a, b with
      | EmptyString, EmptyString => 0
      | EmptyString, String _ _ => -1
      | String _ _, EmptyString => 1
      | String c a', String d b' =>
          if tolower c =? tolower d then strncasecmp a' b' n'
          else if tolower c <? tolower d then -1 else 1
      end
  end.

Fixpoint strcasecmp (a b : string) : Z :=
  match a, b with
  | EmptyString, EmptyString => 0
  | EmptyString, String _ _ => -1
  | String _ _, EmptyString => 1
  | String c a', String d b' =>
      if tolower c =? tolower d then strcasecmp a' b'
      else if tolower c <? tolower d then -1 else 1
  end.

(** [strncpy dst src n; dst[n] = 0]: the C string left in [dst], that is
    the first [n] bytes of [src]. *)
Fixpoint strncpy (src : string) (n : nat) : string :=
  match n, src with
  | S n', String c src' => String c (strncpy src' n')
  | _, _ => EmptyString
  end.

(** [strchr s c != NULL], for a byte [c] other than the terminator. *)
Fixpoint strchr (s : string) (c : ascii) : bool :=
  match s with
  | EmptyString => false
  | String d s' => if byte d =? byte c then true else strchr s' c
  end.

(** [strrchr s c]: the offset of the last occurrence of [c] in [s]. *)
Fixpoint strrchr (s : string) (c : ascii) : option nat :=
  match s with
  | EmptyString => None
  | String d s' =>
      match strrchr s' c with
      | Some i => Some (S i)
      | None => if byte d =? byte c then Some O else None
      end
  end.

(** [strstr s needle]: the offset of the first occurrence of [needle]. *)
Fixpoint strstr (s needle : string) : option nat :=
  if strncmp s needle (String.length needle) =? 0 then Some O
  else
    match s with
    | EmptyString => None
    | String _ s' => S <$> strstr s' needle
    end.

(** [p + n] for a pointer [p] into a string of at least [n] bytes. *)
Fixpoint advance (p : string) (n : nat) {struct n} : string :=
  match n, p with
  | S n', String _ p' => advance p' n'
  | _, _ => p
  end.

(** Two's complement wrap-around of [int] and of [off_t] (64 bits). *)
Definition wrap (bits : Z) (z : Z) : Z :=
  (z + 2 ^ (bits - 1)) mod 2 ^ bits - 2 ^ (bits - 1).

Definition wrap_int : Z -> Z := wrap 32.
Definition wrap_off_t : Z -> Z := wrap 64.

End Libc.

Import Libc.

(** ** include/cftpfs.h *)

Definition MAX_PATH_LEN : Z := 4096.
Definition CACHE_TIMEOUT_DEFAULT : Z := 30.
Definition CACHE_TIMEOUT_MIN : Z := 5.
Definition CACHE_TIMEOUT_MAX : Z := 300.
Definition MAX_HANDLES : Z := 1024.

Inductive ftp_item_type_t : Set :=
| FTP_TYPE_UNKNOWN
| FTP_TYPE_FILE
| FTP_TYPE_DIR
| FTP_TYPE_LINK.

Record ftp_item_t : Set := mk_item {
  name : string;
  type : ftp_item_type_t;
  size : Z;
  mtime : Z;
  mode : Z
}.

(** [items] is the array the entry owns ([[]] for NULL); [item_count] is
    kept beside it as in the C struct. *)
Record cache_entry_t : Set := mk_entry {
  ce_path : string;
  ce_items : list ftp_item_t;
  ce_item_count : Z;
  ce_timestamp : Z
}.

Record file_handle_t : Set := mk_handle {
  fh_fd : Z;
  fh_path : string;
  fh_temp_path : string;
  fh_flags : Z;
  fh_dirty : bool;
  fh_is_new : bool
}.

(** The part of the context the operations below read or write: the
    configured time-out, the cache list (head first), the handle slots
    (an array of [MAX_HANDLES] pointers, [None] for NULL) and the private
    temporary directory. *)
Record cftpfs_context_t : Set := mk_ctx {
  cache_timeout : Z;
  dir_cache : list cache_entry_t;
  file_handles : list (option file_handle_t);
  temp_dir : string
}.

Definition set_dir_cache (ctx : cftpfs_context_t) (c : list cache_entry_t)
  : cftpfs_context_t :=
  mk_ctx (cache_timeout ctx) c (file_handles ctx) (temp_dir ctx).

Definition set_file_handles (ctx : cftpfs_context_t)
  (h : list (option file_handle_t)) : cftpfs_context_t :=
  mk_ctx (cache_timeout ctx) (dir_cache ctx) h (temp_dir ctx).

(** ** src/cache.c *)

Module Cache.

Definition cache_init (ctx : cftpfs_context_t) : cftpfs_context_t :=
  set_dir_cache ctx [].

Definition cache_clear (ctx : cftpfs_context_t) : cftpfs_context_t :=
  set_dir_cache ctx [].

(** The [while (current)] loop of [cache_get]: the result and the list that
    is left.  An expired match is unlinked, everything else stays. *)
Fixpoint get_loop (timeout now : Z) (path : string)
  (l : list cache_entry_t) : option cache_entry_t * list cache_entry_t :=
  match l with
  | [] => (None, [])
  | current :: next =>
      if strcmp (ce_path current) path =? 0 then
        if now - ce_timestamp current >? timeout then (None, next)
        else (Some current, current :: next)
      else
        let (r, next') := get_loop timeout now path next in
        (r, current :: next')
  end.

(** [now] is the value [time(NULL)] returns inside the call. *)
Definition cache_get (ctx : cftpfs_context_t) (path : string) (now : Z)
  : option cache_entry_t * cftpfs_context_t :=
  let timeout :=
    if cache_timeout ctx >? 0 then cache_timeout ctx
    else CACHE_TIMEOUT_DEFAULT in
  let (r, l) := get_loop timeout now path (dir_cache ctx) in
  (r, set_dir_cache ctx l).

(** The first loop of [cache_put]: unlink the first entry for [path]. *)
Fixpoint remove_first (path : string) (l : list cache_entry_t)
  : list cache_entry_t :=
  match l with
  | [] => []
  | current :: next =>
      if strcmp (ce_path current) path =? 0 then next
      else current :: remove_first path next
  end.

Definition cache_put (ctx : cftpfs_context_t) (path : string)
  (items : list ftp_item_t) (count : Z) (now : Z) : cftpfs_context_t :=
  let l := remove_first path (dir_cache ctx) in
  let entry :=
    mk_entry (strncpy path (Z.to_nat (MAX_PATH_LEN - 1)))
             (if count >? 0 then items else [])
             count
             now in
  set_dir_cache ctx (entry :: l).

(** The test of the loop of [cache_invalidate]. *)
Definition invalidated (path : string) (current : cache_entry_t) : bool :=
  (strcmp (ce_path current) path =? 0)
  || (strncmp (ce_path current) path (String.length path) =? 0).

Fixpoint invalidate_loop (path : string) (l : list cache_entry_t)
  : list cache_entry_t :=
  match l with
  | [] => []
  | current :: next =>
      if invalidated path current then invalidate_loop path next
      else current :: invalidate_loop path next
  end.

Definition cache_invalidate (ctx : cftpfs_context_t) (path : string)
  : cftpfs_context_t :=
  set_dir_cache ctx (invalidate_loop path (dir_cache ctx)).

End Cache.

Import Cache.

(** ** src/parser.c *)

(** <time.h>: the fields of [struct tm] the parser fills in; the others stay
    zero (the struct is initialised with [{0}]). *)
Record tm : Set := mk_tm {
  tm_sec : Z;
  tm_min : Z;
  tm_hour : Z;
  tm_mday : Z;
  tm_mon : Z;
  tm_year : Z
}.

(** <sys/stat.h> (Linux): [S_IFDIR = 0040000], [S_IFREG = 0100000],
    [S_IFLNK = 0120000]; and the permission bits [0755], [0644], [0777]. *)
Definition S_IFDIR : Z := 16384.
Definition S_IFREG : Z := 32768.
Definition S_IFLNK : Z := 40960.
Definition perm_0755 : Z := 493.
Definition perm_0644 : Z := 420.
Definition perm_0777 : Z := 511.

Definition set_type (item : ftp_item_t) (t : ftp_item_type_t) : ftp_item_t :=
  mk_item (name item) t (size item) (mtime item) (mode item).
Definition set_mode (item : ftp_item_t) (m : Z) : ftp_item_t :=
  mk_item (name item) (type item) (size item) (mtime item) m.
Definition set_size (item : ftp_item_t) (s : Z) : ftp_item_t :=
  mk_item (name item) (type item) s (mtime item) (mode item).
Definition set_name (item : ftp_item_t) (n : string) : ftp_item_t :=
  mk_item n (type item) (size item) (mtime item) (mode item).
Definition set_mtime (item : ftp_item_t) (t : Z) : ftp_item_t :=
  mk_item (name item) (type item) (size item) t (mode item).

(** [memset(item, 0, sizeof(ftp_item_t))]. *)
Definition zero_item : ftp_item_t := mk_item "" FTP_TYPE_UNKNOWN 0 0 0.

Module Parser.

Fixpoint skip_spaces (str : string) : string :=
  match str with
  | EmptyString => EmptyString
  | String c str' => if isspace c then skip_spaces str' else str
  end.

(** [while ( *p && !isspace( *p)) p++;] *)
Fixpoint skip_nonspace (p : string) : string :=
  match p with
  | EmptyString => EmptyString
  | String c p' => if isspace c then p else skip_nonspace p'
  end.

(** [while ( *p && isdigit( *p)) { acc = acc * 10 + ( *p - '0'); p++; }]
    for an accumulator of the integer type that [wr] wraps to. *)
Fixpoint digits_loop (wr : Z -> Z) (acc : Z) (p : string) : Z * string :=
  match p with
  | EmptyString => (acc, EmptyString)
  | String c p' =>
      if isdigit c then digits_loop wr (wr (acc * 10 + (byte c - 48))) p'
      else (acc, p)
  end.

Definition months : list string :=
  ["Jan"; "Feb"; "Mar"; "Apr"; "May"; "Jun";
   "Jul"; "Aug"; "Sep"; "Oct"; "Nov"; "Dec"].

Fixpoint parse_month_loop (month_str : string) (ms : list string) (i : Z) : Z :=
  match ms with
  | [] => -1
  | m :: ms' =>
      if strncasecmp month_str m 3 =? 0 then i
      else parse_month_loop month_str ms' (i + 1)
  end.

Definition parse_month (month_str : string) : Z :=
  parse_month_loop month_str months 0.

(** The [switch (line[0])] of [parse_unix_listing]. *)
Definition unix_type (c : ascii) : option (ftp_item_type_t * Z) :=
  if byte c =? byte "d" then Some (FTP_TYPE_DIR, Z.lor S_IFDIR perm_0755)
  else if byte c =? byte "-" then Some (FTP_TYPE_FILE, Z.lor S_IFREG perm_0644)
  else if byte c =? byte "l" then Some (FTP_TYPE_LINK, Z.lor S_IFLNK perm_0777)
  else None.

(** [char *arrow = strstr(p, " -> "); if (arrow) *arrow = 0;] and the
    string [p] then points to. *)
Definition cut_arrow (p : string) : string :=
  match strstr p " -> " with
  | Some i => strncpy p i
  | None => p
  end.

(** *** scanf conversions

    [%Nd]: white space is skipped, then at most [N] bytes are read: an
    optional sign and decimal digits; the conversion fails when no digit
    was read.  [%Ns]: white space is skipped, then at most [N] bytes that
    are not white space are read; the conversion fails at the end of the
    input. *)

Fixpoint scan_digits (width : nat) (acc : Z) (p : string) : Z * string :=
  match width, p with
  | S w, String c p' =>
      if isdigit c then scan_digits w (acc * 10 + (byte c - 48)) p'
      else (acc, p)
  | _, _ => (acc, p)
  end.

Definition starts_with_digit (p : string) : bool :=
  match p with
  | String c _ => isdigit c
  | EmptyString => false
  end.

Definition scan_d (width : nat) (s : string) : option (Z * string) :=
  match skip_spaces s, width with
  | String c p', S w =>
      if (byte c =? byte "-") || (byte c =? byte "+") then
        match w with
        | O => None
        | S _ =>
            if starts_with_digit p' then
              let (v, rest) := scan_digits w 0 p' in
              Some (if byte c =? byte "-" then - v else v, rest)
            else None
        end
      else if isdigit c then Some (scan_digits width 0 (String c p'))
      else None
  | _, _ => None
  end.

Fixpoint scan_nonspace (width : nat) (p : string) : string :=
  match width, p with
  | S w, String c p' =>
      if isspace c then EmptyString else String c (scan_nonspace w p')
  | _, _ => EmptyString
  end.

Definition scan_s (width : nat) (s : string) : option string :=
  match skip_spaces s with
  | EmptyString => None
  | p => Some (scan_nonspace width p)
  end.

(** [sscanf(line, "%2d-%2d-%2d", &month, &day, &year)]: [Some] of the
    three values when the call returns 3. *)
Definition sscanf_date (line : string) : option (Z * Z * Z) :=
  match scan_d 2 line with
  | Some (month, String c1 p1) =>
      if byte c1 =? byte "-" then
        match scan_d 2 p1 with
        | Some (day, String c2 p2) =>
            if byte c2 =? byte "-" then
              match scan_d 2 p2 with
              | Some (year, _) => Some (month, day, year)
              | None => None
              end
            else None
        | _ => None
        end
      else None
  | _ => None
  end.

(** [sscanf(p, "%2d:%2d%2s", &hour, &min, ampm)]: the value returned and
    the contents of [hour], [min] and [ampm] after the call.  [hour0] and
    [min0] are what the two uninitialised locals held before it; [ampm]
    starts as the empty string. *)
Definition sscanf_time (p : string) (hour0 min0 : Z) : Z * Z * Z * string :=
  match scan_d 2 p with
  | None =>
      (match skip_spaces p with EmptyString => -1 | _ => 0 end,
       hour0, min0, "")
  | Some (hour, String c p1) =>
      if byte c =? byte ":" then
        match scan_d 2 p1 with
        | None => (1, hour, min0, "")
        | Some (min, p2) =>
            match scan_s 2 p2 with
            | None => (2, hour, min, "")
            | Some ampm => (3, hour, min, ampm)
            end
        end
      else (1, hour, min0, "")
  | Some (hour, EmptyString) => (1, hour, min0, "")
  end.

(** The adjustment of the year after the date was scanned. *)
Definition adjust_year (year : Z) : Z :=
  if year <? 50 then year + 2000
  else if year <? 100 then year + 1900
  else year.

(** The adjustment of the hour, made when [sscanf] returned at least 2. *)
Definition adjust_hour (ampm : string) (hour : Z) : Z :=
  if (strcasecmp ampm "PM" =? 0) && negb (hour =? 12) then hour + 12
  else if (strcasecmp ampm "AM" =? 0) && (hour =? 12) then 0
  else hour.

(** The loop that strips trailing white space from [item->name]. *)
Fixpoint rstrip (s : string) : string :=
  match s with
  | EmptyString => EmptyString
  | String c s' =>
      match rstrip s' with
      | EmptyString => if isspace c then EmptyString else String c EmptyString
      | r => String c r
      end
  end.

Section WithClock.

(** [mktime] of the C library (it depends on the time zone of the
    process), and the broken-down local time [localtime(&now)] yields when
    the parser asks for the current year. *)
Variable mktime : tm -> Z.
Variable tm_now : tm.

Definition parse_unix_listing (line : string) (item : ftp_item_t)
  : Z * ftp_item_t :=
  if strlen line <? 10 then (-1, item) else
  match line with
  | EmptyString => (-1, item)
  | String c0 line1 =>
  match unix_type c0 with
  | None => (-1, item)
  | Some (ty, md) =>
      let item := set_mode (set_type item ty) md in
      (* permissions, link count, user, group *)
      let p := skip_spaces (skip_nonspace line1) in
      let p := skip_spaces (skip_nonspace p) in
      let p := skip_spaces (skip_nonspace p) in
      let p := skip_spaces (skip_nonspace p) in
      (* size *)
      let (sz, p) := digits_loop wrap_off_t 0 p in
      let item := set_size item sz in
      let p := skip_spaces p in
      (* month *)
      if strlen p <? 3 then (-1, item) else
      let month_str := strncpy p 3 in
      let month := parse_month month_str in
      if month <? 0 then (-1, item) else
      let p := skip_spaces (advance p 3) in
      (* day *)
      let (day, p) := digits_loop wrap_int 0 p in
      let p := skip_spaces p in
      (* time or year *)
      let '(year, hour, min, p) :=
        if strchr p ":" then
          let (hour, p) := digits_loop wrap_int 0 p in
          let p :=
            match p with
            | String c p' => if byte c =? byte ":" then p' else p
            | EmptyString => p
            end in
          let (min, p) := digits_loop wrap_int 0 p in
          (wrap_int (tm_year tm_now + 1900), hour, min, p)
        else
          let (year, p) := digits_loop wrap_int 0 p in
          (year, 0, 0, p) in
      let p := skip_spaces p in
      (* file name *)
      match p with
      | EmptyString => (-1, item)
      | _ =>
          let p := cut_arrow p in
          let item := set_name item (strncpy p (Z.to_nat (MAX_PATH_LEN - 1))) in
          let t := mk_tm 0 min hour day month (wrap_int (year - 1900)) in
          (0, set_mtime item (mktime t))
      end
  end
  end.

(** [hour0], [min0]: the indeterminate contents of the locals [hour] and
    [min], which stay in place when the time does not scan. *)
Definition parse_windows_listing (hour0 min0 : Z) (line : string)
  (item : ftp_item_t) : Z * ftp_item_t :=
  if strlen line <? 20 then (-1, item) else
  match sscanf_date line with
  | None => (-1, item)
  | Some (month, day, year) =>
      let year := adjust_year year in
      let p := skip_spaces (advance line 8) in
      let '(n, hour, min, ampm) := sscanf_time p hour0 min0 in
      let hour := if n >=? 2 then adjust_hour ampm hour else hour in
      (* past the time *)
      let p := skip_spaces (skip_nonspace p) in
      let '(item, p) :=
        if strncasecmp p "<DIR>" 5 =? 0 then
          (set_size (set_mode (set_type item FTP_TYPE_DIR)
                              (Z.lor S_IFDIR perm_0755)) 0,
           advance p 5)
        else
          let item := set_mode (set_type item FTP_TYPE_FILE)
                               (Z.lor S_IFREG perm_0644) in
          let (sz, p) := digits_loop wrap_off_t 0 p in
          (set_size item sz, p) in
      let p := skip_spaces p in
      match p with
      | EmptyString => (-1, item)
      | _ =>
          let item :=
            set_name item (rstrip (strncpy p (Z.to_nat (MAX_PATH_LEN - 1)))) in
          let t := mk_tm 0 min hour day (month - 1) (year - 1900) in
          (0, set_mtime item (mktime t))
      end
  end.

(** The line and the item are never NULL here. *)
Definition parse_ftp_listing (hour0 min0 : Z) (line : string)
  (item : ftp_item_t) : Z * ftp_item_t :=
  let item := zero_item in
  match skip_spaces line with
  | EmptyString => (-1, item)
  | String c _ as p =>
      if (byte c =? byte "d") || (byte c =? byte "-") || (byte c =? byte "l")
      then parse_unix_listing p item
      else if isdigit c then parse_windows_listing hour0 min0 p item
      else (-1, item)
  end.

End WithClock.

End Parser.

Import Parser.

(** ** src/ftp_client.c *)

(** What the adapter asks of the transfer library: one request per call of
    [curl_easy_perform], named after the FTP commands it sends.  The
    connection is taken to be up, or to come up when [ftp_connect] is
    called; opening the local file of a transfer is taken to succeed. *)
Inductive ftp_request : Set :=
| LIST (path : string)
| RETR (remote_path local_path : string)
| STOR (local_path remote_path : string)
| DELE (path : string)
| MKD (path : string)
| RMD (path : string)
| RNFR_RNTO (old_path new_path : string).

Definition CURLE_OK : Z := 0.

(** <errno.h> (Linux). *)
Definition ENOENT : Z := 2.
Definition EIO : Z := 5.
Definition EBADF : Z := 9.
Definition EMFILE : Z := 24.

Module FtpClient.

(** [strdup(buf.data)], [strcpy(data_copy, buf.data)]: the bytes of the
    response before its first zero byte. *)
Fixpoint c_str (data : string) : string :=
  match data with
  | EmptyString => EmptyString
  | String c data' =>
      if byte c =? 0 then EmptyString else String c (c_str data')
  end.

(** The successive results of [strtok(data, "\n")], [strtok(NULL, "\n")],
    ...: the maximal runs of bytes other than the delimiter, empty runs
    left out.  [tok] is the run being read. *)
Fixpoint strtok_loop (data tok : string) : list string :=
  match data with
  | EmptyString =>
      match tok with EmptyString => [] | _ => [tok] end
  | String c data' =>
      if byte c =? 10 then
        match tok with
        | EmptyString => strtok_loop data' ""
        | _ => tok :: strtok_loop data' ""
        end
      else strtok_loop data' (tok +:+ String c "")
  end.

Definition strtok_lines (data : string) : list string := strtok_loop data "".

Section WithTransport.

Variable mktime : tm -> Z.
Variable tm_now : tm.
Variables hour0 min0 : Z.

(** The second pass of [ftp_list_dir]:
    [while (line && idx < *count) { if (parse(line, &items[idx]) == 0) idx++; ... }]
    The parser writes into slot [idx] also when it rejects the line. *)
Fixpoint parse_lines (lines : list string) (items : list ftp_item_t)
  (idx count : nat) : list ftp_item_t * nat :=
  match lines with
  | [] => (items, idx)
  | line :: lines' =>
      if (idx <? count)%nat then
        let (r, it) :=
          parse_ftp_listing mktime tm_now hour0 min0 line
                            (default zero_item (items !! idx)) in
        let items := <[idx := it]> items in
        if r =? 0 then parse_lines lines' items (S idx) count
        else parse_lines lines' items idx count
      else (items, idx)
  end.

(** The body of [ftp_list_dir] once the transfer has returned [CURLE_OK]
    with [data] in the response buffer: the array and [*count]. *)
Definition list_dir_parse (data : string) : list ftp_item_t * nat :=
  let data_copy := c_str data in
  let count := length (strtok_lines data_copy) in
  let items := replicate count zero_item in
  parse_lines (strtok_lines data_copy) items 0 count.

(** The transfer: the code [curl_easy_perform] returns for a request and
    the bytes it delivered to the write callback. *)
Variable curl_easy_perform : ftp_request -> Z * string.

(** The value returned, [*items] and [*count]; on failure the two
    out-parameters keep what the callers put there (NULL and 0). *)
Definition ftp_list_dir (path : string) : Z * list ftp_item_t * Z :=
  let (res, data) := curl_easy_perform (LIST path) in
  if negb (res =? CURLE_OK) then (-1, [], 0)
  else
    let (items, count) := list_dir_parse data in
    (0, items, Z.of_nat count).

Definition ftp_download (remote_path local_path : string) : Z :=
  if negb (fst (curl_easy_perform (RETR remote_path local_path)) =? CURLE_OK)
  then -1 else 0.

Definition ftp_upload (local_path remote_path : string) : Z :=
  if negb (fst (curl_easy_perform (STOR local_path remote_path)) =? CURLE_OK)
  then -1 else 0.

Definition ftp_delete (path : string) : Z :=
  if negb (fst (curl_easy_perform (DELE path)) =? CURLE_OK) then - EIO else 0.

Definition ftp_mkdir (path : string) : Z :=
  if negb (fst (curl_easy_perform (MKD path)) =? CURLE_OK) then - EIO else 0.

Definition ftp_rmdir (path : string) : Z :=
  if negb (fst (curl_easy_perform (RMD path)) =? CURLE_OK) then - EIO else 0.

Definition ftp_rename (old_path new_path : string) : Z :=
  if negb (fst (curl_easy_perform (RNFR_RNTO old_path new_path)) =? CURLE_OK)
  then - EIO else 0.

End WithTransport.

End FtpClient.

Import FtpClient.

(** ** src/handles.c *)

Module Handles.

(** [temp_path] is the name [snprintf] built for the spill file and [fd]
    what [open(temp_path, O_CREAT | O_RDWR, 0600)] returned. *)
Definition handle_create (ctx : cftpfs_context_t) (path : string) (flags : Z)
  (temp_path : string) (fd : Z) : option file_handle_t :=
  if fd <? 0 then None
  else Some (mk_handle (-1) (strncpy path (Z.to_nat (MAX_PATH_LEN - 1)))
                       temp_path flags false false).

Definition handle_get (ctx : cftpfs_context_t) (fh_id : Z)
  : option file_handle_t :=
  if (fh_id <? 0) || (fh_id >=? MAX_HANDLES) then None
  else default None (file_handles ctx !! Z.to_nat fh_id).

Definition handle_release (ctx : cftpfs_context_t) (fh_id : Z)
  : cftpfs_context_t :=
  if (fh_id <? 0) || (fh_id >=? MAX_HANDLES) then ctx
  else
    match default None (file_handles ctx !! Z.to_nat fh_id) with
    | None => ctx
    | Some _ =>
        set_file_handles ctx (<[Z.to_nat fh_id := None]> (file_handles ctx))
    end.

End Handles.

Import Handles.

(** ** src/main.c *)

(** <fcntl.h> (Linux). *)
Definition O_ACCMODE : Z := 3.
Definition O_RDONLY : Z := 0.
Definition O_WRONLY : Z := 1.
Definition O_RDWR : Z := 2.
Definition O_CREAT : Z := 64.
Definition O_TRUNC : Z := 512.

(** The two fields of [struct fuse_file_info] the callbacks use. *)
Record fuse_file_info : Set := mk_fi {
  fi_flags : Z;
  fi_fh : Z
}.

Record stat : Set := mk_stat {
  st_mode : Z;
  st_nlink : Z;
  st_size : Z;
  st_mtime : Z
}.

(** The process: the global context and, in the order they were made, the
    requests sent to the server so far. *)
Record world : Set := mk_world {
  g_context : cftpfs_context_t;
  wire : list ftp_request
}.

(** The outcome of the [open]/[lseek]/[write] sequence on a spill file:
    an early failure with its [errno], or the value of [write] (and the
    [errno] that goes with a negative one). *)
Inductive spill_io : Set :=
| SpillFailed (errno : Z)
| SpillWritten (bytes_written errno : Z).

Module Main.

Definition set_context (w : world) (ctx : cftpfs_context_t) : world :=
  mk_world ctx (wire w).

Definition sent (w : world) (r : ftp_request) : world :=
  mk_world (g_context w) (wire w ++ [r]).

(** [if (options.cache_timeout < MIN) ... else if (> MAX) ...] of
    [parse_args]. *)
Definition clamp_cache_timeout (n : Z) : Z :=
  if n <? CACHE_TIMEOUT_MIN then CACHE_TIMEOUT_MIN
  else if n >? CACHE_TIMEOUT_MAX then CACHE_TIMEOUT_MAX
  else n.

(** The time-out [parse_args] leaves in [options.cache_timeout]: options
    are read left to right, [-c N] and [--vscode] overwrite it. *)
Inductive timeout_option : Set :=
| OptCacheTimeout (n : Z)
| OptVscode.

Definition apply_timeout_option (t : Z) (o : timeout_option) : Z :=
  match o with
  | OptCacheTimeout n => clamp_cache_timeout n
  | OptVscode => 60
  end.

Definition configured_timeout (opts : list timeout_option) : Z :=
  foldl apply_timeout_option CACHE_TIMEOUT_DEFAULT opts.

(** [for (i = 0; i < MAX_HANDLES; i++) if (file_handles[i] == NULL) ...]:
    the first free slot at or after [i]. *)
Fixpoint free_slot_loop (slots : list (option file_handle_t)) (i fuel : nat)
  : option nat :=
  match fuel with
  | O => None
  | S fuel' =>
      match slots !! i with
      | Some None => Some i
      | _ => free_slot_loop slots (S i) fuel'
      end
  end.

Definition free_slot (slots : list (option file_handle_t)) : option nat :=
  free_slot_loop slots 0 (Z.to_nat MAX_HANDLES).

(** [fi->fh < MAX_HANDLES && g_context->file_handles[fi->fh]]; [fi->fh] is
    unsigned. *)
Definition live_handle (ctx : cftpfs_context_t) (fh : Z)
  : option file_handle_t :=
  if fh >=? MAX_HANDLES then None
  else default None (file_handles ctx !! Z.to_nat fh).

(** The block that [cftpfs_release], [cftpfs_unlink], [cftpfs_mkdir] and
    [cftpfs_rmdir] each carry:
    [parent = strdup(path); last_slash = strrchr(parent, '/');
     if (last_slash && last_slash != parent) { *last_slash = 0;
       cache_invalidate(g_context, parent); }] *)
Definition invalidate_parent (ctx : cftpfs_context_t) (path : string)
  : cftpfs_context_t :=
  match strrchr path "/" with
  | Some (S i) => cache_invalidate ctx (strncpy path (S i))
  | _ => ctx
  end.

Definition set_is_new (fh : file_handle_t) (b : bool) : file_handle_t :=
  mk_handle (fh_fd fh) (fh_path fh) (fh_temp_path fh) (fh_flags fh)
            (fh_dirty fh) b.

Definition set_dirty (fh : file_handle_t) (b : bool) : file_handle_t :=
  mk_handle (fh_fd fh) (fh_path fh) (fh_temp_path fh) (fh_flags fh)
            b (fh_is_new fh).

(** [for (i = 0; i < count; i++) if (strcmp(items[i].name, basename) == 0)]. *)
Fixpoint find_item (basename : string) (items : list ftp_item_t) (count : nat)
  : option ftp_item_t :=
  match count, items with
  | S count', it :: items' =>
      if strcmp (name it) basename =? 0 then Some it
      else find_item basename items' count'
  | _, _ => None
  end.

Definition stat_of_item (it : ftp_item_t) : stat :=
  mk_stat (mode it)
          (match type it with FTP_TYPE_DIR => 2 | _ => 1 end)
          (size it) (mtime it).

Definition zero_stat : stat := mk_stat 0 0 0 0.

Section WithServer.

Variable mktime : tm -> Z.
Variable tm_now : tm.
Variables hour0 min0 : Z.
Variable curl_easy_perform : ftp_request -> Z * string.

(** The cache look-up shared by [cftpfs_getattr] and [cftpfs_readdir]:
    the items and the count to work on ([None] for the items when the
    listing failed and [items] stayed NULL), and the world afterwards.
    [now] is the reading of the clock during the call. *)
Definition cached_listing (path : string) (now : Z) (w : world)
  : option (list ftp_item_t) * Z * world :=
  let (cached, ctx) := cache_get (g_context w) path now in
  let w := set_context w ctx in
  match cached with
  | Some e =>
      let count := ce_item_count e in
      (Some (if count >? 0 then ce_items e else []), count, w)
  | None =>
      let w := sent w (LIST path) in
      let '(ret, items, count) :=
        ftp_list_dir mktime tm_now hour0 min0 curl_easy_perform path in
      if ret =? 0 then
        (Some items, count,
         set_context w (cache_put (g_context w) path items count now))
      else (None, count, w)
  end.

Definition cftpfs_getattr (path : string) (now : Z) (w : world)
  : Z * stat * world :=
  if strcmp path "/" =? 0 then
    (0, mk_stat (Z.lor S_IFDIR perm_0755) 2 0 0, w)
  else
    match strrchr path "/" with
    | None => (- ENOENT, zero_stat, w)
    | Some i =>
        let parent_path := strncpy path i in
        let basename := advance path (S i) in
        match basename with
        | EmptyString => (- ENOENT, zero_stat, w)
        | _ =>
            let '(items, count, w) := cached_listing parent_path now w in
            match find_item basename (default [] items) (Z.to_nat count) with
            | Some it => (0, stat_of_item it, w)
            | None => (- ENOENT, zero_stat, w)
            end
        end
    end.

(** The names handed to [filler], in order. *)
Definition cftpfs_readdir (path : string) (now : Z) (w : world)
  : Z * list string * world :=
  let '(items, count, w) := cached_listing path now w in
  match items with
  | None => (- EIO, ["."; ".."], w)
  | Some items =>
      (0, "." :: ".." :: (name <$> take (Z.to_nat count) items), w)
  end.

(** [temp_path] and [fd] are handed on to [handle_create].  The slot holds
    the pointer [fh], so the later write to [fh->is_new] shows in the
    table; the value of [ftp_download] is dropped, as in the source. *)
Definition cftpfs_open (path : string) (fi : fuse_file_info)
  (temp_path : string) (fd : Z) (w : world) : Z * fuse_file_info * world :=
  if Z.land (fi_flags fi) O_ACCMODE =? O_RDONLY then (0, fi, w)
  else
    let ctx := g_context w in
    match handle_create ctx path (fi_flags fi) temp_path fd with
    | None => (- EMFILE, fi, w)
    | Some fh =>
        match free_slot (file_handles ctx) with
        | None => (- EMFILE, fi, w)
        | Some i =>
            let handle_id := Z.of_nat i in
            if (Z.land (fi_flags fi) O_CREAT =? 0)
               || negb (Z.land (fi_flags fi) O_TRUNC =? 0)
            then
              let ctx := set_file_handles ctx
                           (<[i := Some fh]> (file_handles ctx)) in
              (0, mk_fi (fi_flags fi) handle_id,
               sent (set_context w ctx) (RETR path (fh_temp_path fh)))
            else
              let ctx := set_file_handles ctx
                           (<[i := Some (set_is_new fh true)]>
                              (file_handles ctx)) in
              (0, mk_fi (fi_flags fi) handle_id, set_context w ctx)
        end
    end.

Definition cftpfs_create (path : string) (fi : fuse_file_info)
  (temp_path : string) (fd : Z) (w : world) : Z * fuse_file_info * world :=
  cftpfs_open path fi temp_path fd w.

Definition cftpfs_write (path : string) (fi : fuse_file_info) (io : spill_io)
  (w : world) : Z * world :=
  match live_handle (g_context w) (fi_fh fi) with
  | None => (- EBADF, w)
  | Some fh =>
      match io with
      | SpillFailed errno => (- errno, w)
      | SpillWritten bytes_written errno =>
          let ctx := g_context w in
          let ctx :=
            if bytes_written >? 0 then
              set_file_handles ctx
                (<[Z.to_nat (fi_fh fi) := Some (set_dirty fh true)]>
                   (file_handles ctx))
            else ctx in
          (if bytes_written >=? 0 then bytes_written else - errno,
           set_context w ctx)
      end
  end.

Definition cftpfs_release (path : string) (fi : fuse_file_info) (w : world)
  : Z * world :=
  match live_handle (g_context w) (fi_fh fi) with
  | None => (0, w)
  | Some fh =>
      let w :=
        if fh_dirty fh || fh_is_new fh then
          let w := sent w (STOR (fh_temp_path fh) path) in
          set_context w (invalidate_parent (g_context w) path)
        else w in
      (0, set_context w (handle_release (g_context w) (fi_fh fi)))
  end.

Definition cftpfs_unlink (path : string) (w : world) : Z * world :=
  let w := sent w (DELE path) in
  let ret := ftp_delete curl_easy_perform path in
  if ret =? 0 then (ret, set_context w (invalidate_parent (g_context w) path))
  else (ret, w).

Definition cftpfs_mkdir (path : string) (w : world) : Z * world :=
  let w := sent w (MKD path) in
  let ret := ftp_mkdir curl_easy_perform path in
  if ret =? 0 then (ret, set_context w (invalidate_parent (g_context w) path))
  else (ret, w).

Definition cftpfs_rmdir (path : string) (w : world) : Z * world :=
  let w := sent w (RMD path) in
  let ret := ftp_rmdir curl_easy_perform path in
  if ret =? 0 then (ret, set_context w (invalidate_parent (g_context w) path))
  else (ret, w).

Definition cftpfs_rename (from to : string) (w : world) : Z * world :=
  let w := sent w (RNFR_RNTO from to) in
  let ret := ftp_rename curl_easy_perform from to in
  if ret =? 0 then (ret, set_context w (cache_invalidate (g_context w) "/"))
  else (ret, w).

End WithServer.

End Main.

Import Main.

(** ** A reference environment for the examples

    [mktime_utc] is the C library's [mktime] for a process whose local
    time is UTC: months outside 0..11 carry into the year, and the day
    count is the proleptic Gregorian one. *)

Definition days_from_civil (y m d : Z) : Z :=
  let y' := if m <=? 2 then y - 1 else y in
  let era := y' / 400 in
  let yoe := y' - era * 400 in
  let mp := (m + 9) mod 12 in
  let doy := (153 * mp + 2) / 5 + d - 1 in
  let doe := yoe * 365 + yoe / 4 - yoe / 100 + doy in
  era * 146097 + doe - 719468.

Definition mktime_utc (t : tm) : Z :=
  let y := 1900 + tm_year t + tm_mon t / 12 in
  let m := tm_mon t mod 12 + 1 in
  days_from_civil y m (tm_mday t) * 86400
  + tm_hour t * 3600 + tm_min t * 60 + tm_sec t.

(** A reading of the local clock in the year 2026. *)
Definition tm_2026 : tm := mk_tm 0 6 14 30 9 126.

(** A context fresh from [main]: empty cache, [MAX_HANDLES] free slots. *)
Definition fresh_context (timeout : Z) : cftpfs_context_t :=
  mk_ctx timeout [] (replicate (Z.to_nat MAX_HANDLES) None) "/tmp/cftpfs_1_0".

Definition fresh_world (timeout : Z) : world :=
  mk_world (fresh_context timeout) [].

(** A server whose root directory holds one file [a] and which accepts
    every command. *)
Definition root_server (r : ftp_request) : Z * string :=
  match r with
  | LIST _ => (CURLE_OK, "-rw-r--r-- 1 u g    3 Jan  1  2023 a")
  | _ => (CURLE_OK, "")
  end.

(** The listing of scenario S6: two lines in the Unix format. *)
Definition S6_listing : string :=
  "drwxr-xr-x 2 u g 4096 Jan  1 12:00 docs" +:+ String "010" ""
  +:+ "-rw-r--r-- 1 u g   42 Feb 15  2023 README".

(** A server that frames the two lines of S6 with lines no dialect
    accepts. *)
Definition S6_server (r : ftp_request) : Z * string :=
  match r with
  | LIST _ =>
      (CURLE_OK,
       "total 8" +:+ String "010" "" +:+ S6_listing +:+ String "010" ""
       +:+ String "010" "" +:+ "?????" +:+ String "010" "")
  | _ => (CURLE_OK, "")
  end.

(** ** Vocabulary of the statements *)

(** [k] equals [p] or starts with [p], byte for byte. *)
Definition key_has_prefix (p k : string) : Prop :=
  k = p \/ exists r, k = p +:+ r.

(** The keys of the cache, head first. *)
Definition cache_keys (ctx : cftpfs_context_t) : list string :=
  ce_path <$> dir_cache ctx.

(** Every byte of [s] is white space. *)
Fixpoint all_space (s : string) : bool :=
  match s with
  | EmptyString => true
  | String c s' => isspace c && all_space s'
  end.

(** The entry a line yields, if the parser accepts it. *)
Definition parsed_entry (mktime : tm -> Z) (tm_now : tm) (hour0 min0 : Z)
  (line : string) : option ftp_item_t :=
  let (r, it) := parse_ftp_listing mktime tm_now hour0 min0 line zero_item in
  if r =? 0 then Some it else None.

(** *** Well-formed lines of the Unix dialect

    [<type><perms> <links> <owner> <group> <size> <month> <day> <when> <rest>]
    with arbitrary non-empty white space between the fields; [<when>] is a
    year or [hh:mm], and [<rest>] is everything that follows. *)

Fixpoint all_nonspace (s : string) : bool :=
  match s with
  | EmptyString => true
  | String c s' => negb (isspace c) && all_nonspace s'
  end.

Fixpoint all_digits (s : string) : bool :=
  match s with
  | EmptyString => true
  | String c s' => isdigit c && all_digits s'
  end.

Definition starts_nonspace (s : string) : bool :=
  match s with
  | EmptyString => false
  | String c _ => negb (isspace c)
  end.

(** A separator: white space, at least one byte. *)
Definition gap (g : string) : Prop := all_space g = true /\ g <> "".

(** A field: bytes other than white space, at least one. *)
Definition token (t : string) : Prop := all_nonspace t = true /\ t <> "".

(** A decimal number: digits, at least one. *)
Definition number (d : string) : Prop := all_digits d = true /\ d <> "".

Inductive unix_when : Set :=
| AtTime (hh mm : string)
| InYear (yyyy : string).

Definition when_text (w : unix_when) : string :=
  match w with
  | AtTime hh mm => hh +:+ ":" +:+ mm
  | InYear yyyy => yyyy
  end.

Definition when_wf (w : unix_when) : Prop :=
  match w with
  | AtTime hh mm => number hh /\ number mm
  | InYear yyyy => number yyyy
  end.

Record unix_line : Set := mk_unix_line {
  ul_type : ascii;
  ul_perms : string;
  ul_links : string;
  ul_owner : string;
  ul_group : string;
  ul_size : string;
  ul_month : string;
  ul_day : string;
  ul_when : unix_when;
  ul_rest : string;
  ul_gaps : string * string * string * string * string * string * string * string
}.

Definition unix_line_text (l : unix_line) : string :=
  let '(g1, g2, g3, g4, g5, g6, g7, g8) := ul_gaps l in
  String (ul_type l) (ul_perms l) +:+ g1 +:+ ul_links l +:+ g2
  +:+ ul_owner l +:+ g3 +:+ ul_group l +:+ g4 +:+ ul_size l +:+ g5
  +:+ ul_month l +:+ g6 +:+ ul_day l +:+ g7 +:+ when_text (ul_when l) +:+ g8
  +:+ ul_rest l.

Definition unix_line_wf (l : unix_line) : Prop :=
  let '(g1, g2, g3, g4, g5, g6, g7, g8) := ul_gaps l in
  all_nonspace (ul_perms l) = true
  /\ token (ul_links l) /\ token (ul_owner l) /\ token (ul_group l)
  /\ number (ul_size l) /\ ul_month l ∈ months /\ number (ul_day l)
  /\ when_wf (ul_when l) /\ starts_nonspace (ul_rest l) = true
  /\ gap g1 /\ gap g2 /\ gap g3 /\ gap g4 /\ gap g5 /\ gap g6 /\ gap g7
  /\ gap g8.

(** [rest] reads [pre], then [" -> "], then [post], and [" -> "] does not
    occur in it any earlier. *)
Definition first_arrow (rest pre post : string) : Prop :=
  rest = pre +:+ " -> " +:+ post
  /\ forall pre' post',
      rest = pre' +:+ " -> " +:+ post' ->
      (String.length pre <= String.length pre')%nat.

Definition no_arrow (rest : string) : Prop :=
  forall pre post, rest <> pre +:+ " -> " +:+ post.

(** *** Well-formed lines of the Windows dialect

    [MM-DD-YY  HH:MIxx  (<DIR>|<size>)  <name>] with two digits in each
    numeric field of the date and the time, a marker [xx] of two bytes
    right after the minutes, and arbitrary non-empty white space between
    the columns. *)

(** The value of a decimal numeral, read left to right from [acc]. *)
Fixpoint decimal_from (acc : Z) (d : string) : Z :=
  match d with
  | EmptyString => acc
  | String c d' => decimal_from (acc * 10 + (byte c - 48)) d'
  end.

Definition decimal (d : string) : Z := decimal_from 0 d.

Definition two_digits (d : string) : Prop :=
  String.length d = 2%nat /\ all_digits d = true.

Definition two_bytes (m : string) : Prop :=
  String.length m = 2%nat /\ all_nonspace m = true.

Definition pm_markers : list string := ["PM"; "Pm"; "pM"; "pm"].
Definition am_markers : list string := ["AM"; "Am"; "aM"; "am"].

Inductive win_size : Set :=
| WinDir
| WinSize (digits : string).

Definition win_size_text (s : win_size) : string :=
  match s with
  | WinDir => "<DIR>"
  | WinSize d => d
  end.

Definition win_size_wf (s : win_size) : Prop :=
  match s with
  | WinDir => True
  | WinSize d => number d
  end.

Record win_line : Set := mk_win_line {
  wl_month : string;
  wl_day : string;
  wl_year : string;
  wl_hour : string;
  wl_min : string;
  wl_ampm : string;
  wl_size : win_size;
  wl_name : string;
  wl_gaps : string * string * string
}.

Definition win_line_text (l : win_line) : string :=
  let '(g1, g2, g3) := wl_gaps l in
  wl_month l +:+ "-" +:+ wl_day l +:+ "-" +:+ wl_year l +:+ g1
  +:+ wl_hour l +:+ ":" +:+ wl_min l +:+ wl_ampm l +:+ g2
  +:+ win_size_text (wl_size l) +:+ g3 +:+ wl_name l.

Definition win_line_wf (l : win_line) : Prop :=
  let '(g1, g2, g3) := wl_gaps l in
  two_digits (wl_month l) /\ two_digits (wl_day l) /\ two_digits (wl_year l)
  /\ two_digits (wl_hour l) /\ two_digits (wl_min l) /\ two_bytes (wl_ampm l)
  /\ win_size_wf (wl_size l) /\ starts_nonspace (wl_name l) = true
  /\ gap g1 /\ gap g2 /\ gap g3.

(** The lines of the comment that heads [parse_windows_listing]. *)
Definition win_dir_line : win_line :=
  mk_win_line "01" "01" "24" "12" "00" "PM" WinDir "name"
              ("  ", "              ", "          ").

Definition win_file_line : win_line :=
  mk_win_line "01" "01" "99" "12" "05" "am" (WinSize "1234") "file.txt"
              ("  ", "                ", "         ").

(** A regular file whose name contains the arrow. *)
Definition file_with_arrow : unix_line :=
  mk_unix_line "-" "rw-r--r--" "1" "u" "g" "7" "Jan" "1" (InYear "2023")
               "a -> b" (" ", " ", " ", " ", " ", " ", " ", " ").

(** ** src/ftp_client.c, continued: the URL path and the response buffer *)

Module Adapter.

(** [strchr(p, c)] as an offset: the first occurrence of [c] in [p]. *)
Fixpoint strchr_off (p : string) (c : ascii) : option nat :=
  match p with
  | EmptyString => None
  | String d p' => if byte d =? byte c then Some O else S <$> strchr_off p' c
  end.

(** [out[out_pos - 1]] for [out_pos > 0]. *)
Fixpoint last_byte (out : string) : option ascii :=
  match out with
  | EmptyString => None
  | String c EmptyString => Some c
  | String _ out' => last_byte out'
  end.

Section WithEscape.

(** [curl_easy_escape(curl, component, 0)]: the escaped component, or
    [None] for NULL. *)
Variable curl_easy_escape : string -> option string.

(** [out_len] is the size of the buffer [out]; the [string] [out] is what
    has been written so far, so [out_pos] is its length. *)
Variable out_len : Z.

(** One turn of the [while ( *p && out_pos < out_len - 1)] loop per
    component; [fuel] bounds the number of turns. *)
Fixpoint encode_loop (fuel : nat) (p out : string) : string :=
  match fuel with
  | O => out
  | S fuel' =>
      match p with
      | EmptyString => out
      | _ =>
          if strlen out <? out_len - 1 then
            let slash := strchr_off p "/" in
            let component_len :=
              match slash with
              | Some k => k
              | None => String.length p
              end in
            let out :=
              if (0 <? component_len)%nat then
                let component_len :=
                  if (256 <=? component_len)%nat then 255%nat
                  else component_len in
                match curl_easy_escape (strncpy p component_len) with
                | Some encoded =>
                    if strlen out + strlen encoded <? out_len - 1
                    then out +:+ encoded else out
                | None => out
                end
              else out in
            match slash with
            | Some k =>
                let out :=
                  if strlen out <? out_len - 1 then out +:+ "/" else out in
                encode_loop fuel' (advance p (S k)) out
            | None => out
            end
          else out
      end
  end.

(** The string left in [out], or [None] for the result -1.  Every turn of
    the loop moves [p] forward, so the length of the path bounds the
    number of turns. *)
Definition encode_ftp_path (path : string) (is_dir : bool) : option string :=
  if out_len =? 0 then None
  else
    let out := if 0 <? out_len - 1 then "/" else "" in
    let p :=
      match path with
      | String c p' => if byte c =? byte "/" then p' else path
      | EmptyString => path
      end in
    let out := encode_loop (String.length p) p out in
    let out :=
      if is_dir && (0 <? strlen out)
         && negb (match last_byte out with
                  | Some c => byte c =? byte "/"
                  | None => false
                  end)
         && (strlen out <? out_len - 1)
      then out +:+ "/" else out in
    Some out.

End WithEscape.

(** [size_t] arithmetic (64 bits). *)
Definition wrap_size_t (z : Z) : Z := z mod 2 ^ 64.

(** [response_buffer_t]: [data] holds the [size] bytes received so far
    (a zero byte is written after them); [capacity] is the size of the
    allocation. *)
Record response_buffer_t : Set := mk_buf {
  rb_data : string;
  rb_size : Z;
  rb_capacity : Z
}.

(** [write_callback(ptr, size, nmemb, &buf)] for the [size * nmemb] bytes
    [chunk] at [ptr]: the value returned and the buffer afterwards.
    [realloc] is taken to succeed. *)
Definition write_callback (chunk : string) (buf : response_buffer_t)
  : Z * response_buffer_t :=
  let total_size := strlen chunk in
  let new_size := wrap_size_t (rb_size buf + total_size) in
  let capacity :=
    if new_size >=? rb_capacity buf
    then wrap_size_t (new_size * 2 + 1024)
    else rb_capacity buf in
  (total_size, mk_buf (rb_data buf +:+ chunk) new_size capacity).

(** [response_buffer_t buf = {0}; buf.capacity = 65536; buf.data = malloc]
    of [ftp_list_dir]. *)
Definition fresh_buffer : response_buffer_t := mk_buf "" 0 65536.

End Adapter.

Import Adapter.

(** ** src/main.c, continued: reading and truncating *)

(** The outcome of the [open]/[lseek]/[read] sequence of [cftpfs_read]:
    an early failure with its [errno], or the value of [read] (and the
    [errno] that goes with a negative one). *)
Inductive file_io : Set :=
| FileFailed (errno : Z)
| FileRead (bytes_read errno : Z).

Module Files.

Definition io_result (io : file_io) : Z :=
  match io with
  | FileFailed errno => - errno
  | FileRead bytes_read errno =>
      if bytes_read >=? 0 then bytes_read else - errno
  end.

Section WithServer.

Variable curl_easy_perform : ftp_request -> Z * string.

(** [temp_path] is the name [snprintf] builds for the download.  The
    value returned, the file handed to [open] ([None] when the call
    returns before) and the process afterwards. *)
Definition cftpfs_read (path : string) (fi : fuse_file_info)
  (temp_path : string) (io : file_io) (w : world)
  : Z * option string * world :=
  match live_handle (g_context w) (fi_fh fi) with
  | Some fh =>
      (io_result io,
       Some (strncpy (fh_temp_path fh) (Z.to_nat (MAX_PATH_LEN - 1))), w)
  | None =>
      let w := sent w (RETR path temp_path) in
      if negb (ftp_download curl_easy_perform path temp_path =? 0)
      then (- EIO, None, w)
      else (io_result io, Some temp_path, w)
  end.

(** [fd] is what [open(temp_path, O_WRONLY | O_CREAT, 0644)] returns when
    the download has failed. *)
Definition cftpfs_truncate (path : string) (temp_path : string) (fd : Z)
  (w : world) : Z * world :=
  let w := sent w (RETR path temp_path) in
  if ftp_download curl_easy_perform path temp_path =? 0 then
    (0, sent w (STOR temp_path path))
  else if fd >=? 0 then (0, sent w (STOR temp_path path))
  else (0, w).

End WithServer.

End Files.

Import Files.

(** ** Vocabulary of the further statements *)

(** The mode the parsers attach to a kind of entry. *)
Definition synthetic_mode (t : ftp_item_type_t) : Z :=
  match t with
  | FTP_TYPE_DIR => Z.lor S_IFDIR perm_0755
  | FTP_TYPE_FILE => Z.lor S_IFREG perm_0644
  | FTP_TYPE_LINK => Z.lor S_IFLNK perm_0777
  | FTP_TYPE_UNKNOWN => 0
  end.

(** The kind a type byte of the Unix dialect stands for. *)
Definition kind_of_byte (c : ascii) : ftp_item_type_t :=
  if byte c =? byte "d" then FTP_TYPE_DIR
  else if byte c =? byte "-" then FTP_TYPE_FILE
  else if byte c =? byte "l" then FTP_TYPE_LINK
  else FTP_TYPE_UNKNOWN.

(** The time a well-formed Unix line is stamped with, for the month
    number [mon]: the time of day in the current year, or midnight in the
    year given; when a colon occurs further right, in the name field, a
    year is taken for an hour of the current year. *)
Definition unix_line_tm (tm_now : tm) (l : unix_line) (mon : Z) : tm :=
  match ul_when l with
  | AtTime hh mm =>
      mk_tm 0 (decimal mm) (decimal hh) (decimal (ul_day l)) mon
            (tm_year tm_now)
  | InYear yyyy =>
      if strchr (ul_rest l) ":" then
        mk_tm 0 0 (decimal yyyy) (decimal (ul_day l)) mon (tm_year tm_now)
      else
        mk_tm 0 0 0 (decimal (ul_day l)) mon (decimal yyyy - 1900)
  end.

(** The numerals of a line stay within [int]; the size within [off_t]. *)
Definition unix_line_small (l : unix_line) : Prop :=
  decimal (ul_size l) < 2 ^ 63
  /\ decimal (ul_day l) < 2 ^ 31
  /\ match ul_when l with
     | AtTime hh mm => decimal hh < 2 ^ 31 /\ decimal mm < 2 ^ 31
     | InYear yyyy => decimal yyyy < 2 ^ 31
     end.

(** All slots of the handle table are taken. *)
Definition table_full (ctx : cftpfs_context_t) : Prop :=
  forall i, (i < Z.to_nat MAX_HANDLES)%nat ->
            file_handles ctx !! i <> Some None.

(** What holds of every entry a parser hands out. *)
Definition entry_ok (it : ftp_item_t) : Prop :=
  type it <> FTP_TYPE_UNKNOWN
  /\ mode it = synthetic_mode (type it)
  /\ starts_nonspace (name it) = true
  /\ strlen (name it) <= MAX_PATH_LEN - 1
  /\ - 2 ^ 63 <= size it < 2 ^ 63.

(** The line feed, the delimiter of [strtok] in [ftp_list_dir]. *)
Definition LF : ascii := "010"%char.

(** Every key of the cache fits the key buffer of an entry. *)
Definition keys_fit (ctx : cftpfs_context_t) : Prop :=
  forall k, k ∈ cache_keys ctx -> strlen k < MAX_PATH_LEN.

(** The time-out [cache_get] compares with. *)
Definition effective_timeout (ctx : cftpfs_context_t) : Z :=
  if cache_timeout ctx >? 0 then cache_timeout ctx else CACHE_TIMEOUT_DEFAULT.

(** The directory that the block shared by [cftpfs_release],
    [cftpfs_unlink], [cftpfs_mkdir] and [cftpfs_rmdir] evicts: the path up
    to its last slash, when that slash is not the first byte. *)
Definition parent_dir (path : string) : option string :=
  match strrchr path "/" with
  | Some (S i) => Some (strncpy path (S i))
  | _ => None
  end.

(** What a callback that changes the server does to the process: one
    [request] on the wire and the handle table as before; when the server
    refuses, -EIO and the context as before; when it accepts, 0, and
    [cache_get] misses every key with the prefix [evicted] from then on
    (the context as before when there is none). *)
Definition mutates_like (run : world -> Z * world) (request : ftp_request)
  (accepted : bool) (evicted : option string) (w : world) : Prop :=
  wire (snd (run w)) = wire w ++ [request]
  /\ file_handles (g_context (snd (run w))) = file_handles (g_context w)
  /\ (accepted = false ->
      fst (run w) = - EIO /\ g_context (snd (run w)) = g_context w)
  /\ (accepted = true ->
      fst (run w) = 0
      /\ (evicted = None -> g_context (snd (run w)) = g_context w)
      /\ forall p, evicted = Some p ->
         forall q now, key_has_prefix p q ->
                       fst (cache_get (g_context (snd (run w))) q now) = None).

(** The handle [handle_create] builds. *)
Definition new_handle (path : string) (flags : Z) (temp_path : string)
  : file_handle_t :=
  mk_handle (-1) (strncpy path (Z.to_nat (MAX_PATH_LEN - 1))) temp_path flags
            false false.

(** [O_CREAT] without [O_TRUNC]: the open marks the handle as new and
    downloads nothing. *)
Definition creates_new (flags : Z) : bool :=
  negb (Z.land flags O_CREAT =? 0) && (Z.land flags O_TRUNC =? 0).

(** The process after an open has put [h] in slot [i] and sent
    [sent_requests]. *)
Definition open_world (w : world) (i : nat) (h : file_handle_t)
  (sent_requests : list ftp_request) : world :=
  mk_world (set_file_handles (g_context w)
              (<[i := Some h]> (file_handles (g_context w))))
           (wire w ++ sent_requests).

(** The buffer after the write callback has run on each chunk in turn. *)
Definition received (chunks : list string) (buf : response_buffer_t)
  : response_buffer_t :=
  foldl (fun b chunk => snd (write_callback chunk b)) buf chunks.

(** The bytes of the chunks, in order. *)
Definition stream (chunks : list string) : string :=
  foldr String.append "" chunks.

(** The components of a path: the runs between slashes, empty ones
    included. *)
Fixpoint components (p : string) : list string :=
  match p with
  | EmptyString => [""]
  | String c p' =>
      if byte c =? byte "/" then "" :: components p'
      else
        match components p' with
        | h :: t => String c h :: t
        | [] => [String c ""]
        end
  end.

(** The strings of [l] with a slash between neighbours. *)
Fixpoint join_slash (l : list string) : string :=
  match l with
  | [] => ""
  | [x] => x
  | x :: l' => x +:+ "/" +:+ join_slash l'
  end.

(** What a component contributes to the URL path: nothing when it is
    empty or cannot be escaped, else the escape of its first 255 bytes. *)
Definition escaped (curl_easy_escape : string -> option string)
  (c : string) : string :=
  match c with
  | EmptyString => ""
  | _ => default "" (curl_easy_escape (strncpy c 255))
  end.

Definition url_path (curl_easy_escape : string -> option string)
  (p : string) : string :=
  join_slash (escaped curl_easy_escape <$> components p).

Definition ends_with_slash (s : string) : bool :=
  match last_byte s with
  | Some c => byte c =? byte "/"
  | None => false
  end.

(** *** Further fixtures *)

(** A handle with unsaved bytes, and a process in which every slot of the
    table holds it. *)
Definition spill_handle : file_handle_t :=
  mk_handle (-1) "/f" "/tmp/cftpfs_1_0/fh_0" O_WRONLY true false.

Definition full_world : world :=
  mk_world (mk_ctx 30 [] (replicate (Z.to_nat MAX_HANDLES) (Some spill_handle))
                   "/tmp/cftpfs_1_0")
           [].

(** A server that cannot be reached: every transfer returns
    [CURLE_COULDNT_CONNECT]. *)
Definition down_server (r : ftp_request) : Z * string := (7, "").

(** An escaping function that leaves every component as it is, and one
    that replaces a space by [%20]. *)
Definition escape_nothing (c : string) : option string := Some c.

Fixpoint escape_space (c : string) : option string :=
  match c with
  | EmptyString => Some ""
  | String a c' =>
      match escape_space c' with
      | Some e => Some (if byte a =? byte " " then "%20" +:+ e else String a e)
      | None => None
      end
  end.

(* ===================================================================== *)
(** * Part II: properties                                                  *)
(* ===================================================================== *)

(** ** <string.h> *)

Lemma byte_inj (c d : ascii) : byte c = byte d -> c = d.
Proof.
  unfold byte. intros H. apply N2Z.inj in H.
  rewrite <- (ascii_N_embedding c), <- (ascii_N_embedding d). now rewrite H.
Qed.

Lemma byte_eqb_true (c d : ascii) : (byte c =? byte d) = true <-> c = d.
Proof.
  rewrite Z.eqb_eq. split; [apply byte_inj | now intros ->].
Qed.

Lemma strcmp_refl (a : string) : strcmp a a = 0.
Proof.
  induction a as [|c a IH]; simpl; [reflexivity|].
  now rewrite Z.eqb_refl.
Qed.

Lemma strcmp_0_iff (a b : string) : strcmp a b = 0 <-> a = b.
Proof.
  split; [|intros ->; apply strcmp_refl].
  revert b. induction a as [|c a IH]; intros [|d b]; simpl; try easy.
  destruct (Z.eqb_spec (byte c) (byte d)) as [E|E].
  - intros H. apply byte_inj in E. apply IH in H. now subst.
  - now destruct (byte c <? byte d).
Qed.

Lemma strcmp_eqb (a b : string) : (strcmp a b =? 0) = true <-> a = b.
Proof. now rewrite Z.eqb_eq, strcmp_0_iff. Qed.

Lemma strcmp_neqb (a b : string) : (strcmp a b =? 0) = false <-> a <> b.
Proof.
  rewrite <- strcmp_eqb. destruct (strcmp a b =? 0); split; congruence.
Qed.

(** [strncmp] over the length of its second argument is the prefix test. *)
Lemma strncmp_prefix (s p : string) :
  strncmp s p (String.length p) = 0 <-> exists r, s = p +:+ r.
Proof.
  revert s. induction p as [|d p IH]; intros s; simpl.
  - split; [intros _; now exists s | reflexivity].
  - destruct s as [|c s].
    + split; [discriminate | intros [r Hr]; discriminate].
    + destruct (Z.eqb_spec (byte c) (byte d)) as [E|E].
      * apply byte_inj in E. subst d. rewrite IH.
        split; intros [r Hr]; exists r; [now rewrite Hr | now injection Hr].
      * split.
        -- now destruct (byte c <? byte d).
        -- intros [r Hr]. injection Hr as -> _. now elim E.
Qed.

Lemma strncpy_short (s : string) (n : nat) :
  (String.length s <= n)%nat -> strncpy s n = s.
Proof.
  revert n. induction s as [|c s IH]; intros [|n] H; simpl in *;
    try reflexivity; try lia.
  rewrite IH by lia. reflexivity.
Qed.

Lemma strncpy_app (a b : string) : strncpy (a +:+ b) (String.length a) = a.
Proof.
  induction a as [|c a IH]; simpl.
  - now destruct b.
  - now rewrite IH.
Qed.

(** ** The directory cache *)

Lemma invalidated_iff (p : string) (e : cache_entry_t) :
  invalidated p e = true <-> key_has_prefix p (ce_path e).
Proof.
  unfold invalidated, key_has_prefix.
  rewrite orb_true_iff, strcmp_eqb, Z.eqb_eq, strncmp_prefix. tauto.
Qed.

Lemma invalidate_loop_elem (p : string) (l : list cache_entry_t) e :
  e ∈ invalidate_loop p l <-> e ∈ l /\ ~ key_has_prefix p (ce_path e).
Proof.
  induction l as [|x l IH]; simpl.
  - rewrite elem_of_nil. tauto.
  - destruct (invalidated p x) eqn:Hx.
    + rewrite IH, elem_of_cons. apply invalidated_iff in Hx.
      split; [tauto|]. intros [[->|H] Hn]; tauto.
    + rewrite !elem_of_cons, IH.
      assert (~ key_has_prefix p (ce_path x))
        by (rewrite <- invalidated_iff; congruence).
      split; [intros [->|H']; tauto | tauto].
Qed.

Lemma invalidate_loop_sublist (p : string) (l : list cache_entry_t) :
  invalidate_loop p l `sublist_of` l.
Proof.
  induction l as [|x l IH]; simpl; [constructor|].
  destruct (invalidated p x); now constructor.
Qed.

Lemma remove_first_absent (p : string) (l : list cache_entry_t) :
  (forall e, e ∈ l -> ce_path e <> p) -> remove_first p l = l.
Proof.
  induction l as [|x l IH]; intros H; simpl; [reflexivity|].
  assert (Hx : (strcmp (ce_path x) p =? 0) = false).
  { apply strcmp_neqb, H. left. }
  rewrite Hx, IH; [reflexivity|]. intros e He. apply H. now right.
Qed.

Lemma get_loop_absent (T now : Z) (p : string) (l : list cache_entry_t) :
  (forall e, e ∈ l -> ce_path e <> p) -> get_loop T now p l = (None, l).
Proof.
  induction l as [|x l IH]; intros H; simpl; [reflexivity|].
  assert (Hx : (strcmp (ce_path x) p =? 0) = false).
  { apply strcmp_neqb, H. left. }
  rewrite Hx, IH; [reflexivity|]. intros e He. apply H. now right.
Qed.

Lemma set_dir_cache_same (ctx : cftpfs_context_t) :
  set_dir_cache ctx (dir_cache ctx) = ctx.
Proof. now destruct ctx. Qed.

Lemma clamp_cache_timeout_range (n : Z) :
  CACHE_TIMEOUT_MIN <= clamp_cache_timeout n <= CACHE_TIMEOUT_MAX.
Proof.
  unfold clamp_cache_timeout, CACHE_TIMEOUT_MIN, CACHE_TIMEOUT_MAX.
  destruct (Z.ltb_spec n 5); [lia|].
  destruct (Z.gtb_spec n 300); lia.
Qed.

(** Whatever the command line, the configured time-out is within the
    documented bounds, hence positive. *)
Lemma configured_timeout_range (opts : list timeout_option) :
  CACHE_TIMEOUT_MIN <= configured_timeout opts <= CACHE_TIMEOUT_MAX.
Proof.
  unfold configured_timeout.
  assert (H0 : CACHE_TIMEOUT_MIN <= CACHE_TIMEOUT_DEFAULT <= CACHE_TIMEOUT_MAX)
    by (unfold CACHE_TIMEOUT_MIN, CACHE_TIMEOUT_DEFAULT, CACHE_TIMEOUT_MAX; lia).
  revert H0. generalize CACHE_TIMEOUT_DEFAULT as t.
  induction opts as [|o opts IH]; intros t Ht; simpl; [exact Ht|].
  apply IH. destruct o; simpl.
  - apply clamp_cache_timeout_range.
  - unfold CACHE_TIMEOUT_MIN, CACHE_TIMEOUT_MAX. lia.
Qed.

(** C2. [cache_invalidate ctx p] keeps, in their order, exactly the entries
    whose key neither equals [p] nor starts with [p] as a byte string; in
    particular, after [put "/a"], [put "/a/b"], [put "/ab"] on an empty
    cache, [invalidate "/a"] removes all three entries, [/ab] included. *)
Theorem cache_invalidate_exact :
  (forall (ctx : cftpfs_context_t) (p : string),
      (forall e, e ∈ dir_cache (cache_invalidate ctx p) <->
                 e ∈ dir_cache ctx /\ ~ key_has_prefix p (ce_path e))
      /\ dir_cache (cache_invalidate ctx p) `sublist_of` dir_cache ctx)
  /\ (forall (ctx : cftpfs_context_t) xs1 n1 t1 xs2 n2 t2 xs3 n3 t3,
         let ctx3 :=
           cache_put (cache_put (cache_put (cache_init ctx) "/a" xs1 n1 t1)
                                "/a/b" xs2 n2 t2) "/ab" xs3 n3 t3 in
         cache_keys ctx3 = ["/ab"; "/a/b"; "/a"]
         /\ dir_cache (cache_invalidate ctx3 "/a") = []).
Proof.
  split.
  - intros ctx p. split.
    + intros e. apply invalidate_loop_elem.
    + apply invalidate_loop_sublist.
  - intros. split; reflexivity.
Qed.

(** C3. With a time-out [T] configured on the command line and a path [p]
    that fits a path buffer: after [put(p, xs)] at time [t] the entry is
    at the head of the cache; [get(p)] at time [now] returns it and leaves
    the cache alone when [now - t <= T]; when [now - t > T] it returns
    absent and unlinks the entry.  A [get] of a path that is not a key
    returns absent and leaves the context unchanged. *)
Theorem cache_get_ttl (opts : list timeout_option) (ctx : cftpfs_context_t)
  (p : string) (xs : list ftp_item_t) (n t now : Z) :
  cache_timeout ctx = configured_timeout opts ->
  strlen p < MAX_PATH_LEN ->
  let T := cache_timeout ctx in
  let ctx1 := cache_put ctx p xs n t in
  let stored := mk_entry p (if n >? 0 then xs else []) n t in
  let rest := remove_first p (dir_cache ctx) in
  dir_cache ctx1 = stored :: rest
  /\ (now - t <= T -> cache_get ctx1 p now = (Some stored, ctx1))
  /\ (now - t > T -> cache_get ctx1 p now = (None, set_dir_cache ctx rest))
  /\ (forall q, q ∉ cache_keys ctx -> cache_get ctx q now = (None, ctx)).
Proof.
  intros HT Hlen T ctx1 stored rest.
  pose proof (configured_timeout_range opts) as HR.
  unfold CACHE_TIMEOUT_MIN in HR.
  assert (Hpos : (cache_timeout ctx >? 0) = true).
  { apply Z.gtb_lt. fold T. unfold T. rewrite HT. lia. }
  assert (Hkey : strncpy p (Z.to_nat (MAX_PATH_LEN - 1)) = p).
  { apply strncpy_short. unfold strlen, MAX_PATH_LEN in *. lia. }
  assert (Hhead : dir_cache ctx1 = stored :: rest).
  { unfold ctx1, cache_put, stored, rest. simpl. now rewrite Hkey. }
  split; [exact Hhead|].
  assert (Hself : (strcmp p p =? 0) = true)
    by (apply strcmp_eqb; reflexivity).
  split; [|split].
  - intros Hle. unfold cache_get.
    replace (cache_timeout ctx1) with (cache_timeout ctx) by reflexivity.
    rewrite Hpos, Hhead. unfold stored at 1. simpl get_loop. rewrite Hself.
    destruct (Z.gtb_spec (now - t) (cache_timeout ctx)) as [Hgt|_].
    + unfold T in Hle. lia.
    + f_equal. change (set_dir_cache ctx1 (stored :: rest) = ctx1).
      rewrite <- Hhead. apply set_dir_cache_same.
  - intros Hgt. unfold cache_get.
    replace (cache_timeout ctx1) with (cache_timeout ctx) by reflexivity.
    rewrite Hpos, Hhead. unfold stored at 1. simpl get_loop. rewrite Hself.
    destruct (Z.gtb_spec (now - t) (cache_timeout ctx)) as [_|Hle].
    + reflexivity.
    + unfold T in Hgt. lia.
  - intros q Hq. unfold cache_get. rewrite Hpos.
    rewrite get_loop_absent.
    + now rewrite set_dir_cache_same.
    + intros e He Heq. apply Hq. unfold cache_keys.
      apply list_elem_of_fmap. now exists e.
Qed.

Lemma cache_get_ttl_witness :
  let ctx := fresh_context 10 in
  let ctx1 := cache_put ctx "/d" [zero_item] 1 100 in
  let stored := mk_entry "/d" [zero_item] 1 100 in
  dir_cache ctx1 = [stored]
  /\ (105 - 100 <= 10 -> cache_get ctx1 "/d" 105 = (Some stored, ctx1))
  /\ (105 - 100 > 10 -> cache_get ctx1 "/d" 105 = (None, set_dir_cache ctx []))
  /\ (forall q, q ∉ cache_keys ctx -> cache_get ctx q 105 = (None, ctx)).
Proof.
  apply (cache_get_ttl [OptCacheTimeout 10] (fresh_context 10) "/d"
                       [zero_item] 1 100 105).
  - reflexivity.
  - reflexivity.
Defined.

(** ** Invalidation after a mutation *)

(** On a cache whose keys all begin with ['/'], invalidating ["/"] is
    [cache_clear]. *)
Lemma invalidate_root_clears (ctx : cftpfs_context_t) :
  (forall k, k ∈ cache_keys ctx -> exists r, k = "/" +:+ r) ->
  cache_invalidate ctx "/" = cache_clear ctx.
Proof.
  unfold cache_invalidate, cache_clear, cache_keys. intros H. f_equal.
  induction (dir_cache ctx) as [|x l IH]; simpl; [reflexivity|].
  assert (Hx : invalidated "/" x = true).
  { apply invalidated_iff. right. apply H. now left. }
  rewrite Hx. apply IH. intros k Hk. apply H. now right.
Qed.

(** An entry with the empty key survives the invalidation of ["/"]. *)
Lemma invalidate_root_keeps_empty_key (ctx : cftpfs_context_t) e :
  e ∈ dir_cache ctx -> ce_path e = "" ->
  e ∈ dir_cache (cache_invalidate ctx "/").
Proof.
  intros He Hk. apply invalidate_loop_elem. split; [exact He|].
  rewrite Hk. intros [H|[r H]]; discriminate.
Qed.

Lemma invalidate_then_get (ctx : cftpfs_context_t) (p : string) (now : Z) :
  fst (cache_get (cache_invalidate ctx p) p now) = None.
Proof.
  unfold cache_get. rewrite get_loop_absent; [reflexivity|].
  intros e He Hk. apply invalidate_loop_elem in He as [_ Hn].
  apply Hn. now left.
Qed.

Lemma handle_release_cache (ctx : cftpfs_context_t) (fh : Z) :
  dir_cache (handle_release ctx fh) = dir_cache ctx
  /\ cache_timeout (handle_release ctx fh) = cache_timeout ctx.
Proof.
  unfold handle_release.
  destruct ((fh <? 0) || (fh >=? MAX_HANDLES)); [easy|].
  now destruct (default None (file_handles ctx !! Z.to_nat fh)).
Qed.

Lemma cache_get_ext (c1 c2 : cftpfs_context_t) (p : string) (now : Z) :
  dir_cache c1 = dir_cache c2 -> cache_timeout c1 = cache_timeout c2 ->
  fst (cache_get c1 p now) = fst (cache_get c2 p now).
Proof.
  unfold cache_get. intros -> ->.
  now destruct (get_loop _ now p (dir_cache c2)).
Qed.

(** ** Release *)

Section Release.

Variables (path : string) (fi : fuse_file_info) (w : world) (fh : file_handle_t).
Hypothesis Hlive : live_handle (g_context w) (fi_fh fi) = Some fh.

(** A dirty or new handle is written back: one [STOR] of the spill file to
    the path being released. *)
Lemma release_uploads :
  fh_dirty fh || fh_is_new fh = true ->
  cftpfs_release path fi w
  = (0, mk_world (handle_release (invalidate_parent (g_context w) path)
                                 (fi_fh fi))
                 (wire w ++ [STOR (fh_temp_path fh) path])).
Proof.
  intros Hd. unfold cftpfs_release. now rewrite Hlive, Hd.
Qed.

(** A handle that is neither dirty nor new is released without a request. *)
Lemma release_clean :
  fh_dirty fh || fh_is_new fh = false ->
  cftpfs_release path fi w
  = (0, mk_world (handle_release (g_context w) (fi_fh fi)) (wire w)).
Proof.
  intros Hd. unfold cftpfs_release. now rewrite Hlive, Hd.
Qed.

(** When the last ['/'] of the path is not its first byte, the listing of
    the parent directory is gone after the write-back. *)
Lemma release_evicts_parent (i : nat) (now : Z) :
  fh_dirty fh || fh_is_new fh = true ->
  strrchr path "/" = Some (S i) ->
  fst (cache_get (g_context (snd (cftpfs_release path fi w)))
                 (strncpy path (S i)) now) = None.
Proof.
  intros Hd Hs. rewrite release_uploads by exact Hd. simpl.
  unfold invalidate_parent. rewrite Hs.
  destruct (handle_release_cache
              (cache_invalidate (g_context w) (strncpy path (S i))) (fi_fh fi))
    as [Hc Ht].
  rewrite (cache_get_ext _ _ _ _ Hc Ht). apply invalidate_then_get.
Qed.

(** When the only ['/'] of the path is its first byte, the release leaves
    the cache as it was, whatever the flags of the handle. *)
Lemma release_root_child_keeps_cache :
  strrchr path "/" = Some O ->
  dir_cache (g_context (snd (cftpfs_release path fi w)))
  = dir_cache (g_context w).
Proof.
  intros Hs. unfold cftpfs_release. rewrite Hlive.
  destruct (fh_dirty fh || fh_is_new fh); simpl.
  - unfold invalidate_parent. rewrite Hs.
    apply (handle_release_cache (g_context w) (fi_fh fi)).
  - apply (handle_release_cache (g_context w) (fi_fh fi)).
Qed.

End Release.

(** C1. Releasing ["/new.txt"], created with [O_WRONLY | O_CREAT] and
    written to, after the root directory was listed: the spill file is
    uploaded to ["/new.txt"], but the cached listing of the parent ["/"]
    is still served afterwards. *)
Theorem release_in_root_keeps_root_listing :
  let spill := "/tmp/cftpfs_1_0/fh_1_1000_0x1" in
  let readdir := cftpfs_readdir mktime_utc tm_2026 0 0 root_server in
  let '(_, _, w1) := readdir "/" 1000 (fresh_world 30) in
  let '(r2, fi, w2) :=
    cftpfs_open "/new.txt" (mk_fi (Z.lor O_WRONLY O_CREAT) 0) spill 3 w1 in
  let '(r3, w3) := cftpfs_write "/new.txt" fi (SpillWritten 2 0) w2 in
  let '(r4, w4) := cftpfs_release "/new.txt" fi w3 in
  r2 = 0 /\ r3 = 2 /\ r4 = 0
  /\ (fh_is_new <$> live_handle (g_context w3) (fi_fh fi)) = Some true
  /\ (fh_dirty <$> live_handle (g_context w3) (fi_fh fi)) = Some true
  /\ wire w4 = [LIST "/"; STOR spill "/new.txt"]
  /\ cache_keys (g_context w4) = ["/"]
  /\ (name <$> default [] (ce_items <$> fst (cache_get (g_context w4) "/" 1001)))
     = ["a"]
  /\ readdir "/" 1001 w4 = (0, ["."; ".."; "a"], w4).
Proof.
  vm_compute. repeat split.
Qed.

(** C9. After [getattr("/a")] has cached the listing of the root under the
    empty key, a successful [rename("/a", "/b")] leaves that entry in the
    cache: the cache is not empty, and [getattr("/a")] is still answered
    from it without asking the server. *)
Theorem rename_keeps_empty_key_entry :
  let getattr := cftpfs_getattr mktime_utc tm_2026 0 0 root_server in
  let '(r1, _, w1) := getattr "/a" 1000 (fresh_world 30) in
  let '(r2, w2) := cftpfs_rename root_server "/a" "/b" w1 in
  let '(r3, _, w3) := getattr "/a" 1001 w2 in
  r1 = 0 /\ r2 = 0
  /\ cache_keys (g_context w1) = [""]
  /\ cache_keys (g_context w2) = [""]
  /\ g_context w2 <> cache_clear (g_context w2)
  /\ r3 = 0
  /\ wire w3 = [LIST ""; RNFR_RNTO "/a" "/b"].
Proof.
  vm_compute. repeat split. discriminate.
Qed.

(** ** Open *)

Lemma free_slot_loop_some (slots : list (option file_handle_t)) (fuel i0 i : nat) :
  free_slot_loop slots i0 fuel = Some i ->
  slots !! i = Some None /\ (i0 <= i < i0 + fuel)%nat.
Proof.
  revert i0. induction fuel as [|fuel IH]; intros i0; simpl; [discriminate|].
  destruct (slots !! i0) as [[h|]|] eqn:E.
  - intros H. apply IH in H. split; [tauto | lia].
  - intros [= <-]. split; [exact E | lia].
  - intros H. apply IH in H. split; [tauto | lia].
Qed.

Lemma free_slot_some (slots : list (option file_handle_t)) (i : nat) :
  free_slot slots = Some i ->
  slots !! i = Some None /\ Z.of_nat i < MAX_HANDLES.
Proof.
  unfold free_slot. intros H. apply free_slot_loop_some in H as [H1 H2].
  split; [exact H1|].
  assert (Z.of_nat (Z.to_nat MAX_HANDLES) = MAX_HANDLES) by reflexivity.
  lia.
Qed.

Lemma live_handle_insert (ctx : cftpfs_context_t) (i : nat) (h : file_handle_t) :
  (i < length (file_handles ctx))%nat -> Z.of_nat i < MAX_HANDLES ->
  live_handle
    (set_file_handles ctx (<[i := Some h]> (file_handles ctx))) (Z.of_nat i)
  = Some h.
Proof.
  intros Hi Hm. unfold live_handle.
  destruct (Z.geb_spec (Z.of_nat i) MAX_HANDLES) as [?|_]; [lia|].
  simpl. rewrite Nat2Z.id, list_lookup_insert_eq by exact Hi. reflexivity.
Qed.

(** C4. A non-read-only open that obtains a handle (the spill file was
    created and slot [i] is the first free one) returns 0 with [fi->fh = i].
    With [O_CREAT] set and [O_TRUNC] clear it sends no request and the
    handle has [is_new] set; with any other combination it sends exactly one
    download of the remote path into the spill file and [is_new] stays
    false.  The server is not consulted for the choice. *)
Theorem open_priming (path : string) (fi : fuse_file_info)
  (temp_path : string) (fd : Z) (w : world) (i : nat) :
  Z.land (fi_flags fi) O_ACCMODE <> O_RDONLY ->
  0 <= fd ->
  free_slot (file_handles (g_context w)) = Some i ->
  let '(ret, fi', w') := cftpfs_open path fi temp_path fd w in
  ret = 0 /\ fi_fh fi' = Z.of_nat i
  /\ exists h,
      live_handle (g_context w') (fi_fh fi') = Some h
      /\ fh_temp_path h = temp_path /\ fh_dirty h = false
      /\ (Z.land (fi_flags fi) O_CREAT <> 0 /\ Z.land (fi_flags fi) O_TRUNC = 0 ->
          wire w' = wire w /\ fh_is_new h = true)
      /\ (Z.land (fi_flags fi) O_CREAT = 0 \/ Z.land (fi_flags fi) O_TRUNC <> 0 ->
          wire w' = wire w ++ [RETR path temp_path] /\ fh_is_new h = false).
Proof.
  intros Hacc Hfd Hfree. unfold cftpfs_open.
  destruct (Z.eqb_spec (Z.land (fi_flags fi) O_ACCMODE) O_RDONLY) as [?|_];
    [contradiction|].
  unfold handle_create.
  destruct (Z.ltb_spec fd 0) as [?|_]; [lia|].
  rewrite Hfree.
  apply free_slot_some in Hfree as [Hslot Hm].
  assert (Hi : (i < length (file_handles (g_context w)))%nat)
    by (eapply lookup_lt_Some; exact Hslot).
  set (h0 := mk_handle (-1) _ temp_path (fi_flags fi) false false).
  assert (Ht0 : fh_temp_path h0 = temp_path) by reflexivity.
  assert (Hd0 : fh_dirty h0 = false) by reflexivity.
  assert (Hn0 : fh_is_new h0 = false) by reflexivity.
  assert (Ht1 : fh_temp_path (set_is_new h0 true) = temp_path) by reflexivity.
  assert (Hd1 : fh_dirty (set_is_new h0 true) = false) by reflexivity.
  assert (Hn1 : fh_is_new (set_is_new h0 true) = true) by reflexivity.
  clearbody h0.
  destruct (Z.eqb_spec (Z.land (fi_flags fi) O_CREAT) 0) as [Hc|Hc];
    destruct (Z.eqb_spec (Z.land (fi_flags fi) O_TRUNC) 0) as [Ht|Ht];
    cbn [orb negb fi_fh];
    (split; [reflexivity|]); (split; [reflexivity|]).
  - exists h0. split; [apply live_handle_insert; assumption|].
    rewrite Ht0. repeat split; try assumption; tauto.
  - exists h0. split; [apply live_handle_insert; assumption|].
    rewrite Ht0. repeat split; try assumption; tauto.
  - exists (set_is_new h0 true).
    split; [apply live_handle_insert; assumption|].
    repeat split; try assumption; tauto.
  - exists h0. split; [apply live_handle_insert; assumption|].
    rewrite Ht0. repeat split; try assumption; tauto.
Qed.

Lemma open_priming_witness :
  let '(ret, fi', w') :=
    cftpfs_open "/new.txt" (mk_fi (Z.lor O_WRONLY O_CREAT) 0)
                "/tmp/cftpfs_1_0/fh_1_1000_0x1" 3 (fresh_world 30) in
  ret = 0 /\ fi_fh fi' = Z.of_nat 0
  /\ exists h,
      live_handle (g_context w') (fi_fh fi') = Some h
      /\ fh_temp_path h = "/tmp/cftpfs_1_0/fh_1_1000_0x1" /\ fh_dirty h = false
      /\ (Z.land (Z.lor O_WRONLY O_CREAT) O_CREAT <> 0
          /\ Z.land (Z.lor O_WRONLY O_CREAT) O_TRUNC = 0 ->
          wire w' = [] /\ fh_is_new h = true)
      /\ (Z.land (Z.lor O_WRONLY O_CREAT) O_CREAT = 0
          \/ Z.land (Z.lor O_WRONLY O_CREAT) O_TRUNC <> 0 ->
          wire w' = [] ++ [RETR "/new.txt" "/tmp/cftpfs_1_0/fh_1_1000_0x1"]
          /\ fh_is_new h = false).
Proof.
  apply (open_priming "/new.txt" (mk_fi (Z.lor O_WRONLY O_CREAT) 0)
                      "/tmp/cftpfs_1_0/fh_1_1000_0x1" 3 (fresh_world 30) 0).
  - vm_compute. discriminate.
  - lia.
  - reflexivity.
Defined.

(** ** The parser: dispatch *)

Lemma skip_spaces_all_space (ws r : string) :
  all_space ws = true -> skip_spaces (ws +:+ r) = skip_spaces r.
Proof.
  induction ws as [|c ws IH]; simpl; [reflexivity|].
  intros H. apply andb_true_iff in H as [Hc Hws]. now rewrite Hc, IH.
Qed.

Lemma skip_spaces_nonspace (c : ascii) (r : string) :
  isspace c = false -> skip_spaces (String c r) = String c r.
Proof. intros H. simpl. now rewrite H. Qed.

Lemma skip_spaces_empty (ws : string) :
  all_space ws = true -> skip_spaces ws = "".
Proof.
  induction ws as [|c ws IH]; simpl; [reflexivity|].
  intros H. apply andb_true_iff in H as [Hc Hws]. now rewrite Hc, IH.
Qed.

(** A line is white space only, or it has a first byte that is not. *)
Lemma line_shape (line : string) :
  all_space line = true
  \/ exists ws c rest,
      line = ws +:+ String c rest /\ all_space ws = true /\ isspace c = false.
Proof.
  induction line as [|c line IH]; [now left|].
  destruct (isspace c) eqn:Hc.
  - destruct IH as [H|(ws & d & rest & -> & Hws & Hd)].
    + left. simpl. now rewrite Hc, H.
    + right. exists (String c ws), d, rest. simpl. now rewrite Hc, Hws.
  - right. now exists "", c, line.
Qed.

(** C6. Let [ws] be white space and [c] a byte that is not.  The line [ws]
    alone (empty or all white space) is rejected.  The line [ws c rest] is
    handed, from [c] on, to the Unix parser when [c] is ['d'], ['-'] or
    ['l'], to the Windows parser when [c] is a decimal digit, and is
    rejected for any other [c]. *)
Theorem parse_ftp_listing_dispatch (mktime : tm -> Z) (tm_now : tm)
  (hour0 min0 : Z) (ws : string) (c : ascii) (rest : string)
  (item : ftp_item_t) :
  all_space ws = true ->
  isspace c = false ->
  let parse := parse_ftp_listing mktime tm_now hour0 min0 in
  let line := ws +:+ String c rest in
  fst (parse ws item) = -1
  /\ (c = "d"%char \/ c = "-"%char \/ c = "l"%char ->
      parse line item = parse_unix_listing mktime tm_now (String c rest) zero_item)
  /\ (isdigit c = true ->
      parse line item
      = parse_windows_listing mktime hour0 min0 (String c rest) zero_item)
  /\ (c <> "d"%char -> c <> "-"%char -> c <> "l"%char -> isdigit c = false ->
      fst (parse line item) = -1).
Proof.
  intros Hws Hc parse line. unfold parse, line, parse_ftp_listing.
  rewrite skip_spaces_empty by exact Hws.
  rewrite skip_spaces_all_space, skip_spaces_nonspace by assumption.
  split; [reflexivity|]. split; [|split].
  - now intros [->| [->| ->]].
  - intros Hd.
    destruct ((byte c =? byte "d") || (byte c =? byte "-")
              || (byte c =? byte "l")) eqn:E; [|now rewrite Hd].
    rewrite !orb_true_iff, !byte_eqb_true in E.
    now destruct E as [[->| ->]| ->].
  - intros H1 H2 H3 Hd.
    destruct ((byte c =? byte "d") || (byte c =? byte "-")
              || (byte c =? byte "l")) eqn:E.
    + rewrite !orb_true_iff, !byte_eqb_true in E. tauto.
    + now rewrite Hd.
Qed.

Lemma parse_ftp_listing_dispatch_witness :
  let parse := parse_ftp_listing mktime_utc tm_2026 0 0 in
  let line := "  " +:+ String "t" "otal 12" in
  fst (parse "  " zero_item) = -1
  /\ ("t"%char = "d"%char \/ "t"%char = "-"%char \/ "t"%char = "l"%char ->
      parse line zero_item
      = parse_unix_listing mktime_utc tm_2026 (String "t" "otal 12") zero_item)
  /\ (isdigit "t" = true ->
      parse line zero_item
      = parse_windows_listing mktime_utc 0 0 (String "t" "otal 12") zero_item)
  /\ ("t"%char <> "d"%char -> "t"%char <> "-"%char -> "t"%char <> "l"%char ->
      isdigit "t" = false ->
      fst (parse line zero_item) = -1).
Proof.
  apply (parse_ftp_listing_dispatch mktime_utc tm_2026 0 0 "  " "t" "otal 12"
                                    zero_item); reflexivity.
Defined.

(** ** Listing a directory *)

Section ListDir.

Variable mktime : tm -> Z.
Variable tm_now : tm.
Variables hour0 min0 : Z.

Lemma parsed_entry_unfold (line : string) (item : ftp_item_t) :
  parsed_entry mktime tm_now hour0 min0 line
  = (if fst (parse_ftp_listing mktime tm_now hour0 min0 line item) =? 0
     then Some (snd (parse_ftp_listing mktime tm_now hour0 min0 line item))
     else None).
Proof.
  unfold parsed_entry.
  change (parse_ftp_listing mktime tm_now hour0 min0 line item)
    with (parse_ftp_listing mktime tm_now hour0 min0 line zero_item).
  now destruct (parse_ftp_listing mktime tm_now hour0 min0 line zero_item).
Qed.

(** The second pass never runs out of slots: with room for every line
    that is left, it walks all of them, and the first [idx] slots then hold
    what they held before followed by the accepted entries in order. *)
Lemma parse_lines_spec (lines : list string) :
  forall (items : list ftp_item_t) (idx count : nat),
    (idx + length lines <= count)%nat ->
    (count <= length items)%nat ->
    let good := omap (parsed_entry mktime tm_now hour0 min0) lines in
    let r := parse_lines mktime tm_now hour0 min0 lines items idx count in
    snd r = (idx + length good)%nat
    /\ length (fst r) = length items
    /\ take (snd r) (fst r) = take idx items ++ good.
Proof.
  induction lines as [|line lines IH]; intros items idx count Hroom Hlen.
  - simpl. rewrite Nat.add_0_r, app_nil_r. auto.
  - simpl in Hroom. cbn [parse_lines omap list_omap].
    destruct (Nat.ltb_spec idx count) as [Hlt|Hge]; [|lia].
    rewrite (parsed_entry_unfold line (default zero_item (items !! idx))).
    destruct (parse_ftp_listing mktime tm_now hour0 min0 line
                (default zero_item (items !! idx))) as [r it].
    cbn [fst snd].
    destruct (r =? 0).
    + specialize (IH (<[idx := it]> items) (S idx) count).
      rewrite length_insert in IH.
      specialize (IH ltac:(lia) Hlen). cbv zeta in IH.
      destruct IH as (Hi & Hl & Ht). cbv zeta.
      split; [rewrite Hi; simpl; lia|]. split; [exact Hl|].
      rewrite Ht.
      rewrite (take_S_r _ idx it)
        by (apply list_lookup_insert_eq; lia).
      rewrite take_insert_ge by lia.
      now rewrite <- app_assoc.
    + specialize (IH (<[idx := it]> items) idx count).
      rewrite length_insert in IH.
      specialize (IH ltac:(lia) Hlen). cbv zeta in IH.
      destruct IH as (Hi & Hl & Ht). cbv zeta.
      split; [exact Hi|]. split; [exact Hl|].
      rewrite Ht. now rewrite take_insert_ge by lia.
Qed.

Lemma list_dir_parse_spec (data : string) :
  let good :=
    omap (parsed_entry mktime tm_now hour0 min0) (strtok_lines (c_str data)) in
  let r := list_dir_parse mktime tm_now hour0 min0 data in
  snd r = length good /\ take (snd r) (fst r) = good.
Proof.
  unfold list_dir_parse.
  pose proof (parse_lines_spec (strtok_lines (c_str data))
                (replicate (length (strtok_lines (c_str data))) zero_item)
                0 (length (strtok_lines (c_str data)))) as H.
  rewrite length_replicate in H.
  specialize (H ltac:(lia) ltac:(lia)). cbv zeta in H. cbv zeta.
  destruct H as (Hi & _ & Ht). split; [exact Hi|exact Ht].
Qed.

End ListDir.

(** C7. When the transfer of a LIST succeeds, [ftp_list_dir] returns 0
    whatever the lines of the response look like; the count it returns is
    the number of lines the parser accepted, and the first [count] items
    are the entries of exactly those lines, in the order of the response.
    Rejected lines leave no trace. *)
Theorem ftp_list_dir_skips_rejects (mktime : tm -> Z) (tm_now : tm)
  (hour0 min0 : Z) (curl_easy_perform : ftp_request -> Z * string)
  (path : string) :
  fst (curl_easy_perform (LIST path)) = CURLE_OK ->
  let lines := strtok_lines (c_str (snd (curl_easy_perform (LIST path)))) in
  let good := omap (parsed_entry mktime tm_now hour0 min0) lines in
  exists items,
    ftp_list_dir mktime tm_now hour0 min0 curl_easy_perform path
    = (0, items, Z.of_nat (length good))
    /\ take (length good) items = good.
Proof.
  intros Hok lines good. unfold ftp_list_dir.
  destruct (curl_easy_perform (LIST path)) as [res data]. simpl in *.
  subst res. simpl.
  pose proof (list_dir_parse_spec mktime tm_now hour0 min0 data) as H.
  cbv zeta in H.
  destruct (list_dir_parse mktime tm_now hour0 min0 data) as [items count].
  cbn [fst snd] in H. destruct H as [-> Ht]. now exists items.
Qed.

Lemma ftp_list_dir_skips_rejects_witness :
  let lines := strtok_lines (c_str (snd (S6_server (LIST "/")))) in
  let good := omap (parsed_entry mktime_utc tm_2026 0 0) lines in
  exists items,
    ftp_list_dir mktime_utc tm_2026 0 0 S6_server "/"
    = (0, items, Z.of_nat (length good))
    /\ take (length good) items = good.
Proof.
  apply (ftp_list_dir_skips_rejects mktime_utc tm_2026 0 0 S6_server "/").
  reflexivity.
Defined.

(** Four lines, two of them rejected: two entries come back. *)
Example ftp_list_dir_S6_server :
  let '(ret, items, count) :=
    ftp_list_dir mktime_utc tm_2026 0 0 S6_server "/" in
  ret = 0 /\ count = 2 /\ length items = 4%nat
  /\ (name <$> take (Z.to_nat count) items) = ["docs"; "README"].
Proof. vm_compute. repeat split. Qed.

(** ** The parser: the Unix dialect *)

Lemma wrap_int_id (z : Z) : - 2 ^ 31 <= z < 2 ^ 31 -> wrap_int z = z.
Proof.
  intros H. unfold wrap_int, wrap.
  change (2 ^ (32 - 1)) with (2 ^ 31). change (2 ^ 32) with (2 * 2 ^ 31).
  rewrite Z.mod_small; lia.
Qed.

Lemma wrap_off_t_id (z : Z) : - 2 ^ 63 <= z < 2 ^ 63 -> wrap_off_t z = z.
Proof.
  intros H. unfold wrap_off_t, wrap.
  change (2 ^ (64 - 1)) with (2 ^ 63). change (2 ^ 64) with (2 * 2 ^ 63).
  rewrite Z.mod_small; lia.
Qed.

(** 15 February 2023, 00:00:00 UTC. *)
Example mktime_utc_2023_02_15 :
  mktime_utc (mk_tm 0 0 0 15 1 (2023 - 1900)) = 1676419200.
Proof. reflexivity. Qed.

(** C5 as stated does not hold: the first entry of the S6 listing is not
    [docs] with size 0, whatever its time stamp and mode. *)
Lemma S6_docs_size_is_not_zero :
  ~ (exists t1 m1 e2,
        fst (list_dir_parse mktime_utc tm_2026 0 0 S6_listing)
        = [mk_item "docs" FTP_TYPE_DIR 0 t1 m1; e2]).
Proof.
  intros (t1 & m1 & e2 & H). vm_compute in H. discriminate H.
Qed.

(** C5, amended.  The two lines of S6 yield exactly two entries.  The
    first is the directory [docs] with the size the line carries, 4096,
    and a time stamp built from the current local year, January 1, 12:00.
    The second is the file [README] of size 42 with a time stamp built
    from 2023, February 15, 00:00. *)
Theorem S6_listing_entries (mktime : tm -> Z) (tm_now : tm) (hour0 min0 : Z) :
  0 <= tm_year tm_now < 10000 ->
  list_dir_parse mktime tm_now hour0 min0 S6_listing
  = ([ mk_item "docs" FTP_TYPE_DIR 4096
               (mktime (mk_tm 0 0 12 1 0 (tm_year tm_now)))
               (Z.lor S_IFDIR perm_0755);
       mk_item "README" FTP_TYPE_FILE 42
               (mktime (mk_tm 0 0 0 15 1 (2023 - 1900)))
               (Z.lor S_IFREG perm_0644) ],
     2%nat).
Proof.
  intros Hy.
  assert (Hw : wrap_int (wrap_int (tm_year tm_now + 1900) - 1900)
               = tm_year tm_now).
  { rewrite (wrap_int_id (tm_year tm_now + 1900)) by lia.
    rewrite wrap_int_id by lia. lia. }
  rewrite <- Hw at 1. reflexivity.
Qed.

Lemma S6_listing_entries_witness :
  list_dir_parse mktime_utc tm_2026 0 0 S6_listing
  = ([ mk_item "docs" FTP_TYPE_DIR 4096
               (mktime_utc (mk_tm 0 0 12 1 0 (tm_year tm_2026)))
               (Z.lor S_IFDIR perm_0755);
       mk_item "README" FTP_TYPE_FILE 42
               (mktime_utc (mk_tm 0 0 0 15 1 (2023 - 1900)))
               (Z.lor S_IFREG perm_0644) ],
     2%nat).
Proof.
  apply (S6_listing_entries mktime_utc tm_2026 0 0). simpl. lia.
Defined.

(** ** The parser: well-formed Unix lines *)

Lemma append_nil (b : string) : "" +:+ b = b.
Proof. reflexivity. Qed.

Lemma append_cons (c : ascii) (a b : string) :
  String c a +:+ b = String c (a +:+ b).
Proof. reflexivity. Qed.

Lemma append_assoc (a b c : string) : (a +:+ b) +:+ c = a +:+ b +:+ c.
Proof.
  induction a as [|x a IH]; [reflexivity|].
  now rewrite !append_cons, IH.
Qed.

Lemma length_append (a b : string) :
  String.length (a +:+ b) = (String.length a + String.length b)%nat.
Proof.
  induction a as [|x a IH]; [reflexivity|].
  rewrite append_cons. simpl. now rewrite IH.
Qed.

Lemma isspace_not_digit (c : ascii) : isspace c = true -> isdigit c = false.
Proof.
  unfold isspace, isdigit. intros H.
  apply orb_true_iff in H as [H|H].
  - apply Z.eqb_eq in H. rewrite H. reflexivity.
  - apply andb_true_iff in H as [H1 H2].
    apply Z.leb_le in H1, H2.
    destruct (Z.leb_spec 48 (byte c)); [lia | reflexivity].
Qed.

Lemma isdigit_not_space (c : ascii) : isdigit c = true -> isspace c = false.
Proof.
  intros H. destruct (isspace c) eqn:E; [|reflexivity].
  apply isspace_not_digit in E. congruence.
Qed.

Lemma gap_cons (g : string) :
  gap g -> exists c g', g = String c g' /\ isspace c = true /\ all_space g' = true.
Proof.
  intros [H Hne]. destruct g as [|c g']; [contradiction|].
  simpl in H. apply andb_true_iff in H as [H1 H2]. now exists c, g'.
Qed.

Lemma skip_nonspace_token (t g r : string) :
  all_nonspace t = true -> gap g -> skip_nonspace (t +:+ g +:+ r) = g +:+ r.
Proof.
  intros Ht Hg. induction t as [|c t IH]; simpl in Ht.
  - apply gap_cons in Hg as (s & g' & -> & Hs & _).
    rewrite append_nil, append_cons. simpl. now rewrite Hs.
  - apply andb_true_iff in Ht as [Hc Ht].
    apply negb_true_iff in Hc. rewrite append_cons. simpl.
    rewrite Hc. now apply IH.
Qed.

Lemma skip_spaces_gap (g r : string) :
  all_space g = true -> starts_nonspace r = true -> skip_spaces (g +:+ r) = r.
Proof.
  intros Hg Hr. rewrite skip_spaces_all_space by exact Hg.
  destruct r as [|c r]; [discriminate|].
  simpl in *. apply negb_true_iff in Hr. now rewrite Hr.
Qed.

Lemma skip_field (t g r : string) :
  all_nonspace t = true -> gap g -> starts_nonspace r = true ->
  skip_spaces (skip_nonspace (t +:+ g +:+ r)) = r.
Proof.
  intros Ht Hg Hr. rewrite skip_nonspace_token by assumption.
  apply skip_spaces_gap; [apply Hg | exact Hr].
Qed.

Lemma token_starts (t r : string) : token t -> starts_nonspace (t +:+ r) = true.
Proof.
  intros [H Hne]. destruct t as [|c t]; [contradiction|].
  rewrite append_cons. simpl in *. now apply andb_true_iff in H as [H _].
Qed.

Lemma number_starts (d r : string) : number d -> starts_nonspace (d +:+ r) = true.
Proof.
  intros [H Hne]. destruct d as [|c d]; [contradiction|].
  rewrite append_cons. simpl in *. apply andb_true_iff in H as [H _].
  apply negb_true_iff. now apply isdigit_not_space.
Qed.

Lemma month_starts (m r : string) : m ∈ months -> starts_nonspace (m +:+ r) = true.
Proof.
  unfold months. intros H.
  repeat (apply elem_of_cons in H as [->|H]; [reflexivity|]).
  now apply elem_of_nil in H.
Qed.

Lemma digits_loop_app (wr : Z -> Z) (d r : string) :
  all_digits d = true -> starts_with_digit r = false ->
  forall acc, digits_loop wr acc (d +:+ r) = (fst (digits_loop wr acc d), r).
Proof.
  intros Hd Hr. induction d as [|c d IH]; intros acc; simpl in Hd.
  - rewrite append_nil. destruct r as [|c r]; [reflexivity|].
    simpl in *. now rewrite Hr.
  - apply andb_true_iff in Hd as [Hc Hd]. rewrite append_cons. simpl.
    rewrite Hc. now apply IH.
Qed.

Lemma gap_no_digit (g r : string) : gap g -> starts_with_digit (g +:+ r) = false.
Proof.
  intros Hg. apply gap_cons in Hg as (s & g' & -> & Hs & _).
  rewrite append_cons. simpl. now apply isspace_not_digit.
Qed.

Lemma month_step (m r : string) :
  m ∈ months ->
  (strlen (m +:+ r) <? 3) = false
  /\ strncpy (m +:+ r) 3 = m
  /\ (parse_month m <? 0) = false
  /\ advance (m +:+ r) 3 = r.
Proof.
  unfold months. intros H.
  assert (Hl : forall a b c,
             (strlen (String a (String b (String c r))) <? 3) = false).
  { intros. unfold strlen. simpl String.length. apply Z.ltb_ge. lia. }
  repeat (apply elem_of_cons in H as [->|H];
          [split; [apply Hl | destruct r; repeat split; reflexivity]|]).
  now apply elem_of_nil in H.
Qed.

Lemma strchr_app (a b : string) (c : ascii) :
  strchr (a +:+ String c b) c = true.
Proof.
  induction a as [|x a IH]; rewrite ?append_nil, ?append_cons; simpl.
  - now rewrite Z.eqb_refl.
  - rewrite IH. now destruct (byte x =? byte c).
Qed.

Lemma strlen_nonneg (s : string) : 0 <= strlen s.
Proof. unfold strlen. lia. Qed.

Lemma strlen_append (a b : string) : strlen (a +:+ b) = strlen a + strlen b.
Proof. unfold strlen. rewrite length_append. lia. Qed.

Lemma strlen_cons (c : ascii) (s : string) : strlen (String c s) = 1 + strlen s.
Proof. unfold strlen. simpl String.length. lia. Qed.

Lemma nonempty_strlen (s : string) : s <> "" -> 1 <= strlen s.
Proof.
  destruct s; [contradiction|]. intros _. rewrite strlen_cons.
  pose proof (strlen_nonneg s). lia.
Qed.

Lemma starts_nonspace_nonempty (s : string) : starts_nonspace s = true -> s <> "".
Proof. now destruct s. Qed.

Lemma colon_no_digit (r : string) : starts_with_digit (String ":" r) = false.
Proof. reflexivity. Qed.

Lemma unix_type_cases (c : ascii) :
  c = "d"%char \/ c = "-"%char \/ c = "l"%char ->
  exists ty md, unix_type c = Some (ty, md)
    /\ (c = "d"%char -> ty = FTP_TYPE_DIR)
    /\ (c = "-"%char -> ty = FTP_TYPE_FILE)
    /\ (c = "l"%char -> ty = FTP_TYPE_LINK).
Proof.
  intros [->| [->| ->]]; eexists _, _; (split; [reflexivity|]);
    repeat split; intros; try reflexivity; discriminate.
Qed.

(** A well-formed line has at least 19 bytes. *)
Lemma unix_line_long (l : unix_line) :
  unix_line_wf l -> (strlen (unix_line_text l) <? 10) = false.
Proof.
  destruct l as [c perms links owner group sz mon day w rest
                   [[[[[[[g1 g2] g3] g4] g5] g6] g7] g8]].
  unfold unix_line_wf, unix_line_text.
  cbn [ul_type ul_perms ul_links ul_owner ul_group ul_size ul_month ul_day
       ul_when ul_rest ul_gaps].
  intros (_ & Hlinks & _ & _ & _ & _ & _ & _ & _
          & G1 & G2 & G3 & G4 & G5 & G6 & G7 & G8).
  apply Z.ltb_ge. rewrite !strlen_append, strlen_cons.
  pose proof (nonempty_strlen _ (proj2 G1)).
  pose proof (nonempty_strlen _ (proj2 G2)).
  pose proof (nonempty_strlen _ (proj2 G3)).
  pose proof (nonempty_strlen _ (proj2 G4)).
  pose proof (nonempty_strlen _ (proj2 G5)).
  pose proof (nonempty_strlen _ (proj2 G6)).
  pose proof (nonempty_strlen _ (proj2 G7)).
  pose proof (nonempty_strlen _ (proj2 G8)).
  pose proof (nonempty_strlen _ (proj2 Hlinks)).
  pose proof (strlen_nonneg perms). pose proof (strlen_nonneg owner).
  pose proof (strlen_nonneg group). pose proof (strlen_nonneg sz).
  pose proof (strlen_nonneg mon). pose proof (strlen_nonneg day).
  pose proof (strlen_nonneg (when_text w)). pose proof (strlen_nonneg rest).
  lia.
Qed.

(** The last test of both parsers: a name that starts with a byte other
    than white space is not empty. *)
Lemma name_present {A : Type} (rest : string) (reject accept : A) :
  starts_nonspace rest = true ->
  match rest with
  | EmptyString => reject
  | String _ _ => accept
  end = accept.
Proof. now destruct rest. Qed.

(** Side conditions of the field-by-field rewriting below. *)
Ltac field_side :=
  first [ assumption
        | match goal with H : token _ |- _ => apply H end
        | match goal with H : number _ |- _ => apply H end
        | match goal with H : gap _ |- _ => apply H end
        | apply token_starts; assumption
        | apply number_starts; assumption
        | apply month_starts; assumption
        | apply gap_no_digit; assumption
        | reflexivity ].

Section Unix.

Variable mktime : tm -> Z.
Variable tm_now : tm.

(** A well-formed line is accepted; its name, type, size and mode are
    read off the fields. *)
Lemma parse_unix_listing_wf (l : unix_line) (item : ftp_item_t) ty md :
  unix_line_wf l ->
  unix_type (ul_type l) = Some (ty, md) ->
  exists t,
    parse_unix_listing mktime tm_now (unix_line_text l) item
    = (0, mk_item (strncpy (cut_arrow (ul_rest l))
                           (Z.to_nat (MAX_PATH_LEN - 1)))
                  ty (fst (digits_loop wrap_off_t 0 (ul_size l))) t md).
Proof.
  intros Hwf Hty. unfold parse_unix_listing.
  rewrite (unix_line_long l Hwf). revert Hwf Hty.
  destruct l as [c perms links owner group sz mon day w rest
                   [[[[[[[g1 g2] g3] g4] g5] g6] g7] g8]].
  unfold unix_line_wf, unix_line_text.
  cbn [ul_type ul_perms ul_links ul_owner ul_group ul_size ul_month ul_day
       ul_when ul_rest ul_gaps].
  intros (Hperms & Hlinks & Howner & Hgroup & Hsz & Hmon & Hday & Hw & Hrest
          & G1 & G2 & G3 & G4 & G5 & G6 & G7 & G8) Hty.
  rewrite append_cons, Hty. cbv beta iota zeta.
  (* permissions, link count, user, group *)
  rewrite (skip_field perms g1) by field_side.
  rewrite (skip_field links g2) by field_side.
  rewrite (skip_field owner g3) by field_side.
  rewrite (skip_field group g4) by field_side.
  (* size *)
  rewrite (digits_loop_app wrap_off_t sz) by field_side.
  cbv beta iota zeta.
  rewrite (skip_spaces_gap g5) by field_side.
  (* month *)
  destruct (month_step mon
              (g6 +:+ day +:+ g7 +:+ when_text w +:+ g8 +:+ rest) Hmon)
    as (M1 & M2 & M3 & M4).
  rewrite M1, M2, M3, M4. cbv beta iota zeta.
  rewrite (skip_spaces_gap g6) by field_side.
  (* day *)
  rewrite (digits_loop_app wrap_int day) by field_side.
  cbv beta iota zeta.
  assert (Hrest' : skip_spaces (g8 +:+ rest) = rest)
    by (apply skip_spaces_gap; field_side).
  (* time or year *)
  destruct w as [hh mm | yyyy]; cbn [when_text when_wf] in *.
  - destruct Hw as [Hhh Hmm].
    rewrite (skip_spaces_gap g7) by (rewrite ?append_assoc; field_side).
    rewrite !append_assoc.
    change (":" +:+ mm +:+ g8 +:+ rest) with (String ":" (mm +:+ g8 +:+ rest)).
    rewrite strchr_app.
    rewrite (digits_loop_app wrap_int hh) by field_side.
    cbv beta iota zeta. rewrite Z.eqb_refl.
    rewrite (digits_loop_app wrap_int mm) by field_side.
    cbv beta iota zeta. rewrite Hrest', name_present by exact Hrest.
    eexists. reflexivity.
  - rewrite (skip_spaces_gap g7) by field_side.
    destruct (strchr (yyyy +:+ g8 +:+ rest) ":").
    + (* a colon further right, in the name: the year is read as an hour *)
      rewrite (digits_loop_app wrap_int yyyy) by field_side.
      cbv beta iota zeta.
      destruct (gap_cons g8 G8) as (s & g8' & E & Hs & Hg8').
      rewrite E in *. rewrite append_cons in *.
      assert (Hcolon : (byte s =? byte ":") = false).
      { apply Z.eqb_neq. intros Hb. apply byte_inj in Hb. now subst s. }
      rewrite Hcolon.
      assert (Hd : digits_loop wrap_int 0 (String s (g8' +:+ rest))
                   = (0, String s (g8' +:+ rest))).
      { simpl. now rewrite (isspace_not_digit s Hs). }
      rewrite Hd. cbv beta iota zeta.
      rewrite Hrest', name_present by exact Hrest.
      eexists. reflexivity.
    + rewrite (digits_loop_app wrap_int yyyy) by field_side.
      cbv beta iota zeta. rewrite Hrest', name_present by exact Hrest.
      eexists. reflexivity.
Qed.

End Unix.

Lemma strstr_first (needle s pre post : string) :
  s = pre +:+ needle +:+ post ->
  (forall pre' post', s = pre' +:+ needle +:+ post' ->
                      (String.length pre <= String.length pre')%nat) ->
  strstr s needle = Some (String.length pre).
Proof.
  revert s. induction pre as [|c pre IH]; intros s Hs Hmin.
  - rewrite append_nil in Hs. destruct s as [|x s]; simpl.
    + assert (H0 : strncmp "" needle (String.length needle) = 0)
        by (apply strncmp_prefix; now exists post).
      now rewrite H0.
    + assert (H0 : strncmp (String x s) needle (String.length needle) = 0)
        by (apply strncmp_prefix; now exists post).
      now rewrite H0.
  - rewrite append_cons in Hs. subst s. simpl strstr.
    destruct (Z.eqb_spec
                (strncmp (String c (pre +:+ needle +:+ post)) needle
                         (String.length needle)) 0) as [E|E].
    + apply strncmp_prefix in E as [r Hr].
      specialize (Hmin "" r). rewrite append_nil in Hmin.
      specialize (Hmin Hr). simpl in Hmin. lia.
    + rewrite (IH (pre +:+ needle +:+ post)); [reflexivity|reflexivity|].
      intros pre' post' H'.
      specialize (Hmin (String c pre') post').
      rewrite append_cons, <- H' in Hmin. specialize (Hmin eq_refl).
      simpl in Hmin. lia.
Qed.

Lemma strstr_none (needle s : string) :
  (forall pre post, s <> pre +:+ needle +:+ post) -> strstr s needle = None.
Proof.
  induction s as [|c s IH]; intros H.
  - simpl. destruct (Z.eqb_spec (strncmp "" needle (String.length needle)) 0)
      as [E|E]; [|reflexivity].
    apply strncmp_prefix in E as [r Hr]. now elim (H "" r).
  - simpl strstr.
    destruct (Z.eqb_spec
                (strncmp (String c s) needle (String.length needle)) 0) as [E|E].
    + apply strncmp_prefix in E as [r Hr]. now elim (H "" r).
    + rewrite IH; [reflexivity|].
      intros pre post Hs. apply (H (String c pre) post).
      rewrite append_cons. now rewrite Hs.
Qed.

Lemma cut_arrow_first (rest pre post : string) :
  first_arrow rest pre post -> cut_arrow rest = pre.
Proof.
  intros [Hs Hmin]. unfold cut_arrow.
  rewrite (strstr_first " -> " rest pre post Hs Hmin).
  rewrite Hs. apply strncpy_app.
Qed.

Lemma cut_arrow_none (rest : string) : no_arrow rest -> cut_arrow rest = rest.
Proof.
  intros H. unfold cut_arrow. now rewrite strstr_none.
Qed.

(** C10. For every well-formed line of the Unix dialect, whatever its
    type byte ([d], [-] or [l]), the parser succeeds and the name it stores
    is the text of the name field before the first [" -> "] (cut to the
    size of the name buffer); without [" -> "] it is the whole field.  A
    regular file or a directory whose name contains [" -> "] thus loses
    everything from that substring on, exactly as a symbolic link does. *)
Theorem unix_name_cut_for_every_kind (mktime : tm -> Z) (tm_now : tm)
  (l : unix_line) (item : ftp_item_t) :
  unix_line_wf l ->
  ul_type l = "d"%char \/ ul_type l = "-"%char \/ ul_type l = "l"%char ->
  let r := parse_unix_listing mktime tm_now (unix_line_text l) item in
  let n := Z.to_nat (MAX_PATH_LEN - 1) in
  fst r = 0
  /\ (ul_type l = "d"%char -> type (snd r) = FTP_TYPE_DIR)
  /\ (ul_type l = "-"%char -> type (snd r) = FTP_TYPE_FILE)
  /\ (ul_type l = "l"%char -> type (snd r) = FTP_TYPE_LINK)
  /\ (forall pre post,
        first_arrow (ul_rest l) pre post -> name (snd r) = strncpy pre n)
  /\ (no_arrow (ul_rest l) -> name (snd r) = strncpy (ul_rest l) n).
Proof.
  intros Hwf Hc r n.
  destruct (unix_type_cases _ Hc) as (ty & md & Hty & Hd & Hf & Hl).
  destruct (parse_unix_listing_wf mktime tm_now l item ty md Hwf Hty) as [t Hp].
  unfold r. rewrite Hp. cbn [fst snd type name].
  split; [reflexivity|]. do 3 (split; [assumption|]). split.
  - intros pre post Ha. now rewrite (cut_arrow_first _ _ _ Ha).
  - intros Hn. now rewrite cut_arrow_none.
Qed.

Lemma unix_name_cut_for_every_kind_witness :
  let r := parse_unix_listing mktime_utc tm_2026
             (unix_line_text file_with_arrow) zero_item in
  let n := Z.to_nat (MAX_PATH_LEN - 1) in
  fst r = 0
  /\ (ul_type file_with_arrow = "d"%char -> type (snd r) = FTP_TYPE_DIR)
  /\ (ul_type file_with_arrow = "-"%char -> type (snd r) = FTP_TYPE_FILE)
  /\ (ul_type file_with_arrow = "l"%char -> type (snd r) = FTP_TYPE_LINK)
  /\ (forall pre post,
        first_arrow (ul_rest file_with_arrow) pre post ->
        name (snd r) = strncpy pre n)
  /\ (no_arrow (ul_rest file_with_arrow) ->
      name (snd r) = strncpy (ul_rest file_with_arrow) n).
Proof.
  apply (unix_name_cut_for_every_kind mktime_utc tm_2026 file_with_arrow
                                      zero_item).
  - repeat split; try reflexivity; try discriminate.
    constructor.
  - right. left. reflexivity.
Defined.

(** The symbolic link of the specification, and a directory whose name
    holds the arrow: both keep the part before it. *)
Example link_and_directory_with_arrow :
  let parse := parse_unix_listing mktime_utc tm_2026 in
  let link := parse "lrwxrwxrwx 1 u g 7 Jan 1 12:00 foo -> bar/baz" zero_item in
  let dir := parse "drwxr-xr-x 2 u g 4096 Jan  1 12:00 a -> b" zero_item in
  fst link = 0 /\ name (snd link) = "foo" /\ type (snd link) = FTP_TYPE_LINK
  /\ fst dir = 0 /\ name (snd dir) = "a" /\ type (snd dir) = FTP_TYPE_DIR.
Proof. vm_compute. repeat split. Qed.

(** A regular file named ["a -> b"] is listed as ["a"]. *)
Example file_with_arrow_parsed :
  unix_line_text file_with_arrow = "-rw-r--r-- 1 u g 7 Jan 1 2023 a -> b"
  /\ first_arrow (ul_rest file_with_arrow) "a" "b"
  /\ parse_unix_listing mktime_utc tm_2026 (unix_line_text file_with_arrow)
                        zero_item
     = (0, mk_item "a" FTP_TYPE_FILE 7 1672531200 (Z.lor S_IFREG perm_0644)).
Proof.
  split; [reflexivity|]. split; [|reflexivity].
  split; [reflexivity|].
  intros pre' post' H. destruct pre' as [|c pre']; [discriminate H|].
  simpl. lia.
Qed.

(** ** The parser: well-formed Windows lines *)

(** Push [+:+] through literal prefixes. *)
Ltac norm_append := repeat (rewrite append_cons || rewrite append_nil).

Lemma two_digits_inv (d : string) :
  two_digits d ->
  exists a b, d = String a (String b "")
              /\ isdigit a = true /\ isdigit b = true.
Proof.
  intros [Hl Hd]. destruct d as [|a [|b [|c d]]]; try discriminate.
  simpl in Hd. apply andb_true_iff in Hd as [Ha Hb].
  apply andb_true_iff in Hb as [Hb _]. now exists a, b.
Qed.

Lemma isdigit_not_sign (c : ascii) :
  isdigit c = true -> (byte c =? byte "-") || (byte c =? byte "+") = false.
Proof.
  unfold isdigit. intros H. apply andb_true_iff in H as [H1 H2].
  apply Z.leb_le in H1, H2.
  change (byte "-") with 45. change (byte "+") with 43.
  apply orb_false_iff. split; apply Z.eqb_neq; lia.
Qed.

Lemma scan_d_two (a b : ascii) (r : string) :
  isdigit a = true -> isdigit b = true ->
  scan_d 2 (String a (String b r))
  = Some (decimal (String a (String b "")), r).
Proof.
  intros Ha Hb. unfold scan_d.
  rewrite skip_spaces_nonspace by (now apply isdigit_not_space).
  rewrite (isdigit_not_sign a Ha), Ha. simpl. rewrite Ha, Hb.
  unfold decimal. simpl. now destruct r.
Qed.

Lemma two_digits_range (d : string) : two_digits d -> 0 <= decimal d <= 99.
Proof.
  intros H. apply two_digits_inv in H as (a & b & -> & Ha & Hb).
  unfold decimal. simpl. unfold isdigit in *.
  apply andb_true_iff in Ha as [A1 A2]. apply andb_true_iff in Hb as [B1 B2].
  apply Z.leb_le in A1, A2, B1, B2. lia.
Qed.

Lemma sscanf_date_two (mm dd yy r : string) :
  two_digits mm -> two_digits dd -> two_digits yy ->
  sscanf_date (mm +:+ "-" +:+ dd +:+ "-" +:+ yy +:+ r)
  = Some (decimal mm, decimal dd, decimal yy)
  /\ advance (mm +:+ "-" +:+ dd +:+ "-" +:+ yy +:+ r) 8 = r.
Proof.
  intros Hm Hd Hy.
  apply two_digits_inv in Hm as (m1 & m2 & -> & Hm1 & Hm2).
  apply two_digits_inv in Hd as (d1 & d2 & -> & Hd1 & Hd2).
  apply two_digits_inv in Hy as (y1 & y2 & -> & Hy1 & Hy2).
  norm_append.
  split; [|reflexivity].
  unfold sscanf_date.
  rewrite (scan_d_two m1 m2) by assumption. rewrite Z.eqb_refl.
  rewrite (scan_d_two d1 d2) by assumption. rewrite Z.eqb_refl.
  now rewrite (scan_d_two y1 y2) by assumption.
Qed.

Lemma scan_s_two (m r : string) :
  two_bytes m -> scan_s 2 (m +:+ r) = Some m.
Proof.
  intros [Hl Hn]. destruct m as [|a [|b [|c m]]]; try discriminate.
  simpl in Hn. apply andb_true_iff in Hn as [Ha Hb].
  apply andb_true_iff in Hb as [Hb _].
  apply negb_true_iff in Ha, Hb.
  norm_append. unfold scan_s.
  rewrite skip_spaces_nonspace by exact Ha.
  simpl. now rewrite Ha, Hb.
Qed.

Lemma sscanf_time_two (hh mi m r : string) (hour0 min0 : Z) :
  two_digits hh -> two_digits mi -> two_bytes m ->
  sscanf_time (hh +:+ ":" +:+ mi +:+ m +:+ r) hour0 min0
  = (3, decimal hh, decimal mi, m).
Proof.
  intros Hh Hm Hb.
  apply two_digits_inv in Hh as (h1 & h2 & -> & Hh1 & Hh2).
  apply two_digits_inv in Hm as (m1 & m2 & -> & Hm1 & Hm2).
  norm_append.
  unfold sscanf_time.
  rewrite (scan_d_two h1 h2) by assumption. rewrite Z.eqb_refl.
  rewrite (scan_d_two m1 m2) by assumption.
  now rewrite scan_s_two.
Qed.

Lemma all_nonspace_app (a b : string) :
  all_nonspace a = true -> all_nonspace b = true ->
  all_nonspace (a +:+ b) = true.
Proof.
  intros Ha Hb. induction a as [|c a IH]; [exact Hb|].
  rewrite append_cons. simpl in *.
  apply andb_true_iff in Ha as [Hc Ha]. now rewrite Hc, IH.
Qed.

Lemma all_digits_nonspace (d : string) :
  all_digits d = true -> all_nonspace d = true.
Proof.
  induction d as [|c d IH]; [reflexivity|]. simpl. intros H.
  apply andb_true_iff in H as [Hc Hd].
  now rewrite (isdigit_not_space c Hc), IH.
Qed.

Lemma tolower_inv (a : ascii) (n : Z) :
  tolower a = n -> byte a = n \/ byte a = n - 32.
Proof. unfold tolower. destruct (isupper a); lia. Qed.

Lemma strcasecmp_two (m : string) (U L u l : ascii) :
  tolower U = byte u -> tolower u = byte u ->
  tolower L = byte l -> tolower l = byte l ->
  byte U = byte u - 32 -> byte L = byte l - 32 ->
  strcasecmp m (String U (String L "")) = 0
  <-> m ∈ [String U (String L ""); String U (String l "");
           String u (String L ""); String u (String l "")].
Proof.
  intros HU Hu HL Hl HUu HLl. split.
  - destruct m as [|a [|b [|c m]]]; simpl; try discriminate.
    + now destruct (tolower a =? tolower U), (tolower a <? tolower U).
    + destruct (Z.eqb_spec (tolower a) (tolower U)) as [Ea|Ea];
        [|now destruct (tolower a <? tolower U)].
      destruct (Z.eqb_spec (tolower b) (tolower L)) as [Eb|Eb];
        [|now destruct (tolower b <? tolower L)].
      intros _. rewrite HU in Ea. rewrite HL in Eb.
      apply tolower_inv in Ea, Eb.
      assert (Ha : a = u \/ a = U)
        by (destruct Ea as [E|E]; [left|right]; apply byte_inj; lia).
      assert (Hb : b = l \/ b = L)
        by (destruct Eb as [E|E]; [left|right]; apply byte_inj; lia).
      destruct Ha as [->| ->], Hb as [->| ->]; repeat constructor.
    + destruct (tolower a =? tolower U), (tolower a <? tolower U);
        try discriminate;
        destruct (tolower b =? tolower L), (tolower b <? tolower L);
        discriminate.
  - intros H.
    repeat (apply elem_of_cons in H as [->|H];
            [simpl; rewrite ?HU, ?Hu, ?HL, ?Hl, ?Z.eqb_refl; reflexivity|]).
    now apply elem_of_nil in H.
Qed.

Lemma strcasecmp_PM (m : string) : strcasecmp m "PM" = 0 <-> m ∈ pm_markers.
Proof. apply (strcasecmp_two m "P" "M" "p" "m"); reflexivity. Qed.

Lemma strcasecmp_AM (m : string) : strcasecmp m "AM" = 0 <-> m ∈ am_markers.
Proof. apply (strcasecmp_two m "A" "M" "a" "m"); reflexivity. Qed.

Lemma markers_disjoint (m : string) : m ∈ pm_markers -> m ∈ am_markers -> False.
Proof.
  unfold pm_markers, am_markers. intros H1 H2.
  repeat (apply elem_of_cons in H1 as [->|H1];
          [repeat (apply elem_of_cons in H2 as [H2|H2]; [discriminate|]);
           now apply elem_of_nil in H2|]).
  now apply elem_of_nil in H1.
Qed.

Lemma adjust_hour_spec (m : string) (h : Z) :
  (m ∈ pm_markers -> adjust_hour m h = if h =? 12 then 12 else h + 12)
  /\ (m ∈ am_markers -> adjust_hour m h = if h =? 12 then 0 else h)
  /\ (m ∉ pm_markers -> m ∉ am_markers -> adjust_hour m h = h).
Proof.
  unfold adjust_hour. repeat split.
  - intros Hp. apply strcasecmp_PM in Hp. rewrite Hp. simpl.
    destruct (Z.eqb_spec h 12) as [->|]; simpl; [|reflexivity].
    destruct (strcasecmp m "AM" =? 0) eqn:E; [|reflexivity].
    apply Z.eqb_eq, strcasecmp_AM in E. apply strcasecmp_PM in Hp.
    now elim (markers_disjoint m).
  - intros Ha.
    destruct (strcasecmp m "PM" =? 0) eqn:E.
    + apply Z.eqb_eq, strcasecmp_PM in E. now elim (markers_disjoint m).
    + apply strcasecmp_AM in Ha. rewrite Ha. simpl.
      now destruct (h =? 12).
  - intros Hp Ha.
    destruct (strcasecmp m "PM" =? 0) eqn:E1.
    { apply Z.eqb_eq, strcasecmp_PM in E1. contradiction. }
    destruct (strcasecmp m "AM" =? 0) eqn:E2.
    { apply Z.eqb_eq, strcasecmp_AM in E2. contradiction. }
    reflexivity.
Qed.

Lemma adjust_year_spec (y : Z) :
  (y < 50 -> adjust_year y = 2000 + y)
  /\ (50 <= y < 100 -> adjust_year y = 1900 + y).
Proof.
  unfold adjust_year. split; intros H.
  - destruct (Z.ltb_spec y 50); lia.
  - destruct (Z.ltb_spec y 50); [lia|]. destruct (Z.ltb_spec y 100); lia.
Qed.

Lemma isdigit_value (c : ascii) : isdigit c = true -> 0 <= byte c - 48 <= 9.
Proof.
  unfold isdigit. intros H. apply andb_true_iff in H as [H1 H2].
  apply Z.leb_le in H1, H2. lia.
Qed.

Lemma decimal_from_mono (d : string) :
  all_digits d = true -> forall acc, 0 <= acc -> acc <= decimal_from acc d.
Proof.
  induction d as [|c d IH]; simpl; intros H acc Hacc; [lia|].
  apply andb_true_iff in H as [Hc Hd]. apply isdigit_value in Hc.
  specialize (IH Hd (acc * 10 + (byte c - 48)) ltac:(lia)). lia.
Qed.

(** Below the range of [off_t] the size loop computes the decimal value. *)
Lemma digits_loop_decimal (d : string) :
  all_digits d = true ->
  forall acc, 0 <= acc -> decimal_from acc d < 2 ^ 63 ->
  fst (digits_loop wrap_off_t acc d) = decimal_from acc d.
Proof.
  induction d as [|c d IH]; simpl; intros H acc Hacc Hb; [reflexivity|].
  apply andb_true_iff in H as [Hc Hd]. rewrite Hc.
  pose proof (isdigit_value c Hc) as Hv.
  pose proof (decimal_from_mono d Hd (acc * 10 + (byte c - 48)) ltac:(lia)).
  rewrite wrap_off_t_id by lia. apply IH; [exact Hd | lia | exact Hb].
Qed.

Lemma number_not_dir (d r : string) :
  number d -> (strncasecmp (d +:+ r) "<DIR>" 5 =? 0) = false.
Proof.
  intros [Hd Hne]. destruct d as [|c d]; [contradiction|].
  simpl in Hd. apply andb_true_iff in Hd as [Hc _].
  rewrite append_cons. simpl.
  assert (Hl : tolower c = byte c).
  { unfold tolower, isupper. unfold isdigit in Hc.
    apply andb_true_iff in Hc as [H1 H2]. apply Z.leb_le in H1, H2.
    destruct (Z.leb_spec 65 (byte c)); [lia | reflexivity]. }
  apply isdigit_value in Hc. rewrite Hl.
  change (tolower "<") with 60.
  destruct (Z.eqb_spec (byte c) 60); [lia|].
  now destruct (byte c <? 60).
Qed.

Lemma two_digits_number (d : string) : two_digits d -> number d.
Proof.
  intros [Hl Hd]. split; [exact Hd|]. intros ->. discriminate.
Qed.

Lemma two_digits_strlen (d : string) : two_digits d -> strlen d = 2.
Proof. intros [Hl _]. unfold strlen. now rewrite Hl. Qed.

Lemma two_bytes_strlen (m : string) : two_bytes m -> strlen m = 2.
Proof. intros [Hl _]. unfold strlen. now rewrite Hl. Qed.

Lemma win_size_starts (s : win_size) (r : string) :
  win_size_wf s -> starts_nonspace (win_size_text s +:+ r) = true.
Proof.
  destruct s as [|d]; simpl; [reflexivity|]. apply number_starts.
Qed.

Section Windows.
Variable mktime : tm -> Z.
Variables hour0 min0 : Z.

(** C8. For every well-formed line of the Windows dialect the parser
    succeeds, and with [y] the two-digit year and [h] the hour of the line:
    the year handed to [mktime] is [2000 + y] when [y < 50] and [1900 + y]
    when [50 <= y] (and [y < 100] always); the hour is 12 for hour 12 with
    a PM marker and [h + 12] for any other hour with PM, 0 for hour 12 with
    an AM marker and [h] otherwise, the marker being read in either case of
    either letter; a [<DIR>] column yields a directory of size 0, and a
    decimal column yields a file of that size. *)
Theorem windows_line_fields (l : win_line) (item : ftp_item_t) :
  win_line_wf l ->
  let r := parse_windows_listing mktime hour0 min0 (win_line_text l) item in
  let y := decimal (wl_year l) in
  let h := decimal (wl_hour l) in
  exists Y H ty sz md,
    r = (0, mk_item (rstrip (strncpy (wl_name l) (Z.to_nat (MAX_PATH_LEN - 1))))
                    ty sz
                    (mktime (mk_tm 0 (decimal (wl_min l)) H
                                   (decimal (wl_day l))
                                   (decimal (wl_month l) - 1) (Y - 1900)))
                    md)
    /\ 0 <= y < 100
    /\ (y < 50 -> Y = 2000 + y)
    /\ (50 <= y -> Y = 1900 + y)
    /\ (wl_ampm l ∈ pm_markers -> H = if h =? 12 then 12 else h + 12)
    /\ (wl_ampm l ∈ am_markers -> H = if h =? 12 then 0 else h)
    /\ (wl_ampm l ∉ pm_markers -> wl_ampm l ∉ am_markers -> H = h)
    /\ match wl_size l with
       | WinDir =>
           ty = FTP_TYPE_DIR /\ sz = 0 /\ md = Z.lor S_IFDIR perm_0755
       | WinSize d =>
           ty = FTP_TYPE_FILE /\ md = Z.lor S_IFREG perm_0644
           /\ (decimal d < 2 ^ 63 -> sz = decimal d)
       end.
Proof.
  destruct l as [mm dd yy hh mi m s nm [[g1 g2] g3]].
  unfold win_line_wf, win_line_text.
  cbn [wl_month wl_day wl_year wl_hour wl_min wl_ampm wl_size wl_name wl_gaps].
  intros (Hmm & Hdd & Hyy & Hhh & Hmi & Hm & Hs & Hnm & G1 & G2 & G3).
  cbv zeta.
  pose proof (two_digits_range yy Hyy) as Hy.
  destruct (adjust_year_spec (decimal yy)) as [Y1 Y2].
  destruct (adjust_hour_spec m (decimal hh)) as (H1 & H2 & H3).
  exists (adjust_year (decimal yy)), (adjust_hour m (decimal hh)).
  unfold parse_windows_listing.
  assert (Hlen : (strlen (mm +:+ "-" +:+ dd +:+ "-" +:+ yy +:+ g1 +:+ hh +:+ ":"
                          +:+ mi +:+ m +:+ g2 +:+ win_size_text s +:+ g3 +:+ nm)
                  <? 20) = false).
  { apply Z.ltb_ge. rewrite !strlen_append.
    rewrite (two_digits_strlen mm), (two_digits_strlen dd),
      (two_digits_strlen yy), (two_digits_strlen hh),
      (two_digits_strlen mi), (two_bytes_strlen m) by assumption.
    change (strlen "-") with 1. change (strlen ":") with 1.
    pose proof (nonempty_strlen _ (proj2 G1)).
    pose proof (nonempty_strlen _ (proj2 G2)).
    pose proof (nonempty_strlen _ (proj2 G3)).
    pose proof (nonempty_strlen _ (starts_nonspace_nonempty _ Hnm)).
    assert (1 <= strlen (win_size_text s)).
    { apply nonempty_strlen. destruct s; [discriminate | apply Hs]. }
    lia. }
  rewrite Hlen.
  destruct (sscanf_date_two mm dd yy
              (g1 +:+ hh +:+ ":" +:+ mi +:+ m +:+ g2 +:+ win_size_text s
               +:+ g3 +:+ nm) Hmm Hdd Hyy) as [D1 D2].
  rewrite D1, D2.
  rewrite (skip_spaces_gap g1)
    by (try apply G1; apply number_starts; now apply two_digits_number).
  rewrite (sscanf_time_two hh mi m) by assumption.
  change (3 >=? 2) with true. cbv beta iota zeta.
  assert (Htok : all_nonspace (hh +:+ ":" +:+ mi +:+ m) = true).
  { apply all_nonspace_app; [apply all_digits_nonspace, Hhh|].
    apply all_nonspace_app; [reflexivity|].
    apply all_nonspace_app; [apply all_digits_nonspace, Hmi | apply Hm]. }
  replace (hh +:+ ":" +:+ mi +:+ m +:+ g2 +:+ win_size_text s +:+ g3 +:+ nm)
    with ((hh +:+ ":" +:+ mi +:+ m) +:+ g2 +:+ win_size_text s +:+ g3 +:+ nm)
    by (now rewrite !append_assoc).
  rewrite (skip_field _ g2) by (try assumption; now apply win_size_starts).
  destruct s as [|d]; cbn [win_size_text win_size_wf] in *.
  - change (strncasecmp ("<DIR>" +:+ g3 +:+ nm) "<DIR>" 5 =? 0) with true.
    change (advance ("<DIR>" +:+ g3 +:+ nm) 5) with (g3 +:+ nm).
    cbv beta iota zeta.
    rewrite (skip_spaces_gap g3) by field_side.
    rewrite name_present by exact Hnm.
    eexists _, _, _. split; [reflexivity|].
    repeat split; try assumption; lia.
  - rewrite (number_not_dir d) by exact Hs.
    rewrite (digits_loop_app wrap_off_t d) by field_side.
    cbv beta iota zeta.
    rewrite (skip_spaces_gap g3) by field_side.
    rewrite name_present by exact Hnm.
    eexists _, _, _. split; [reflexivity|].
    repeat split; try assumption; try lia.
    intros Hd. apply digits_loop_decimal; [apply Hs | lia | exact Hd].
Qed.

End Windows.

Lemma windows_line_fields_witness :
  let l := win_file_line in
  let r := parse_windows_listing mktime_utc 0 0 (win_line_text l) zero_item in
  let y := decimal (wl_year l) in
  let h := decimal (wl_hour l) in
  exists Y H ty sz md,
    r = (0, mk_item (rstrip (strncpy (wl_name l) (Z.to_nat (MAX_PATH_LEN - 1))))
                    ty sz
                    (mktime_utc (mk_tm 0 (decimal (wl_min l)) H
                                       (decimal (wl_day l))
                                       (decimal (wl_month l) - 1) (Y - 1900)))
                    md)
    /\ 0 <= y < 100
    /\ (y < 50 -> Y = 2000 + y)
    /\ (50 <= y -> Y = 1900 + y)
    /\ (wl_ampm l ∈ pm_markers -> H = if h =? 12 then 12 else h + 12)
    /\ (wl_ampm l ∈ am_markers -> H = if h =? 12 then 0 else h)
    /\ (wl_ampm l ∉ pm_markers -> wl_ampm l ∉ am_markers -> H = h)
    /\ match wl_size l with
       | WinDir =>
           ty = FTP_TYPE_DIR /\ sz = 0 /\ md = Z.lor S_IFDIR perm_0755
       | WinSize d =>
           ty = FTP_TYPE_FILE /\ md = Z.lor S_IFREG perm_0644
           /\ (decimal d < 2 ^ 63 -> sz = decimal d)
       end.
Proof.
  apply (windows_line_fields mktime_utc 0 0 win_file_line zero_item).
  repeat split; try reflexivity; discriminate.
Defined.

(** The two lines of the comment in the source. *)
Example win_file_line_parsed :
  win_line_text win_file_line
  = "01-01-99  12:05am                1234         file.txt"
  /\ parse_windows_listing mktime_utc 0 0 (win_line_text win_file_line) zero_item
     = (0, mk_item "file.txt" FTP_TYPE_FILE 1234
                   (mktime_utc (mk_tm 0 5 0 1 0 99))
                   (Z.lor S_IFREG perm_0644)).
Proof. split; reflexivity. Qed.

Example win_dir_line_parsed :
  win_line_text win_dir_line
  = "01-01-24  12:00PM              <DIR>          name"
  /\ parse_windows_listing mktime_utc 0 0 (win_line_text win_dir_line) zero_item
     = (0, mk_item "name" FTP_TYPE_DIR 0
                   (mktime_utc (mk_tm 0 0 12 1 0 124))
                   (Z.lor S_IFDIR perm_0755)).
Proof. split; reflexivity. Qed.

(** A date with a four-digit year is not a well-formed line in the sense
    above: the date is read as [01-01-20], the columns that follow are
    looked for two bytes too early, and the minute is whatever the local
    variable held (here 8). *)
Example four_digit_year_line :
  parse_windows_listing mktime_utc 7 8
    "01-01-2024  12:00PM       <DIR>          name" zero_item
  = (0, mk_item ":00PM       <DIR>          name" FTP_TYPE_FILE 12
                (mktime_utc (mk_tm 0 8 24 1 0 120))
                (Z.lor S_IFREG perm_0644)).
Proof. reflexivity. Qed.

(* ===================================================================== *)
(** * Part III: further properties of the code                            *)
(* ===================================================================== *)

(** ** The cache: invariants and frame properties *)

Lemma remove_first_sublist (p : string) (l : list cache_entry_t) :
  remove_first p l `sublist_of` l.
Proof.
  induction l as [|x l IH]; simpl; [constructor|].
  destruct (strcmp (ce_path x) p =? 0); [now constructor|now constructor].
Qed.

Lemma remove_first_no_key (p : string) (l : list cache_entry_t) :
  NoDup (ce_path <$> l) -> p ∉ (ce_path <$> remove_first p l).
Proof.
  induction l as [|x l IH]; simpl; intros Hnd.
  - apply not_elem_of_nil.
  - apply NoDup_cons in Hnd as [Hx Hnd].
    destruct (Z.eqb_spec (strcmp (ce_path x) p) 0) as [E|E].
    + apply strcmp_0_iff in E. now rewrite <- E.
    + simpl. apply not_elem_of_cons. split; [|now apply IH].
      intros ->. apply E. apply strcmp_refl.
Qed.

Lemma get_loop_sublist (T now : Z) (p : string) (l : list cache_entry_t) :
  snd (get_loop T now p l) `sublist_of` l.
Proof.
  induction l as [|x l IH]; simpl; [constructor|].
  destruct (strcmp (ce_path x) p =? 0).
  - destruct (now - ce_timestamp x >? T); simpl; [now constructor|reflexivity].
  - destruct (get_loop T now p l) as [r l']. simpl in *. now constructor.
Qed.

Lemma cache_get_cache (ctx : cftpfs_context_t) (p : string) (now : Z) :
  exists T,
    dir_cache (snd (cache_get ctx p now))
    = snd (get_loop T now p (dir_cache ctx))
    /\ fst (cache_get ctx p now) = fst (get_loop T now p (dir_cache ctx)).
Proof.
  unfold cache_get.
  exists (if cache_timeout ctx >? 0 then cache_timeout ctx
          else CACHE_TIMEOUT_DEFAULT).
  now destruct (get_loop _ now p (dir_cache ctx)).
Qed.

(** X1. The keys of the cache stay pairwise distinct: from a cache
    without duplicate keys, [cache_put] of a path that fits the key
    buffer, [cache_get] and [cache_invalidate] each leave a cache without
    duplicate keys. *)
Theorem cache_keys_stay_distinct (ctx : cftpfs_context_t) (p : string)
  (xs : list ftp_item_t) (n t now : Z) :
  NoDup (cache_keys ctx) ->
  (strlen p < MAX_PATH_LEN -> NoDup (cache_keys (cache_put ctx p xs n t)))
  /\ NoDup (cache_keys (snd (cache_get ctx p now)))
  /\ NoDup (cache_keys (cache_invalidate ctx p)).
Proof.
  unfold cache_keys. intros Hnd. split; [|split].
  - intros Hlen. unfold cache_put. simpl.
    rewrite strncpy_short by (unfold strlen, MAX_PATH_LEN in *; lia).
    apply NoDup_cons. split; [now apply remove_first_no_key|].
    eapply sublist_NoDup; [exact Hnd | apply fmap_sublist, remove_first_sublist].
  - destruct (cache_get_cache ctx p now) as (T & -> & _).
    eapply sublist_NoDup; [exact Hnd | apply fmap_sublist, get_loop_sublist].
  - simpl. eapply sublist_NoDup; [exact Hnd | apply fmap_sublist, invalidate_loop_sublist].
Qed.

Lemma cache_keys_stay_distinct_witness :
  let ctx := cache_put (fresh_context 30) "/d" [zero_item] 1 100 in
  (strlen "/d" < MAX_PATH_LEN ->
   NoDup (cache_keys (cache_put ctx "/d" [] 0 200)))
  /\ NoDup (cache_keys (snd (cache_get ctx "/d" 300)))
  /\ NoDup (cache_keys (cache_invalidate ctx "/d")).
Proof.
  apply (cache_keys_stay_distinct
           (cache_put (fresh_context 30) "/d" [zero_item] 1 100)
           "/d" [] 0 200 300).
  vm_compute. apply NoDup_singleton.
Defined.

Lemma get_loop_remove_first (T now : Z) (p q : string) (l : list cache_entry_t) :
  p <> q ->
  fst (get_loop T now q (remove_first p l)) = fst (get_loop T now q l).
Proof.
  intros Hpq. induction l as [|x l IH]; simpl; [reflexivity|].
  destruct (Z.eqb_spec (strcmp (ce_path x) p) 0) as [Ep|Ep].
  - apply strcmp_0_iff in Ep.
    assert (Hq : (strcmp (ce_path x) q =? 0) = false)
      by (apply strcmp_neqb; congruence).
    rewrite Hq. now destruct (get_loop T now q l).
  - simpl. destruct (strcmp (ce_path x) q =? 0).
    + now destruct (now - ce_timestamp x >? T).
    + destruct (get_loop T now q (remove_first p l)),
               (get_loop T now q l). simpl in *. exact IH.
Qed.

(** X2. [cache_put] changes the answer for its own key only: for a path
    [p] that fits the key buffer, what [cache_get] finds for any other
    key [q] is the same before and after the put. *)
Theorem cache_put_keeps_other_keys (ctx : cftpfs_context_t) (p q : string)
  (xs : list ftp_item_t) (n t now : Z) :
  strlen p < MAX_PATH_LEN ->
  q <> p ->
  fst (cache_get (cache_put ctx p xs n t) q now) = fst (cache_get ctx q now).
Proof.
  intros Hlen Hq. unfold cache_get.
  replace (cache_timeout (cache_put ctx p xs n t)) with (cache_timeout ctx)
    by reflexivity.
  unfold cache_put. simpl dir_cache.
  rewrite strncpy_short by (unfold strlen, MAX_PATH_LEN in *; lia).
  simpl get_loop.
  assert (Hne : (strcmp p q =? 0) = false) by (apply strcmp_neqb; congruence).
  rewrite Hne.
  pose proof (get_loop_remove_first
                (if cache_timeout ctx >? 0 then cache_timeout ctx
                 else CACHE_TIMEOUT_DEFAULT) now p q (dir_cache ctx)
                ltac:(congruence)) as H.
  destruct (get_loop _ now q (remove_first p (dir_cache ctx))),
           (get_loop _ now q (dir_cache ctx)).
  exact H.
Qed.

Lemma cache_put_keeps_other_keys_witness :
  fst (cache_get (cache_put (fresh_context 30) "/d" [zero_item] 1 100)
                 "/e" 105)
  = fst (cache_get (fresh_context 30) "/e" 105).
Proof.
  apply (cache_put_keeps_other_keys (fresh_context 30) "/d" "/e"
                                    [zero_item] 1 100 105).
  - reflexivity.
  - discriminate.
Defined.

Lemma get_loop_invalidate_other (T now : Z) (p q : string)
  (l : list cache_entry_t) :
  ~ key_has_prefix p q ->
  fst (get_loop T now q (invalidate_loop p l)) = fst (get_loop T now q l).
Proof.
  intros Hq. induction l as [|x l IH]; simpl; [reflexivity|].
  destruct (invalidated p x) eqn:Hx.
  - apply invalidated_iff in Hx.
    assert (Hne : (strcmp (ce_path x) q =? 0) = false).
    { apply strcmp_neqb. intros E. apply Hq. now rewrite <- E. }
    rewrite Hne. now destruct (get_loop T now q l).
  - simpl. destruct (strcmp (ce_path x) q =? 0).
    + now destruct (now - ce_timestamp x >? T).
    + destruct (get_loop T now q (invalidate_loop p l)),
               (get_loop T now q l). simpl in *. exact IH.
Qed.

Lemma invalidate_loop_empty_prefix (l : list cache_entry_t) :
  invalidate_loop "" l = [].
Proof.
  induction l as [|x l IH]; simpl; [reflexivity|].
  unfold invalidated. simpl. now rewrite orb_true_r.
Qed.

(** X3. After [cache_invalidate] of [p], [cache_get] misses every key
    that equals [p] or starts with it, at any time, and finds for every
    other key what it found before.  Every key starts with the empty
    string: with the empty prefix [cache_invalidate] empties the cache, as
    [cache_clear] does. *)
Theorem cache_invalidate_subtree (ctx : cftpfs_context_t) (p q : string)
  (now : Z) :
  (key_has_prefix p q ->
   fst (cache_get (cache_invalidate ctx p) q now) = None)
  /\ (~ key_has_prefix p q ->
      fst (cache_get (cache_invalidate ctx p) q now)
      = fst (cache_get ctx q now))
  /\ cache_invalidate ctx "" = cache_clear ctx.
Proof.
  split; [|split].
  - intros Hq. unfold cache_get. rewrite get_loop_absent; [reflexivity|].
    intros e He Hk. apply invalidate_loop_elem in He as [_ Hn].
    apply Hn. now rewrite Hk.
  - intros Hq. unfold cache_get.
    replace (cache_timeout (cache_invalidate ctx p)) with (cache_timeout ctx)
      by reflexivity.
    pose proof (get_loop_invalidate_other
                  (if cache_timeout ctx >? 0 then cache_timeout ctx
                   else CACHE_TIMEOUT_DEFAULT) now p q (dir_cache ctx) Hq) as H.
    simpl dir_cache.
    destruct (get_loop _ now q (invalidate_loop p (dir_cache ctx))),
             (get_loop _ now q (dir_cache ctx)).
    exact H.
  - unfold cache_invalidate, cache_clear. f_equal.
    apply invalidate_loop_empty_prefix.
Qed.

Lemma strlen_strncpy (s : string) (n : nat) :
  strlen (strncpy s n) <= Z.of_nat n.
Proof.
  unfold strlen. revert n. induction s as [|c s IH]; intros [|n]; simpl;
    try lia.
  specialize (IH n). lia.
Qed.

(** X4. Keys never outgrow the key buffer: when every key is shorter
    than [MAX_PATH_LEN], so is every key after [cache_put] (which cuts the
    path to [MAX_PATH_LEN - 1] bytes), [cache_get] and [cache_invalidate];
    a path of [MAX_PATH_LEN] bytes or more is therefore not found even
    right after it was put. *)
Theorem cache_keys_fit (ctx : cftpfs_context_t) (p : string)
  (xs : list ftp_item_t) (n t now : Z) :
  keys_fit ctx ->
  keys_fit (cache_put ctx p xs n t)
  /\ keys_fit (snd (cache_get ctx p now))
  /\ keys_fit (cache_invalidate ctx p)
  /\ (MAX_PATH_LEN <= strlen p ->
      fst (cache_get (cache_put ctx p xs n t) p now) = None).
Proof.
  unfold keys_fit, cache_keys. intros Hfit.
  assert (Hput : forall k,
             k ∈ ce_path <$> dir_cache (cache_put ctx p xs n t) ->
             strlen k < MAX_PATH_LEN).
  { intros k Hk. unfold cache_put in Hk. simpl in Hk.
    apply elem_of_cons in Hk as [->|Hk].
    - pose proof (strlen_strncpy p (Z.to_nat (MAX_PATH_LEN - 1))).
      unfold MAX_PATH_LEN in *. lia.
    - apply Hfit. eapply elem_of_sublist; [exact Hk|].
      apply fmap_sublist, remove_first_sublist. }
  split; [exact Hput|]. split; [|split].
  - intros k Hk. apply Hfit.
    destruct (cache_get_cache ctx p now) as (T & E & _). rewrite E in Hk.
    eapply elem_of_sublist; [exact Hk|].
    apply fmap_sublist, get_loop_sublist.
  - intros k Hk. apply Hfit. eapply elem_of_sublist; [exact Hk|].
    apply fmap_sublist, invalidate_loop_sublist.
  - intros Hlong. unfold cache_get. rewrite get_loop_absent; [reflexivity|].
    intros e He Hk. specialize (Hput (ce_path e)).
    rewrite Hk in Hput. 
    assert (strlen p < MAX_PATH_LEN); [|lia].
    apply Hput. apply list_elem_of_fmap. now exists e.
Qed.

Lemma cache_keys_fit_witness :
  let ctx := cache_put (fresh_context 30) "/d" [zero_item] 1 100 in
  keys_fit (cache_put ctx "/e" [] 0 200)
  /\ keys_fit (snd (cache_get ctx "/e" 300))
  /\ keys_fit (cache_invalidate ctx "/e")
  /\ (MAX_PATH_LEN <= strlen "/e" ->
      fst (cache_get (cache_put ctx "/e" [] 0 200) "/e" 300) = None).
Proof.
  apply (cache_keys_fit
           (cache_put (fresh_context 30) "/d" [zero_item] 1 100)
           "/e" [] 0 200 300).
  intros k Hk. vm_compute in Hk. apply list_elem_of_singleton in Hk.
  subst k. reflexivity.
Defined.

(** ** The handle table *)

Lemma free_slot_loop_none (slots : list (option file_handle_t)) (fuel i0 : nat) :
  (forall i, (i0 <= i < i0 + fuel)%nat -> slots !! i <> Some None) ->
  free_slot_loop slots i0 fuel = None.
Proof.
  revert i0. induction fuel as [|fuel IH]; intros i0 H; simpl; [reflexivity|].
  destruct (slots !! i0) as [[h|]|] eqn:E.
  - apply IH. intros i Hi. apply H. lia.
  - now elim (H i0 ltac:(lia)).
  - apply IH. intros i Hi. apply H. lia.
Qed.

Lemma free_slot_loop_found (slots : list (option file_handle_t))
  (fuel i0 i : nat) :
  (i0 <= i < i0 + fuel)%nat ->
  slots !! i = Some None ->
  (forall j, (i0 <= j < i)%nat -> slots !! j <> Some None) ->
  free_slot_loop slots i0 fuel = Some i.
Proof.
  revert i0. induction fuel as [|fuel IH]; intros i0 Hi Hfree Hleast; [lia|].
  simpl. destruct (Nat.eq_dec i0 i) as [->|Hne].
  - now rewrite Hfree.
  - destruct (slots !! i0) as [[h|]|] eqn:E.
    + apply IH; [lia | exact Hfree |]. intros j Hj. apply Hleast. lia.
    + now elim (Hleast i0 ltac:(lia)).
    + apply IH; [lia | exact Hfree |]. intros j Hj. apply Hleast. lia.
Qed.

Lemma live_handle_lookup (ctx : cftpfs_context_t) (fh : Z) (h : file_handle_t) :
  0 <= fh ->
  live_handle ctx fh = Some h <->
  fh < MAX_HANDLES /\ file_handles ctx !! Z.to_nat fh = Some (Some h).
Proof.
  intros Hfh. unfold live_handle.
  destruct (Z.geb_spec fh MAX_HANDLES) as [Hge|Hlt].
  - split; [discriminate | lia].
  - destruct (file_handles ctx !! Z.to_nat fh) as [[x|]|]; simpl.
    + split; intros H.
      * injection H as ->. tauto.
      * destruct H as [_ H]. now injection H as ->.
    + split; intros H; [discriminate | destruct H as [_ H]; discriminate].
    + split; intros H; [discriminate | destruct H as [_ H]; discriminate].
Qed.

(** The world a successful open leaves. *)
Lemma open_result (path : string) (fi : fuse_file_info) (temp_path : string)
  (fd : Z) (w : world) (i : nat) :
  Z.land (fi_flags fi) O_ACCMODE <> O_RDONLY ->
  0 <= fd ->
  free_slot (file_handles (g_context w)) = Some i ->
  cftpfs_open path fi temp_path fd w
  = (0, mk_fi (fi_flags fi) (Z.of_nat i),
     if creates_new (fi_flags fi) then
       open_world w i (set_is_new (new_handle path (fi_flags fi) temp_path) true)
                  []
     else
       open_world w i (new_handle path (fi_flags fi) temp_path)
                  [RETR path temp_path]).
Proof.
  intros Hacc Hfd Hfree. unfold cftpfs_open, creates_new, open_world.
  destruct (Z.eqb_spec (Z.land (fi_flags fi) O_ACCMODE) O_RDONLY) as [?|_];
    [contradiction|].
  unfold handle_create. destruct (Z.ltb_spec fd 0) as [?|_]; [lia|].
  rewrite Hfree. fold (new_handle path (fi_flags fi) temp_path).
  destruct (Z.land (fi_flags fi) O_CREAT =? 0),
           (Z.land (fi_flags fi) O_TRUNC =? 0); cbn [orb negb andb];
    unfold set_context, sent; cbn [g_context wire];
    rewrite ?app_nil_r; reflexivity.
Qed.

Lemma open_refused (path : string) (fi : fuse_file_info)
  (temp_path : string) (fd : Z) (w : world) :
  Z.land (fi_flags fi) O_ACCMODE <> O_RDONLY ->
  fd < 0 \/ table_full (g_context w) ->
  cftpfs_open path fi temp_path fd w = (- EMFILE, fi, w).
Proof.
  intros Hacc H. unfold cftpfs_open.
  destruct (Z.eqb_spec (Z.land (fi_flags fi) O_ACCMODE) O_RDONLY) as [?|_];
    [contradiction|].
  unfold handle_create. destruct (Z.ltb_spec fd 0) as [?|Hfd]; [reflexivity|].
  destruct H as [?|Hfull]; [lia|].
  unfold free_slot. rewrite free_slot_loop_none; [reflexivity|].
  intros i Hi. apply Hfull. lia.
Qed.

Lemma free_slot_least (slots : list (option file_handle_t)) (i : nat) :
  (i < Z.to_nat MAX_HANDLES)%nat ->
  slots !! i = Some None ->
  (forall j, (j < i)%nat -> slots !! j <> Some None) ->
  free_slot slots = Some i.
Proof.
  intros Hi Hfree Hleast. unfold free_slot.
  apply free_slot_loop_found; [lia | exact Hfree |].
  intros j Hj. apply Hleast. lia.
Qed.

(** X5. An open that is not read-only fails with -EMFILE, changing
    nothing and sending nothing, when the spill file cannot be created or
    all [MAX_HANDLES] slots are taken; otherwise it succeeds and the
    handle number is the lowest free slot. *)
Theorem open_capacity (path : string) (fi : fuse_file_info)
  (temp_path : string) (fd : Z) (w : world) :
  Z.land (fi_flags fi) O_ACCMODE <> O_RDONLY ->
  (fd < 0 \/ table_full (g_context w) ->
   cftpfs_open path fi temp_path fd w = (- EMFILE, fi, w))
  /\ (0 <= fd ->
      forall i : nat,
        (i < Z.to_nat MAX_HANDLES)%nat ->
        file_handles (g_context w) !! i = Some None ->
        (forall j, (j < i)%nat -> file_handles (g_context w) !! j <> Some None) ->
        fst (fst (cftpfs_open path fi temp_path fd w)) = 0
        /\ fi_fh (snd (fst (cftpfs_open path fi temp_path fd w))) = Z.of_nat i).
Proof.
  intros Hacc. split; [now apply open_refused|].
  intros Hfd i Hi Hfree Hleast.
  rewrite (open_result path fi temp_path fd w i Hacc Hfd
             (free_slot_least _ i Hi Hfree Hleast)).
  auto.
Qed.

Lemma open_capacity_witness :
  let fi := mk_fi O_WRONLY 0 in
  let w := fresh_world 30 in
  (3 < 0 \/ table_full (g_context w) ->
   cftpfs_open "/f" fi "/tmp/s" 3 w = (- EMFILE, fi, w))
  /\ (0 <= 3 ->
      forall i : nat,
        (i < Z.to_nat MAX_HANDLES)%nat ->
        file_handles (g_context w) !! i = Some None ->
        (forall j, (j < i)%nat -> file_handles (g_context w) !! j <> Some None) ->
        fst (fst (cftpfs_open "/f" fi "/tmp/s" 3 w)) = 0
        /\ fi_fh (snd (fst (cftpfs_open "/f" fi "/tmp/s" 3 w))) = Z.of_nat i).
Proof.
  apply (open_capacity "/f" (mk_fi O_WRONLY 0) "/tmp/s" 3 (fresh_world 30)).
  vm_compute. discriminate.
Defined.

Lemma invalidate_parent_handles (ctx : cftpfs_context_t) (path : string) :
  file_handles (invalidate_parent ctx path) = file_handles ctx.
Proof.
  unfold invalidate_parent. now destruct (strrchr path "/") as [[|i]|].
Qed.

Lemma handle_release_live (ctx : cftpfs_context_t) (fh : Z) (h : file_handle_t) :
  0 <= fh ->
  live_handle ctx fh = Some h ->
  file_handles (handle_release ctx fh)
  = <[Z.to_nat fh := None]> (file_handles ctx).
Proof.
  intros Hfh Hlive. apply live_handle_lookup in Hlive as [Hlt Hl]; [|exact Hfh].
  unfold handle_release.
  destruct (Z.ltb_spec fh 0) as [?|_]; [lia|].
  destruct (Z.geb_spec fh MAX_HANDLES) as [?|_]; [lia|].
  simpl. now rewrite Hl.
Qed.

Lemma release_handles (path : string) (fi : fuse_file_info) (w : world)
  (h : file_handle_t) :
  0 <= fi_fh fi ->
  live_handle (g_context w) (fi_fh fi) = Some h ->
  file_handles (g_context (snd (cftpfs_release path fi w)))
  = <[Z.to_nat (fi_fh fi) := None]> (file_handles (g_context w)).
Proof.
  intros Hfh Hlive. unfold cftpfs_release. rewrite Hlive.
  destruct (fh_dirty h || fh_is_new h); simpl.
  - rewrite (handle_release_live _ _ h); [| exact Hfh |].
    + now rewrite invalidate_parent_handles.
    + unfold live_handle in *. now rewrite invalidate_parent_handles.
  - now rewrite (handle_release_live _ _ h).
Qed.

(** X6. [cftpfs_release] of a live handle returns 0 and frees its slot,
    leaving every other slot as it was; releasing the same number again
    returns 0 and changes nothing. *)
Theorem release_frees_slot (path : string) (fi : fuse_file_info) (w : world)
  (h : file_handle_t) :
  0 <= fi_fh fi ->
  live_handle (g_context w) (fi_fh fi) = Some h ->
  let w' := snd (cftpfs_release path fi w) in
  fst (cftpfs_release path fi w) = 0
  /\ live_handle (g_context w') (fi_fh fi) = None
  /\ (forall j, j <> Z.to_nat (fi_fh fi) ->
                file_handles (g_context w') !! j
                = file_handles (g_context w) !! j)
  /\ cftpfs_release path fi w' = (0, w').
Proof.
  intros Hfh Hlive w'.
  pose proof (release_handles path fi w h Hfh Hlive) as Hslots.
  fold w' in Hslots.
  pose proof Hlive as Hl.
  apply live_handle_lookup in Hl as [Hlt Hl]; [|exact Hfh].
  assert (Hdead : live_handle (g_context w') (fi_fh fi) = None).
  { unfold live_handle. rewrite Hslots.
    destruct (fi_fh fi >=? MAX_HANDLES); [reflexivity|].
    rewrite list_lookup_insert_eq; [reflexivity|].
    eapply lookup_lt_Some. exact Hl. }
  split; [|split; [exact Hdead|split]].
  - unfold cftpfs_release. rewrite Hlive. reflexivity.
  - intros j Hj. rewrite Hslots. now apply list_lookup_insert_ne.
  - unfold cftpfs_release. now rewrite Hdead.
Qed.

(** X7. With all slots taken an open that needs a handle is refused
    with -EMFILE; after the release of one handle the same open succeeds
    and gets the number that was released. *)
Theorem released_slot_is_reused (path path2 : string)
  (fi fi2 : fuse_file_info) (temp_path : string) (fd : Z) (w : world)
  (h : file_handle_t) :
  table_full (g_context w) ->
  0 <= fi_fh fi ->
  live_handle (g_context w) (fi_fh fi) = Some h ->
  Z.land (fi_flags fi2) O_ACCMODE <> O_RDONLY ->
  0 <= fd ->
  let w' := snd (cftpfs_release path fi w) in
  cftpfs_open path2 fi2 temp_path fd w = (- EMFILE, fi2, w)
  /\ fst (fst (cftpfs_open path2 fi2 temp_path fd w')) = 0
  /\ fi_fh (snd (fst (cftpfs_open path2 fi2 temp_path fd w'))) = fi_fh fi.
Proof.
  intros Hfull Hfh Hlive Hacc Hfd w'.
  pose proof (release_handles path fi w h Hfh Hlive) as Hslots.
  fold w' in Hslots.
  apply live_handle_lookup in Hlive as [Hlt Hl]; [|exact Hfh].
  split; [apply open_refused; [exact Hacc | now right]|].
  assert (Hk : (Z.to_nat (fi_fh fi) < Z.to_nat MAX_HANDLES)%nat).
  { apply Z2Nat.inj_lt; [lia | unfold MAX_HANDLES; lia | exact Hlt]. }
  assert (Hslot : free_slot (file_handles (g_context w'))
                  = Some (Z.to_nat (fi_fh fi))).
  { apply free_slot_least; [exact Hk | |].
    - rewrite Hslots. apply list_lookup_insert_eq.
      eapply lookup_lt_Some. exact Hl.
    - intros j Hj. rewrite Hslots, list_lookup_insert_ne by lia.
      apply Hfull. lia. }
  rewrite (open_result path2 fi2 temp_path fd w' _ Hacc Hfd Hslot).
  cbn [fst snd fi_fh]. rewrite Z2Nat.id by exact Hfh. auto.
Qed.

(** ** Writing and writing back *)

(** X8. [cftpfs_write] sends nothing and leaves the cache alone.
    Without a live handle it returns -EBADF; with one, a failure before
    the write returns -errno and changes nothing, and a write returns the
    byte count (or -errno when it is negative) and sets the dirty flag of
    that handle exactly when at least one byte was written, the other
    slots untouched. *)
Theorem write_marks_dirty (path : string) (fi : fuse_file_info)
  (io : spill_io) (w : world) :
  0 <= fi_fh fi ->
  let r := cftpfs_write path fi io w in
  wire (snd r) = wire w
  /\ dir_cache (g_context (snd r)) = dir_cache (g_context w)
  /\ (live_handle (g_context w) (fi_fh fi) = None -> r = (- EBADF, w))
  /\ (forall h,
        live_handle (g_context w) (fi_fh fi) = Some h ->
        match io with
        | SpillFailed errno => r = (- errno, w)
        | SpillWritten n errno =>
            fst r = (if n >=? 0 then n else - errno)
            /\ live_handle (g_context (snd r)) (fi_fh fi)
               = Some (if n >? 0 then set_dirty h true else h)
            /\ forall j, j <> Z.to_nat (fi_fh fi) ->
                         file_handles (g_context (snd r)) !! j
                         = file_handles (g_context w) !! j
        end).
Proof.
  intros Hfh r. unfold r, cftpfs_write.
  destruct (live_handle (g_context w) (fi_fh fi)) as [h|] eqn:Hlive.
  - destruct io as [errno|n errno]; simpl.
    + split; [reflexivity|]. split; [reflexivity|].
      split; [discriminate|]. now intros h' [= <-].
    + split; [reflexivity|]. split; [now destruct (n >? 0)|].
      split; [discriminate|]. intros h' [= <-].
      split; [reflexivity|].
      apply live_handle_lookup in Hlive as [Hlt Hl]; [|exact Hfh].
      destruct (n >? 0); simpl.
      * split.
        -- unfold live_handle. simpl.
           destruct (Z.geb_spec (fi_fh fi) MAX_HANDLES); [lia|].
           rewrite list_lookup_insert_eq; [reflexivity|].
           eapply lookup_lt_Some. exact Hl.
        -- intros j Hj. now apply list_lookup_insert_ne.
      * split; [|reflexivity].
        apply live_handle_lookup; [exact Hfh|]. destruct w. tauto.
  - simpl. split; [reflexivity|]. split; [reflexivity|].
    split; [reflexivity|]. discriminate.
Qed.

Lemma write_marks_dirty_witness :
  let fi := mk_fi O_WRONLY 5 in
  let w := fresh_world 30 in
  let r := cftpfs_write "/f" fi (SpillWritten 2 0) w in
  wire (snd r) = wire w
  /\ dir_cache (g_context (snd r)) = dir_cache (g_context w)
  /\ (live_handle (g_context w) (fi_fh fi) = None -> r = (- EBADF, w))
  /\ (forall h,
        live_handle (g_context w) (fi_fh fi) = Some h ->
        fst r = (if 2 >=? 0 then 2 else - 0)
        /\ live_handle (g_context (snd r)) (fi_fh fi)
           = Some (if 2 >? 0 then set_dirty h true else h)
        /\ forall j, j <> Z.to_nat (fi_fh fi) ->
                     file_handles (g_context (snd r)) !! j
                     = file_handles (g_context w) !! j).
Proof.
  apply (write_marks_dirty "/f" (mk_fi O_WRONLY 5) (SpillWritten 2 0)
                           (fresh_world 30)).
  simpl. lia.
Defined.

Lemma open_world_live (w : world) (i : nat) (h : file_handle_t)
  (reqs : list ftp_request) :
  free_slot (file_handles (g_context w)) = Some i ->
  live_handle (g_context (open_world w i h reqs)) (Z.of_nat i) = Some h.
Proof.
  intros Hfree. apply free_slot_some in Hfree as [Hslot Hm].
  unfold open_world. cbn [g_context].
  apply live_handle_insert; [|exact Hm].
  eapply lookup_lt_Some. exact Hslot.
Qed.

Lemma write_result (path : string) (fi : fuse_file_info) (n errno : Z)
  (w : world) (h : file_handle_t) :
  live_handle (g_context w) (fi_fh fi) = Some h ->
  0 < n ->
  cftpfs_write path fi (SpillWritten n errno) w
  = (n, set_context w
          (set_file_handles (g_context w)
             (<[Z.to_nat (fi_fh fi) := Some (set_dirty h true)]>
                (file_handles (g_context w))))).
Proof.
  intros Hlive Hn. unfold cftpfs_write. rewrite Hlive.
  destruct (Z.gtb_spec n 0); [|lia]. destruct (Z.geb_spec n 0); [|lia].
  reflexivity.
Qed.

(** X9. The life of a handle on the wire: open, a write of at least
    one byte and release send the priming download (none for a new file)
    followed by exactly one upload of the spill file to the path; open and
    release without a write send the upload only for a new file; either
    way the handle table is back to what it was before the open. *)
Theorem open_write_release (path : string) (fi : fuse_file_info)
  (temp_path : string) (fd n errno : Z) (w : world) (i : nat) :
  Z.land (fi_flags fi) O_ACCMODE <> O_RDONLY ->
  0 <= fd ->
  free_slot (file_handles (g_context w)) = Some i ->
  0 < n ->
  let priming :=
    if creates_new (fi_flags fi) then [] else [RETR path temp_path] in
  let opened := cftpfs_open path fi temp_path fd w in
  let fi1 := snd (fst opened) in
  let written := cftpfs_write path fi1 (SpillWritten n errno) (snd opened) in
  let released := cftpfs_release path fi1 (snd written) in
  let unwritten := cftpfs_release path fi1 (snd opened) in
  fst (fst opened) = 0 /\ fst written = n
  /\ fst released = 0 /\ fst unwritten = 0
  /\ wire (snd released) = wire w ++ priming ++ [STOR temp_path path]
  /\ wire (snd unwritten)
     = wire w ++ priming
       ++ (if creates_new (fi_flags fi) then [STOR temp_path path] else [])
  /\ file_handles (g_context (snd released)) = file_handles (g_context w)
  /\ file_handles (g_context (snd unwritten)) = file_handles (g_context w).
Proof.
  intros Hacc Hfd Hfree Hn priming opened fi1 written released unwritten.
  pose proof Hfree as Hs. apply free_slot_some in Hs as [Hslot Hm].
  assert (Hi : (i < length (file_handles (g_context w)))%nat)
    by (eapply lookup_lt_Some; exact Hslot).
  assert (Hopen : exists h,
             fh_temp_path h = temp_path /\ fh_dirty h = false
             /\ fh_is_new h = creates_new (fi_flags fi)
             /\ opened = (0, mk_fi (fi_flags fi) (Z.of_nat i),
                          open_world w i h priming)).
  { unfold opened, priming.
    rewrite (open_result path fi temp_path fd w i Hacc Hfd Hfree).
    destruct (creates_new (fi_flags fi)).
    - exists (set_is_new (new_handle path (fi_flags fi) temp_path) true).
      repeat split.
    - exists (new_handle path (fi_flags fi) temp_path). repeat split. }
  destruct Hopen as (h & Htemp & Hdirty & Hnew & Hopened).
  assert (Hfi1 : fi1 = mk_fi (fi_flags fi) (Z.of_nat i))
    by (unfold fi1; now rewrite Hopened).
  assert (Hw1 : snd opened = open_world w i h priming) by now rewrite Hopened.
  assert (Hlive1 : live_handle (g_context (snd opened)) (fi_fh fi1) = Some h).
  { rewrite Hw1, Hfi1. now apply open_world_live. }
  assert (Hwritten : written
            = (n, set_context (snd opened)
                    (set_file_handles (g_context (snd opened))
                       (<[Z.to_nat (fi_fh fi1) := Some (set_dirty h true)]>
                          (file_handles (g_context (snd opened))))))).
  { unfold written. now apply write_result. }
  assert (Hfh : 0 <= fi_fh fi1) by (rewrite Hfi1; simpl; lia).
  assert (Hlive2 : live_handle (g_context (snd written)) (fi_fh fi1)
                   = Some (set_dirty h true)).
  { rewrite Hwritten. cbn [snd set_context g_context].
    rewrite Hfi1 at 2. cbn [fi_fh]. rewrite Hfi1. cbn [fi_fh].
    rewrite Nat2Z.id. apply live_handle_insert; [|exact Hm].
    rewrite Hw1. unfold open_world. cbn [g_context file_handles set_file_handles].
    now rewrite length_insert. }
  split; [now rewrite Hopened|]. split; [now rewrite Hwritten|].
  split; [unfold released, cftpfs_release; now rewrite Hlive2|].
  split; [unfold unwritten, cftpfs_release; now rewrite Hlive1|].
  split; [|split; [|split]].
  - unfold released.
    rewrite (release_uploads path fi1 (snd written) (set_dirty h true) Hlive2)
      by reflexivity.
    cbn [snd wire fh_temp_path set_dirty]. rewrite Hwritten.
    cbn [snd set_context wire]. rewrite Hw1. unfold open_world. cbn [wire].
    rewrite Htemp. now rewrite <- app_assoc.
  - unfold unwritten. destruct (creates_new (fi_flags fi)) eqn:Ec.
    + rewrite (release_uploads path fi1 (snd opened) h Hlive1)
        by (rewrite Hnew; apply orb_true_r).
      cbn [snd wire]. rewrite Hw1. unfold open_world. cbn [wire].
      rewrite Htemp. now rewrite <- app_assoc.
    + rewrite (release_clean path fi1 (snd opened) h Hlive1)
        by (rewrite Hnew, Hdirty; reflexivity).
      cbn [snd wire]. rewrite Hw1. unfold open_world. cbn [wire].
      now rewrite app_nil_r.
  - unfold released.
    rewrite (release_handles path fi1 (snd written) _ Hfh Hlive2).
    rewrite Hwritten. cbn [snd set_context g_context file_handles
                            set_file_handles].
    rewrite Hw1. unfold open_world. cbn [g_context file_handles set_file_handles].
    rewrite Hfi1. cbn [fi_fh]. rewrite Nat2Z.id.
    rewrite !list_insert_insert_eq. apply list_insert_id. exact Hslot.
  - unfold unwritten.
    rewrite (release_handles path fi1 (snd opened) _ Hfh Hlive1).
    rewrite Hw1. unfold open_world. cbn [g_context file_handles set_file_handles].
    rewrite Hfi1. cbn [fi_fh]. rewrite Nat2Z.id.
    rewrite !list_insert_insert_eq. apply list_insert_id. exact Hslot.
Qed.

Lemma release_frees_slot_witness :
  let fi := mk_fi O_WRONLY 7 in
  let w' := snd (cftpfs_release "/f" fi full_world) in
  fst (cftpfs_release "/f" fi full_world) = 0
  /\ live_handle (g_context w') (fi_fh fi) = None
  /\ (forall j, j <> Z.to_nat (fi_fh fi) ->
                file_handles (g_context w') !! j
                = file_handles (g_context full_world) !! j)
  /\ cftpfs_release "/f" fi w' = (0, w').
Proof.
  apply (release_frees_slot "/f" (mk_fi O_WRONLY 7) full_world spill_handle).
  - simpl. lia.
  - reflexivity.
Defined.

Lemma released_slot_is_reused_witness :
  let fi := mk_fi O_WRONLY 7 in
  let fi2 := mk_fi O_RDWR 0 in
  let w' := snd (cftpfs_release "/f" fi full_world) in
  cftpfs_open "/g" fi2 "/tmp/s" 3 full_world = (- EMFILE, fi2, full_world)
  /\ fst (fst (cftpfs_open "/g" fi2 "/tmp/s" 3 w')) = 0
  /\ fi_fh (snd (fst (cftpfs_open "/g" fi2 "/tmp/s" 3 w'))) = fi_fh fi.
Proof.
  apply (released_slot_is_reused "/f" "/g" (mk_fi O_WRONLY 7) (mk_fi O_RDWR 0)
                                 "/tmp/s" 3 full_world spill_handle).
  - intros i Hi. unfold full_world. cbn [g_context file_handles].
    rewrite lookup_replicate_2 by exact Hi. discriminate.
  - simpl. lia.
  - reflexivity.
  - vm_compute. discriminate.
  - lia.
Defined.

Lemma open_write_release_witness :
  let path := "/d/f" in
  let fi := mk_fi O_WRONLY 0 in
  let temp_path := "/tmp/s" in
  let w := fresh_world 30 in
  let priming :=
    if creates_new (fi_flags fi) then [] else [RETR path temp_path] in
  let opened := cftpfs_open path fi temp_path 3 w in
  let fi1 := snd (fst opened) in
  let written := cftpfs_write path fi1 (SpillWritten 2 0) (snd opened) in
  let released := cftpfs_release path fi1 (snd written) in
  let unwritten := cftpfs_release path fi1 (snd opened) in
  fst (fst opened) = 0 /\ fst written = 2
  /\ fst released = 0 /\ fst unwritten = 0
  /\ wire (snd released) = wire w ++ priming ++ [STOR temp_path path]
  /\ wire (snd unwritten)
     = wire w ++ priming
       ++ (if creates_new (fi_flags fi) then [STOR temp_path path] else [])
  /\ file_handles (g_context (snd released)) = file_handles (g_context w)
  /\ file_handles (g_context (snd unwritten)) = file_handles (g_context w).
Proof.
  apply (open_write_release "/d/f" (mk_fi O_WRONLY 0) "/tmp/s" 3 2 0
                            (fresh_world 30) 0).
  - vm_compute. discriminate.
  - lia.
  - reflexivity.
  - lia.
Defined.

(** ** The callbacks that change the server *)

Lemma invalidate_misses (ctx : cftpfs_context_t) (p q : string) (now : Z) :
  key_has_prefix p q -> fst (cache_get (cache_invalidate ctx p) q now) = None.
Proof.
  intros Hq. unfold cache_get. rewrite get_loop_absent; [reflexivity|].
  intros e He Hk. apply invalidate_loop_elem in He as [_ Hn].
  apply Hn. now rewrite Hk.
Qed.

Lemma invalidate_parent_evicts (ctx : cftpfs_context_t) (path p q : string)
  (now : Z) :
  parent_dir path = Some p -> key_has_prefix p q ->
  fst (cache_get (invalidate_parent ctx path) q now) = None.
Proof.
  unfold parent_dir, invalidate_parent.
  destruct (strrchr path "/") as [[|i]|]; try discriminate.
  intros [= <-]. apply invalidate_misses.
Qed.

Lemma mutation_shape (request : ftp_request) (accepted : bool)
  (inv : cftpfs_context_t -> cftpfs_context_t) (evicted : option string)
  (w : world) :
  (forall ctx, file_handles (inv ctx) = file_handles ctx) ->
  (forall ctx, evicted = None -> inv ctx = ctx) ->
  (forall ctx p q now,
      evicted = Some p -> key_has_prefix p q ->
      fst (cache_get (inv ctx) q now) = None) ->
  mutates_like
    (fun w =>
       let w := sent w request in
       let ret := if negb accepted then - EIO else 0 in
       if ret =? 0 then (ret, set_context w (inv (g_context w)))
       else (ret, w))
    request accepted evicted w.
Proof.
  intros Hh Hid Hev. unfold mutates_like.
  destruct accepted; cbn [negb]; simpl.
  - rewrite Hh. repeat split; try discriminate.
    + intros Hnone. rewrite Hid by exact Hnone. now destruct w.
    + intros p Hp q now Hq. now apply Hev with p.
  - repeat split; try discriminate.
Qed.

Lemma invalidate_parent_root (ctx : cftpfs_context_t) (path : string) :
  parent_dir path = None -> invalidate_parent ctx path = ctx.
Proof.
  unfold parent_dir, invalidate_parent.
  now destruct (strrchr path "/") as [[|i]|].
Qed.

Lemma strrchr_none (x : string) (c : ascii) :
  strchr x c = false -> strrchr x c = None.
Proof.
  induction x as [|a x IH]; simpl; [reflexivity|].
  destruct (byte a =? byte c); [discriminate|].
  intros H. now rewrite IH.
Qed.

Lemma strrchr_last (d x : string) (c : ascii) :
  strchr x c = false ->
  strrchr (d +:+ String c x) c = Some (String.length d).
Proof.
  intros Hx. induction d as [|a d IH].
  - rewrite append_nil. simpl. rewrite (strrchr_none x c Hx).
    now rewrite Z.eqb_refl.
  - rewrite append_cons. simpl. now rewrite IH.
Qed.

Lemma parent_dir_cases (d x : string) :
  strchr x "/" = false ->
  parent_dir (d +:+ String "/" x) = (if decide (d = "") then None else Some d).
Proof.
  intros Hx. unfold parent_dir. rewrite (strrchr_last d x "/" Hx).
  destruct d as [|c d]; [reflexivity|].
  cbn [String.length]. destruct (decide (String c d = "")); [discriminate|].
  f_equal. apply (strncpy_app (String c d)).
Qed.

(** X10. [cftpfs_unlink], [cftpfs_mkdir], [cftpfs_rmdir] and
    [cftpfs_rename] each send exactly one request and never touch the
    handle table.  When the server refuses they return -EIO and leave the
    context as it is; when it accepts they return 0, and afterwards
    [cache_get] misses every key that has the evicted prefix: the parent
    of the path for the first three and [/] for rename.  The parent of
    [d/x] is [d]; a path directly under the root has none, and then the
    context stays as it is. *)
Theorem mutations_and_the_cache
  (curl_easy_perform : ftp_request -> Z * string) (path from to : string)
  (w : world) :
  let accepted r := fst (curl_easy_perform r) =? CURLE_OK in
  mutates_like (cftpfs_unlink curl_easy_perform path) (DELE path)
               (accepted (DELE path)) (parent_dir path) w
  /\ mutates_like (cftpfs_mkdir curl_easy_perform path) (MKD path)
                  (accepted (MKD path)) (parent_dir path) w
  /\ mutates_like (cftpfs_rmdir curl_easy_perform path) (RMD path)
                  (accepted (RMD path)) (parent_dir path) w
  /\ mutates_like (cftpfs_rename curl_easy_perform from to)
                  (RNFR_RNTO from to) (accepted (RNFR_RNTO from to))
                  (Some "/") w
  /\ (forall d x, strchr x "/" = false ->
                  parent_dir (d +:+ String "/" x)
                  = if decide (d = "") then None else Some d).
Proof.
  intros accepted. refine (conj _ (conj _ (conj _ (conj _ _)))).
  - apply (mutation_shape (DELE path) _
             (fun ctx => invalidate_parent ctx path)).
    + intros. apply invalidate_parent_handles.
    + intros. now apply invalidate_parent_root.
    + intros. now apply (invalidate_parent_evicts _ path p).
  - apply (mutation_shape (MKD path) _
             (fun ctx => invalidate_parent ctx path)).
    + intros. apply invalidate_parent_handles.
    + intros. now apply invalidate_parent_root.
    + intros. now apply (invalidate_parent_evicts _ path p).
  - apply (mutation_shape (RMD path) _
             (fun ctx => invalidate_parent ctx path)).
    + intros. apply invalidate_parent_handles.
    + intros. now apply invalidate_parent_root.
    + intros. now apply (invalidate_parent_evicts _ path p).
  - apply (mutation_shape (RNFR_RNTO from to) _
             (fun ctx => cache_invalidate ctx "/")).
    + reflexivity.
    + discriminate.
    + intros ctx p q now [= <-] Hq. now apply invalidate_misses.
  - apply parent_dir_cases.
Qed.

(** ** Attributes and listings through the cache *)

Lemma cache_get_head (ctx : cftpfs_context_t) (e : cache_entry_t)
  (rest : list cache_entry_t) (now : Z) :
  dir_cache ctx = e :: rest ->
  now - ce_timestamp e <= effective_timeout ctx ->
  cache_get ctx (ce_path e) now = (Some e, ctx).
Proof.
  intros Hc Ht. unfold cache_get. fold (effective_timeout ctx).
  rewrite Hc. simpl get_loop. rewrite strcmp_refl. simpl.
  destruct (Z.gtb_spec (now - ce_timestamp e) (effective_timeout ctx)); [lia|].
  rewrite <- Hc. now rewrite set_dir_cache_same.
Qed.

Lemma find_item_cached (basename : string) (items : list ftp_item_t) (count : Z) :
  find_item basename (if count >? 0 then items else []) (Z.to_nat count)
  = find_item basename items (Z.to_nat count).
Proof.
  destruct (Z.gtb_spec count 0); [reflexivity|].
  replace (Z.to_nat count) with O by lia. now destruct items.
Qed.

Lemma find_item_take (basename : string) (items : list ftp_item_t) (count : nat) :
  find_item basename items count = find_item basename (take count items) count.
Proof.
  revert items. induction count as [|count IH]; intros [|it items]; simpl;
    try reflexivity.
  destruct (strcmp (name it) basename =? 0); [reflexivity | apply IH].
Qed.

Lemma find_item_found (basename : string) (items : list ftp_item_t) :
  (exists it, find_item basename items (length items) = Some it)
  <-> basename ∈ (name <$> items).
Proof.
  induction items as [|it items IH]; simpl.
  - split; [intros [? [=]] | intros H; now apply elem_of_nil in H].
  - destruct (Z.eqb_spec (strcmp (name it) basename) 0) as [E|E].
    + apply strcmp_0_iff in E. split; [intros _; rewrite E; left | eauto].
    + rewrite IH. split; [now right|].
      intros H. apply elem_of_cons in H as [->|H]; [|exact H].
      elim E. apply strcmp_refl.
Qed.

Section ThroughTheCache.

Variable mktime : tm -> Z.
Variable tm_now : tm.
Variables hour0 min0 : Z.
Variable curl_easy_perform : ftp_request -> Z * string.

(** A miss answered by the server: the listing is cached under [path] and
    handed back. *)
Lemma cached_listing_miss (path : string) (now : Z) (w : world) :
  fst (cache_get (g_context w) path now) = None ->
  fst (curl_easy_perform (LIST path)) = CURLE_OK ->
  let parsed :=
    list_dir_parse mktime tm_now hour0 min0
                   (snd (curl_easy_perform (LIST path))) in
  let count := Z.of_nat (snd parsed) in
  cached_listing mktime tm_now hour0 min0 curl_easy_perform path now w
  = (Some (fst parsed), count,
     mk_world (cache_put (snd (cache_get (g_context w) path now)) path
                         (fst parsed) count now)
              (wire w ++ [LIST path])).
Proof.
  intros Hmiss Hok parsed count. unfold cached_listing.
  destruct (cache_get (g_context w) path now) as [cached ctx] eqn:Hget.
  simpl in Hmiss. subst cached. unfold ftp_list_dir.
  destruct (curl_easy_perform (LIST path)) as [res data] eqn:Hc.
  simpl in Hok. subst res. simpl negb. cbv iota.
  unfold count, parsed. simpl snd.
  destruct (list_dir_parse mktime tm_now hour0 min0 data) as [items n].
  reflexivity.
Qed.

(** A miss the server does not answer: nothing is cached. *)
Lemma cached_listing_failed (path : string) (now : Z) (w : world) :
  fst (cache_get (g_context w) path now) = None ->
  fst (curl_easy_perform (LIST path)) <> CURLE_OK ->
  cached_listing mktime tm_now hour0 min0 curl_easy_perform path now w
  = (None, 0,
     mk_world (snd (cache_get (g_context w) path now))
              (wire w ++ [LIST path])).
Proof.
  intros Hmiss Hok. unfold cached_listing.
  destruct (cache_get (g_context w) path now) as [cached ctx] eqn:Hget.
  simpl in Hmiss. subst cached. unfold ftp_list_dir.
  destruct (curl_easy_perform (LIST path)) as [res data] eqn:Hc.
  simpl in Hok. destruct (Z.eqb_spec res CURLE_OK); [contradiction|].
  reflexivity.
Qed.

(** A hit on the entry at the head of the cache: no request, no change. *)
Lemma cached_listing_hit (e : cache_entry_t) (rest : list cache_entry_t)
  (now : Z) (w : world) :
  dir_cache (g_context w) = e :: rest ->
  now - ce_timestamp e <= effective_timeout (g_context w) ->
  cached_listing mktime tm_now hour0 min0 curl_easy_perform (ce_path e) now w
  = (Some (if ce_item_count e >? 0 then ce_items e else []),
     ce_item_count e, w).
Proof.
  intros Hc Ht. unfold cached_listing.
  rewrite (cache_get_head _ e rest now Hc Ht). now destruct w.
Qed.

End ThroughTheCache.

Lemma cache_get_timeout (ctx : cftpfs_context_t) (p : string) (now : Z) :
  cache_timeout (snd (cache_get ctx p now)) = cache_timeout ctx.
Proof.
  unfold cache_get. now destruct (get_loop _ now p (dir_cache ctx)).
Qed.

Lemma advance_app (d x : string) (c : ascii) :
  advance (d +:+ String c x) (S (String.length d)) = x.
Proof.
  induction d as [|a d IH]; [now destruct x|].
  rewrite append_cons. simpl. exact IH.
Qed.

Section Attributes.

Variable mktime : tm -> Z.
Variable tm_now : tm.
Variables hour0 min0 : Z.
Variable curl_easy_perform : ftp_request -> Z * string.

(** [getattr] of a name [x] in the directory [d], on a miss the server
    answers: the world afterwards, and the answer in terms of the listing. *)
Lemma getattr_miss (d x : string) (now : Z) (w : world) :
  x <> "" -> strchr x "/" = false ->
  fst (cache_get (g_context w) d now) = None ->
  fst (curl_easy_perform (LIST d)) = CURLE_OK ->
  let parsed :=
    list_dir_parse mktime tm_now hour0 min0
                   (snd (curl_easy_perform (LIST d))) in
  let count := Z.of_nat (snd parsed) in
  let found := find_item x (fst parsed) (snd parsed) in
  cftpfs_getattr mktime tm_now hour0 min0 curl_easy_perform
                 (d +:+ String "/" x) now w
  = (match found with Some _ => 0 | None => - ENOENT end,
     match found with Some it => stat_of_item it | None => zero_stat end,
     mk_world (cache_put (snd (cache_get (g_context w) d now)) d
                         (fst parsed) count now)
              (wire w ++ [LIST d])).
Proof.
  intros Hx Hslash Hmiss Hok parsed count found. unfold cftpfs_getattr.
  assert (Hroot : (strcmp (d +:+ String "/" x) "/" =? 0) = false).
  { apply strcmp_neqb. destruct d as [|a d].
    - rewrite append_nil. intros [= E]. contradiction.
    - rewrite append_cons. destruct d; [|discriminate].
      rewrite append_nil. discriminate. }
  rewrite Hroot, (strrchr_last d x "/" Hslash), strncpy_app, advance_app.
  destruct x as [|a x]; [contradiction|].
  rewrite (cached_listing_miss mktime tm_now hour0 min0 curl_easy_perform
             d now w Hmiss Hok).
  cbv zeta. cbn [default]. rewrite Nat2Z.id.
  unfold found, count, parsed, id.
  now destruct (find_item (String a x) _ _).
Qed.

(** The same call when the listing of [d] is at the head of the cache and
    young enough. *)
Lemma getattr_hit (d x : string) (rest : list cache_entry_t)
  (items : list ftp_item_t) (count t now : Z) (w : world) :
  x <> "" -> strchr x "/" = false ->
  dir_cache (g_context w) = mk_entry d items count t :: rest ->
  now - t <= effective_timeout (g_context w) ->
  let found := find_item x items (Z.to_nat count) in
  cftpfs_getattr mktime tm_now hour0 min0 curl_easy_perform
                 (d +:+ String "/" x) now w
  = (match found with Some _ => 0 | None => - ENOENT end,
     match found with Some it => stat_of_item it | None => zero_stat end,
     w).
Proof.
  intros Hx Hslash Hc Ht found. unfold cftpfs_getattr.
  assert (Hroot : (strcmp (d +:+ String "/" x) "/" =? 0) = false).
  { apply strcmp_neqb. destruct d as [|a d].
    - rewrite append_nil. intros [= E]. contradiction.
    - rewrite append_cons. destruct d; [|discriminate].
      rewrite append_nil. discriminate. }
  rewrite Hroot, (strrchr_last d x "/" Hslash), strncpy_app, advance_app.
  destruct x as [|a x]; [contradiction|].
  change d with (ce_path (mk_entry d items count t)) at 1.
  rewrite (cached_listing_hit mktime tm_now hour0 min0 curl_easy_perform
             _ rest now w Hc Ht).
  cbn [default ce_item_count ce_items]. unfold id.
  rewrite (find_item_cached (String a x) items count).
  unfold found.
  now destruct (find_item (String a x) items (Z.to_nat count)).
Qed.

End Attributes.

Lemma cache_put_head (ctx : cftpfs_context_t) (p : string)
  (items : list ftp_item_t) (count now : Z) :
  strlen p < MAX_PATH_LEN ->
  dir_cache (cache_put ctx p items count now)
  = mk_entry p (if count >? 0 then items else []) count now
    :: remove_first p (dir_cache ctx).
Proof.
  intros Hp. unfold cache_put. cbv zeta.
  rewrite strncpy_short by (unfold strlen, MAX_PATH_LEN in *; lia).
  now destruct ctx.
Qed.

Lemma cache_put_timeout (ctx : cftpfs_context_t) (p : string)
  (items : list ftp_item_t) (count now : Z) :
  cache_timeout (cache_put ctx p items count now) = cache_timeout ctx.
Proof. now destruct ctx. Qed.

Section ServedFromTheCache.

Variable mktime : tm -> Z.
Variable tm_now : tm.
Variables hour0 min0 : Z.
Variable curl_easy_perform : ftp_request -> Z * string.

(** X11. [cftpfs_getattr] of [d/x] asks the server once per time-out: on a
    miss that the server answers it sends one LIST of [d]; the same call
    again, no later than the time-out after the first, returns the same
    answer, sends nothing and leaves the context as it is. *)
Theorem getattr_served_from_cache (d x : string) (now later : Z) (w : world) :
  x <> "" -> strchr x "/" = false -> strlen d < MAX_PATH_LEN ->
  fst (cache_get (g_context w) d now) = None ->
  fst (curl_easy_perform (LIST d)) = CURLE_OK ->
  later - now <= effective_timeout (g_context w) ->
  let getattr := cftpfs_getattr mktime tm_now hour0 min0 curl_easy_perform in
  let first := getattr (d +:+ String "/" x) now w in
  wire (snd first) = wire w ++ [LIST d]
  /\ getattr (d +:+ String "/" x) later (snd first) = first.
Proof.
  intros Hx Hslash Hd Hmiss Hok Ht getattr first. unfold first, getattr.
  rewrite (getattr_miss mktime tm_now hour0 min0 curl_easy_perform
             d x now w Hx Hslash Hmiss Hok).
  cbv zeta. cbn [snd wire]. split; [reflexivity|].
  set (parsed := list_dir_parse mktime tm_now hour0 min0
                   (snd (curl_easy_perform (LIST d)))).
  set (ctx := snd (cache_get (g_context w) d now)).
  set (w1 := mk_world _ _).
  assert (Hc : dir_cache (g_context w1)
               = mk_entry d (if Z.of_nat (snd parsed) >? 0
                             then fst parsed else [])
                          (Z.of_nat (snd parsed)) now
                 :: remove_first d (dir_cache ctx)).
  { unfold w1. cbn [g_context]. now apply cache_put_head. }
  assert (Hto : effective_timeout (g_context w1)
                = effective_timeout (g_context w)).
  { unfold w1, effective_timeout. cbn [g_context].
    rewrite cache_put_timeout. unfold ctx. now rewrite cache_get_timeout. }
  rewrite (getattr_hit mktime tm_now hour0 min0 curl_easy_perform
             d x _ _ _ now later w1 Hx Hslash Hc) by (rewrite Hto; lia).
  cbv zeta. rewrite find_item_cached, Nat2Z.id. reflexivity.
Qed.

End ServedFromTheCache.

Lemma get_loop_miss_again (T T' now later : Z) (p : string)
  (l : list cache_entry_t) :
  NoDup (ce_path <$> l) ->
  fst (get_loop T now p l) = None ->
  get_loop T' later p (snd (get_loop T now p l))
  = (None, snd (get_loop T now p l)).
Proof.
  induction l as [|x l IH]; simpl; intros Hnd Hmiss; [reflexivity|].
  apply NoDup_cons in Hnd as [Hx Hnd].
  destruct (Z.eqb_spec (strcmp (ce_path x) p) 0) as [E|E].
  - destruct (now - ce_timestamp x >? T); [|discriminate]. simpl.
    apply get_loop_absent. intros e He Hp. apply Hx.
    apply strcmp_0_iff in E. rewrite E, <- Hp.
    apply list_elem_of_fmap. now exists e.
  - destruct (get_loop T now p l) as [r l'] eqn:Hl. simpl in *.
    apply Z.eqb_neq in E. rewrite E, IH by assumption. reflexivity.
Qed.

Lemma cache_miss_again (ctx : cftpfs_context_t) (p : string) (now later : Z) :
  NoDup (cache_keys ctx) ->
  fst (cache_get ctx p now) = None ->
  cache_get (snd (cache_get ctx p now)) p later
  = (None, snd (cache_get ctx p now)).
Proof.
  unfold cache_keys, cache_get. intros Hnd Hmiss.
  set (T := if cache_timeout ctx >? 0 then _ else _) in *.
  pose proof (get_loop_miss_again T T now later p (dir_cache ctx) Hnd) as H.
  destruct (get_loop T now p (dir_cache ctx)) as [r l]. simpl in *.
  fold T. rewrite H by assumption. reflexivity.
Qed.

Lemma find_item_some (basename : string) (items : list ftp_item_t)
  (count : nat) (it : ftp_item_t) :
  find_item basename items count = Some it ->
  it ∈ take count items /\ name it = basename.
Proof.
  revert items. induction count as [|count IH]; intros [|x items]; simpl;
    try discriminate.
  destruct (Z.eqb_spec (strcmp (name x) basename) 0) as [E|E].
  - intros [= ->]. split; [left | now apply strcmp_0_iff].
  - intros H. destruct (IH _ H). split; [now right | assumption].
Qed.

Lemma find_item_none (basename : string) (items : list ftp_item_t)
  (count : nat) :
  find_item basename items count = None ->
  basename ∉ (name <$> take count items).
Proof.
  revert items. induction count as [|count IH]; intros [|x items]; simpl;
    intros H; try apply not_elem_of_nil.
  destruct (Z.eqb_spec (strcmp (name x) basename) 0) as [E|E];
    [discriminate|].
  apply not_elem_of_cons. split; [|now apply IH].
  intros ->. apply E, strcmp_refl.
Qed.

Section Directories.

Variable mktime : tm -> Z.
Variable tm_now : tm.
Variables hour0 min0 : Z.
Variable curl_easy_perform : ftp_request -> Z * string.

(** X12. [cftpfs_readdir] of [d] on a miss that the server answers sends one
    LIST, returns 0 and hands out [.], [..] and the names of the accepted
    lines in order.  A [cftpfs_getattr] of [d/x] no later than the time-out
    afterwards is answered from that listing: it sends nothing, leaves the
    context alone, returns the attributes of an entry named [x] if one was
    listed and -ENOENT otherwise. *)
Theorem readdir_primes_getattr (d x : string) (now later : Z) (w : world) :
  x <> "" -> strchr x "/" = false -> strlen d < MAX_PATH_LEN ->
  fst (cache_get (g_context w) d now) = None ->
  fst (curl_easy_perform (LIST d)) = CURLE_OK ->
  later - now <= effective_timeout (g_context w) ->
  let entries :=
    omap (parsed_entry mktime tm_now hour0 min0)
         (strtok_lines (c_str (snd (curl_easy_perform (LIST d))))) in
  let listed :=
    cftpfs_readdir mktime tm_now hour0 min0 curl_easy_perform d now w in
  let looked :=
    cftpfs_getattr mktime tm_now hour0 min0 curl_easy_perform
                   (d +:+ String "/" x) later (snd listed) in
  fst listed = (0, "." :: ".." :: (name <$> entries))
  /\ wire (snd listed) = wire w ++ [LIST d]
  /\ snd looked = snd listed
  /\ (x ∈ (name <$> entries) ->
      exists it, it ∈ entries /\ name it = x
                 /\ fst looked = (0, stat_of_item it))
  /\ (x ∉ (name <$> entries) -> fst looked = (- ENOENT, zero_stat)).
Proof.
  intros Hx Hslash Hd Hmiss Hok Ht entries listed looked.
  unfold looked, listed, cftpfs_readdir.
  rewrite (cached_listing_miss mktime tm_now hour0 min0 curl_easy_perform
             d now w Hmiss Hok).
  cbv zeta.
  destruct (list_dir_parse_spec mktime tm_now hour0 min0
              (snd (curl_easy_perform (LIST d)))) as [Hn Htake].
  fold entries in Hn, Htake.
  set (parsed := list_dir_parse mktime tm_now hour0 min0
                   (snd (curl_easy_perform (LIST d)))) in *.
  set (ctx := snd (cache_get (g_context w) d now)).
  set (w1 := mk_world _ _).
  cbn [fst snd]. rewrite Nat2Z.id, Htake.
  assert (Hc : dir_cache (g_context w1)
               = mk_entry d (if Z.of_nat (snd parsed) >? 0
                             then fst parsed else [])
                          (Z.of_nat (snd parsed)) now
                 :: remove_first d (dir_cache ctx)).
  { unfold w1. cbn [g_context]. now apply cache_put_head. }
  assert (Hto : effective_timeout (g_context w1)
                = effective_timeout (g_context w)).
  { unfold w1, effective_timeout. cbn [g_context].
    rewrite cache_put_timeout. unfold ctx. now rewrite cache_get_timeout. }
  rewrite (getattr_hit mktime tm_now hour0 min0 curl_easy_perform
             d x _ _ _ now later w1 Hx Hslash Hc) by (rewrite Hto; lia).
  cbv zeta. rewrite find_item_cached, Nat2Z.id. cbn [fst snd].
  refine (conj eq_refl (conj eq_refl (conj eq_refl (conj _ _)))).
  - intros Hin.
    destruct (find_item x (fst parsed) (snd parsed)) as [it|] eqn:Hf.
    + apply find_item_some in Hf as [Hit Hname]. rewrite Htake in Hit.
      exists it. repeat split; assumption || reflexivity.
    + apply find_item_none in Hf. rewrite Htake in Hf. contradiction.
  - intros Hout.
    destruct (find_item x (fst parsed) (snd parsed)) as [it|] eqn:Hf;
      [|reflexivity].
    apply find_item_some in Hf as [Hit Hname]. rewrite Htake in Hit.
    exfalso. apply Hout. apply list_elem_of_fmap. now exists it.
Qed.

(** X13. A listing that fails is not cached: on a miss that the server does
    not answer, [cftpfs_readdir] returns -EIO after [.] and [..], has sent
    one LIST and has put nothing in the cache, so that with distinct keys
    the next [cftpfs_readdir] of the directory, whenever it comes, asks the
    server again. *)
Theorem readdir_failure_not_cached (d : string) (now later : Z) (w : world) :
  NoDup (cache_keys (g_context w)) ->
  fst (cache_get (g_context w) d now) = None ->
  fst (curl_easy_perform (LIST d)) <> CURLE_OK ->
  let readdir := cftpfs_readdir mktime tm_now hour0 min0 curl_easy_perform in
  let failed := readdir d now w in
  fst failed = (- EIO, ["."; ".."])
  /\ snd failed
     = mk_world (snd (cache_get (g_context w) d now)) (wire w ++ [LIST d])
  /\ readdir d later (snd failed)
     = (- EIO, ["."; ".."],
        mk_world (snd (cache_get (g_context w) d now))
                 (wire w ++ [LIST d; LIST d])).
Proof.
  intros Hnd Hmiss Hfail readdir failed. unfold failed, readdir, cftpfs_readdir.
  rewrite (cached_listing_failed mktime tm_now hour0 min0 curl_easy_perform
             d now w Hmiss Hfail).
  cbn [fst snd]. refine (conj eq_refl (conj eq_refl _)).
  rewrite (cached_listing_failed mktime tm_now hour0 min0 curl_easy_perform
             d later _); cbn [g_context wire];
    try (now rewrite cache_miss_again); [|assumption].
  rewrite cache_miss_again by assumption. cbn [snd].
  now rewrite <- app_assoc.
Qed.

End Directories.

Lemma getattr_served_from_cache_witness :
  let getattr := cftpfs_getattr mktime_utc tm_2026 0 0 S6_server in
  let first := getattr ("/pub" +:+ String "/" "README") 100 (fresh_world 30) in
  wire (snd first) = wire (fresh_world 30) ++ [LIST "/pub"]
  /\ getattr ("/pub" +:+ String "/" "README") 120 (snd first) = first.
Proof.
  apply (getattr_served_from_cache mktime_utc tm_2026 0 0 S6_server
           "/pub" "README" 100 120 (fresh_world 30)).
  - discriminate.
  - reflexivity.
  - reflexivity.
  - reflexivity.
  - reflexivity.
  - vm_compute. discriminate.
Defined.

Lemma readdir_primes_getattr_witness :
  let entries :=
    omap (parsed_entry mktime_utc tm_2026 0 0)
         (strtok_lines (c_str (snd (S6_server (LIST "/pub"))))) in
  let listed :=
    cftpfs_readdir mktime_utc tm_2026 0 0 S6_server "/pub" 100
                   (fresh_world 30) in
  let looked :=
    cftpfs_getattr mktime_utc tm_2026 0 0 S6_server
                   ("/pub" +:+ String "/" "docs") 120 (snd listed) in
  fst listed = (0, "." :: ".." :: (name <$> entries))
  /\ wire (snd listed) = wire (fresh_world 30) ++ [LIST "/pub"]
  /\ snd looked = snd listed
  /\ ("docs" ∈ (name <$> entries) ->
      exists it, it ∈ entries /\ name it = "docs"
                 /\ fst looked = (0, stat_of_item it))
  /\ ("docs" ∉ (name <$> entries) -> fst looked = (- ENOENT, zero_stat)).
Proof.
  apply (readdir_primes_getattr mktime_utc tm_2026 0 0 S6_server
           "/pub" "docs" 100 120 (fresh_world 30)).
  - discriminate.
  - reflexivity.
  - reflexivity.
  - reflexivity.
  - reflexivity.
  - vm_compute. discriminate.
Defined.

Lemma readdir_failure_not_cached_witness :
  let readdir := cftpfs_readdir mktime_utc tm_2026 0 0 down_server in
  let w := fresh_world 30 in
  let failed := readdir "/pub" 100 w in
  fst failed = (- EIO, ["."; ".."])
  /\ snd failed
     = mk_world (snd (cache_get (g_context w) "/pub" 100))
                (wire w ++ [LIST "/pub"])
  /\ readdir "/pub" 101 (snd failed)
     = (- EIO, ["."; ".."],
        mk_world (snd (cache_get (g_context w) "/pub" 100))
                 (wire w ++ [LIST "/pub"; LIST "/pub"])).
Proof.
  apply (readdir_failure_not_cached mktime_utc tm_2026 0 0 down_server
           "/pub" 100 101 (fresh_world 30)).
  - vm_compute. apply NoDup_nil_2.
  - reflexivity.
  - vm_compute. discriminate.
Defined.

(** ** The parser: what every accepted line yields *)

Lemma wrap_range (bits : Z) (z : Z) :
  0 < bits -> - 2 ^ (bits - 1) <= wrap bits z < 2 ^ (bits - 1).
Proof.
  intros Hb. unfold wrap.
  assert (E : 2 ^ bits = 2 * 2 ^ (bits - 1)).
  { replace bits with (1 + (bits - 1)) at 1 by lia.
    rewrite Z.pow_add_r by lia. reflexivity. }
  assert (0 < 2 ^ (bits - 1)) by (apply Z.pow_pos_nonneg; lia).
  pose proof (Z.mod_pos_bound (z + 2 ^ (bits - 1)) (2 ^ bits) ltac:(lia)).
  lia.
Qed.

Lemma digits_loop_range (wr : Z -> Z) (lo hi : Z) (p : string) :
  (forall z, lo <= wr z < hi) ->
  forall acc, lo <= acc < hi -> lo <= fst (digits_loop wr acc p) < hi.
Proof.
  intros Hwr. induction p as [|c p IH]; simpl; intros acc Hacc; [exact Hacc|].
  destruct (isdigit c); [apply IH, Hwr | exact Hacc].
Qed.

Lemma starts_nonspace_strncpy (s : string) (n : nat) :
  starts_nonspace s = true -> starts_nonspace (strncpy s (S n)) = true.
Proof. now destruct s. Qed.

Lemma skip_spaces_starts (s : string) :
  skip_spaces s <> "" -> starts_nonspace (skip_spaces s) = true.
Proof.
  induction s as [|c s IH]; simpl; [congruence|].
  destruct (isspace c) eqn:E; [exact IH|]. intros _. simpl. now rewrite E.
Qed.

(** The arrow starts with a space: it is not found at the start of a
    name that starts with another byte, so the cut leaves that byte. *)
Lemma cut_arrow_starts (p : string) :
  starts_nonspace p = true -> starts_nonspace (cut_arrow p) = true.
Proof.
  unfold cut_arrow. destruct p as [|c p]; [discriminate|].
  intros Hc. simpl in Hc.
  assert (Hb : (byte c =? byte " ") = false).
  { apply Z.eqb_neq. intros Hb. apply byte_inj in Hb. now subst c. }
  assert (E4 : (strncmp (String c p) " -> " 4 =? 0) = false).
  { simpl. rewrite Hb. now destruct (byte c <? byte " "). }
  unfold strstr; fold strstr. change (String.length " -> ") with 4%nat.
  rewrite E4. destruct (strstr p " -> ") as [i|]; simpl; exact Hc.
Qed.

Lemma unix_type_synthetic (c : ascii) ty md :
  unix_type c = Some (ty, md) ->
  ty <> FTP_TYPE_UNKNOWN /\ md = synthetic_mode ty /\ ty = kind_of_byte c.
Proof.
  unfold unix_type, kind_of_byte.
  destruct (byte c =? byte "d"); [intros [= <- <-]; now repeat split|].
  destruct (byte c =? byte "-"); [intros [= <- <-]; now repeat split|].
  destruct (byte c =? byte "l"); [intros [= <- <-]; now repeat split|].
  discriminate.
Qed.

Lemma name_buffer :
  Z.of_nat (Z.to_nat (MAX_PATH_LEN - 1)) = MAX_PATH_LEN - 1
  /\ exists n, Z.to_nat (MAX_PATH_LEN - 1) = S n.
Proof. split; [reflexivity | now exists 4094%nat]. Qed.

(** The stripping loop removes the white space at the end, and only
    that. *)
Lemma rstrip_decompose (s : string) :
  exists ws, all_space ws = true /\ s = rstrip s +:+ ws.
Proof.
  induction s as [|c s (ws & Hws & IH)]; [now exists ""|].
  simpl. destruct (rstrip s) as [|d r] eqn:E.
  - rewrite append_nil in IH. subst ws.
    destruct (isspace c) eqn:Hc.
    + exists (String c s). simpl. now rewrite Hc, Hws.
    + exists s. split; [exact Hws|]. now rewrite append_cons, append_nil.
  - exists ws. split; [exact Hws|]. rewrite append_cons. now rewrite <- IH.
Qed.

Lemma rstrip_last (s : string) (c : ascii) :
  last_byte (rstrip s) = Some c -> isspace c = false.
Proof.
  induction s as [|d s IH]; simpl; [discriminate|].
  destruct (rstrip s) as [|e r] eqn:E.
  - destruct (isspace d) eqn:Hd; simpl; [discriminate|]. now intros [= <-].
  - intros H. apply IH. exact H.
Qed.

Lemma rstrip_fixed (s : string) (c : ascii) :
  last_byte s = Some c -> isspace c = false -> rstrip s = s.
Proof.
  induction s as [|d s IH]; [discriminate|].
  destruct s as [|e s].
  - simpl. intros [= ->] ->. reflexivity.
  - intros H Hc. change (last_byte (String e s) = Some c) in H.
    specialize (IH H Hc). simpl in *. now rewrite IH.
Qed.

Lemma rstrip_starts (s : string) :
  starts_nonspace s = true -> starts_nonspace (rstrip s) = true.
Proof.
  destruct s as [|c s]; [discriminate|]. simpl. intros Hc.
  destruct (rstrip s); simpl; [|exact Hc].
  apply negb_true_iff in Hc. rewrite Hc. simpl. now rewrite Hc.
Qed.

Lemma strlen_rstrip (s : string) : strlen (rstrip s) <= strlen s.
Proof.
  destruct (rstrip_decompose s) as (ws & _ & E).
  rewrite E at 2. rewrite strlen_append. pose proof (strlen_nonneg ws). lia.
Qed.

Section Accepted.

Variable mktime : tm -> Z.
Variable tm_now : tm.
Variables hour0 min0 : Z.

Lemma parse_unix_listing_code (line : string) (item : ftp_item_t) :
  fst (parse_unix_listing mktime tm_now line item) = 0
  \/ fst (parse_unix_listing mktime tm_now line item) = -1.
Proof.
  unfold parse_unix_listing.
  repeat match goal with
         | |- context [if ?b then _ else _] => destruct b
         | |- context [match ?x with _ => _ end] => destruct x
         end; simpl; auto.
Qed.

Lemma parse_unix_listing_ok (line : string) (item it : ftp_item_t) :
  parse_unix_listing mktime tm_now line item = (0, it) -> entry_ok it.
Proof.
  intros H. unfold parse_unix_listing in H.
  repeat match type of H with
         | context [if ?b then _ else _] => destruct b eqn:?
         | context [match ?x with _ => _ end] => destruct x eqn:?
         end; try discriminate.
  all: injection H as <-.
  all: unfold entry_ok;
    cbn [type mode name size set_name set_mtime set_size set_mode set_type].
  all: destruct (unix_type_synthetic _ _ _ Heqo) as (Hk & Hm & _).
  all: destruct name_buffer as [Hn [n Hn']].
  all: assert (Hs : starts_nonspace (skip_spaces s2) = true)
         by (apply skip_spaces_starts; now rewrite Heqs3).
  all: rewrite Heqs3 in Hs.
  all: refine (conj Hk (conj Hm (conj _ (conj _ _)))).
  all: try (rewrite Hn'; now apply starts_nonspace_strncpy, cut_arrow_starts).
  all: try (rewrite <- Hn; apply strlen_strncpy).
  all: change z0 with (fst (z0, s0)); rewrite <- Heqp1.
  all: apply (digits_loop_range wrap_off_t (- 2 ^ 63) (2 ^ 63));
    [intros; apply (wrap_range 64); lia | lia].
Qed.

Lemma windows_name_ok (p : string) :
  starts_nonspace p = true ->
  let nm := rstrip (strncpy p (Z.to_nat (MAX_PATH_LEN - 1))) in
  starts_nonspace nm = true /\ strlen nm <= MAX_PATH_LEN - 1.
Proof.
  intros Hp nm. destruct name_buffer as [Hn [n Hn']]. unfold nm. split.
  - rewrite Hn'. now apply rstrip_starts, starts_nonspace_strncpy.
  - etransitivity; [apply strlen_rstrip|].
    rewrite <- Hn. apply strlen_strncpy.
Qed.

Lemma parse_windows_listing_ok (line : string) (item it : ftp_item_t) :
  parse_windows_listing mktime hour0 min0 line item = (0, it) -> entry_ok it.
Proof.
  intros H. unfold parse_windows_listing in H.
  destruct (strlen line <? 20); [discriminate|].
  destruct (sscanf_date line) as [[[month day] year]|]; [|discriminate].
  cbv zeta in H.
  destruct (sscanf_time _ hour0 min0) as [[[n hour] min] ampm].
  set (p := skip_spaces (skip_nonspace (skip_spaces (advance line 8)))) in H.
  destruct (strncasecmp p "<DIR>" 5 =? 0).
  - destruct (skip_spaces (advance p 5)) as [|a s] eqn:E; [discriminate|].
    assert (Hs : starts_nonspace (String a s) = true)
      by (rewrite <- E; apply skip_spaces_starts; now rewrite E).
    destruct (windows_name_ok _ Hs) as [N1 N2].
    remember (rstrip (strncpy (String a s) (Z.to_nat (MAX_PATH_LEN - 1))))
      as nm eqn:Enm.
    injection H as <-. unfold entry_ok.
    cbn [type mode name size set_name set_mtime set_size set_mode set_type].
    refine (conj _ (conj eq_refl (conj N1 (conj N2 _)))); [discriminate | lia].
  - destruct (digits_loop wrap_off_t 0 p) as [sz p'] eqn:Hsz.
    destruct (skip_spaces p') as [|a s] eqn:E; [discriminate|].
    assert (Hs : starts_nonspace (String a s) = true)
      by (rewrite <- E; apply skip_spaces_starts; now rewrite E).
    destruct (windows_name_ok _ Hs) as [N1 N2].
    remember (rstrip (strncpy (String a s) (Z.to_nat (MAX_PATH_LEN - 1))))
      as nm eqn:Enm.
    injection H as <-. unfold entry_ok.
    cbn [type mode name size set_name set_mtime set_size set_mode set_type].
    refine (conj _ (conj eq_refl (conj N1 (conj N2 _)))); [discriminate|].
    change sz with (fst (sz, p')). rewrite <- Hsz.
    apply (digits_loop_range wrap_off_t (- 2 ^ 63) (2 ^ 63));
      [intros; apply (wrap_range 64); lia | lia].
Qed.

Lemma parse_windows_listing_code (line : string) (item : ftp_item_t) :
  fst (parse_windows_listing mktime hour0 min0 line item) = 0
  \/ fst (parse_windows_listing mktime hour0 min0 line item) = -1.
Proof.
  unfold parse_windows_listing.
  repeat match goal with
         | |- context [if ?b then _ else _] => destruct b
         | |- context [match ?x with _ => _ end] => destruct x
         end; simpl; auto.
Qed.

Lemma parse_ftp_listing_ok (line : string) (item it : ftp_item_t) :
  parse_ftp_listing mktime tm_now hour0 min0 line item = (0, it) ->
  entry_ok it.
Proof.
  unfold parse_ftp_listing.
  destruct (skip_spaces line) as [|c p]; [discriminate|].
  destruct ((byte c =? byte "d") || (byte c =? byte "-")
            || (byte c =? byte "l")); [apply parse_unix_listing_ok|].
  destruct (isdigit c); [apply parse_windows_listing_ok | discriminate].
Qed.

Lemma parsed_entry_ok (line : string) (it : ftp_item_t) :
  parsed_entry mktime tm_now hour0 min0 line = Some it -> entry_ok it.
Proof.
  unfold parsed_entry.
  destruct (parse_ftp_listing mktime tm_now hour0 min0 line zero_item)
    as [r it'] eqn:E.
  destruct (Z.eqb_spec r 0) as [->|]; [|discriminate].
  intros [= <-]. now apply parse_ftp_listing_ok in E.
Qed.

(** X14. [parse_ftp_listing] returns 0 or -1, and whatever [item] held
    before, an entry it accepts is a file, a directory or a link with the
    mode of its kind, a name of 1 to [MAX_PATH_LEN - 1] bytes that does
    not start with white space, and a size within [off_t]. *)
Theorem accepted_entry_is_sound (line : string) (item : ftp_item_t) :
  let r := parse_ftp_listing mktime tm_now hour0 min0 line item in
  (fst r = 0 \/ fst r = -1)
  /\ (fst r = 0 ->
      type (snd r) <> FTP_TYPE_UNKNOWN
      /\ mode (snd r) = synthetic_mode (type (snd r))
      /\ starts_nonspace (name (snd r)) = true
      /\ 1 <= strlen (name (snd r)) <= MAX_PATH_LEN - 1
      /\ - 2 ^ 63 <= size (snd r) < 2 ^ 63).
Proof.
  unfold parse_ftp_listing.
  destruct (skip_spaces line) as [|c p]; [split; [now right | discriminate]|].
  assert (Hok : forall it, entry_ok it ->
            type it <> FTP_TYPE_UNKNOWN
            /\ mode it = synthetic_mode (type it)
            /\ starts_nonspace (name it) = true
            /\ 1 <= strlen (name it) <= MAX_PATH_LEN - 1
            /\ - 2 ^ 63 <= size it < 2 ^ 63).
  { intros it (H1 & H2 & H3 & H4 & H5).
    refine (conj H1 (conj H2 (conj H3 (conj (conj _ H4) H5)))).
    apply nonempty_strlen. now apply starts_nonspace_nonempty. }
  destruct ((byte c =? byte "d") || (byte c =? byte "-")
            || (byte c =? byte "l")).
  - split; [apply parse_unix_listing_code|].
    destruct (parse_unix_listing mktime tm_now (String c p) zero_item)
      as [r it] eqn:E.
    simpl. intros ->. apply Hok. now apply parse_unix_listing_ok in E.
  - destruct (isdigit c); [|split; [now right | discriminate]].
    split; [apply parse_windows_listing_code|].
    destruct (parse_windows_listing mktime hour0 min0 (String c p) zero_item)
      as [r it] eqn:E.
    simpl. intros ->. apply Hok. now apply parse_windows_listing_ok in E.
Qed.

End Accepted.

Lemma rstrip_all_space (ws : string) : all_space ws = true -> rstrip ws = "".
Proof.
  induction ws as [|c ws IH]; simpl; [reflexivity|].
  intros H. apply andb_true_iff in H as [Hc Hws]. now rewrite IH, Hc.
Qed.

Lemma rstrip_app_space (r ws : string) :
  all_space ws = true -> rstrip (r +:+ ws) = rstrip r.
Proof.
  intros Hws. induction r as [|c r IH].
  - rewrite append_nil. now apply rstrip_all_space.
  - rewrite append_cons. simpl. now rewrite IH.
Qed.

Lemma last_byte_some (r : string) : r <> "" -> exists c, last_byte r = Some c.
Proof.
  induction r as [|c r IH]; [congruence|]. intros _.
  destruct r as [|d r]; [now exists c|].
  destruct IH as [e He]; [discriminate|]. now exists e.
Qed.

(** X15. The loop that strips the name of a Windows line removes the white
    space at its end and nothing else: the name is what was there less a
    tail of white space, it does not end with white space, and it is the
    only such cut. *)
Theorem rstrip_removes_the_tail (s : string) :
  (exists ws, all_space ws = true /\ s = rstrip s +:+ ws)
  /\ (forall c, last_byte (rstrip s) = Some c -> isspace c = false)
  /\ (forall r ws,
        s = r +:+ ws -> all_space ws = true ->
        (forall c, last_byte r = Some c -> isspace c = false) ->
        rstrip s = r).
Proof.
  split; [apply rstrip_decompose|]. split; [apply rstrip_last|].
  intros r ws -> Hws Hr. rewrite rstrip_app_space by exact Hws.
  destruct r as [|c r]; [reflexivity|].
  destruct (last_byte_some (String c r)) as [e He]; [discriminate|].
  now apply (rstrip_fixed _ e), Hr.
Qed.

(** ** The fields of a well-formed Unix line *)

Lemma digits_loop_value (wr : Z -> Z) (bound : Z) (d : string) :
  (forall z, 0 <= z < bound -> wr z = z) ->
  all_digits d = true ->
  forall acc, 0 <= acc -> decimal_from acc d < bound ->
  fst (digits_loop wr acc d) = decimal_from acc d.
Proof.
  intros Hwr. induction d as [|c d IH]; simpl; intros H acc Hacc Hb;
    [reflexivity|].
  apply andb_true_iff in H as [Hc Hd]. rewrite Hc.
  pose proof (isdigit_value c Hc) as Hv.
  pose proof (decimal_from_mono d Hd (acc * 10 + (byte c - 48)) ltac:(lia)).
  rewrite Hwr by lia. apply IH; [exact Hd | lia | exact Hb].
Qed.

Lemma digits_int (d : string) :
  number d -> decimal d < 2 ^ 31 ->
  fst (digits_loop wrap_int 0 d) = decimal d.
Proof.
  intros [Hd _] Hb. apply (digits_loop_value wrap_int (2 ^ 31)); try lia;
    try assumption.
  intros z Hz. apply wrap_int_id. lia.
Qed.

Lemma digits_off_t (d : string) :
  number d -> decimal d < 2 ^ 63 ->
  fst (digits_loop wrap_off_t 0 d) = decimal d.
Proof.
  intros [Hd _] Hb. apply (digits_loop_value wrap_off_t (2 ^ 63)); try lia;
    try assumption.
  intros z Hz. apply wrap_off_t_id. lia.
Qed.

Lemma decimal_nonneg (d : string) : all_digits d = true -> 0 <= decimal d.
Proof. intros H. apply (decimal_from_mono d H 0). lia. Qed.

Lemma parse_month_index (m : string) :
  m ∈ months ->
  0 <= parse_month m < 12 /\ months !! Z.to_nat (parse_month m) = Some m.
Proof.
  unfold months. intros H.
  repeat (apply elem_of_cons in H as [->|H];
          [split; [split; discriminate || reflexivity | reflexivity]|]).
  now apply elem_of_nil in H.
Qed.

Lemma strchr_digits (d r : string) :
  all_digits d = true -> strchr (d +:+ r) ":" = strchr r ":".
Proof.
  induction d as [|c d IH]; intros H; [now rewrite append_nil|].
  simpl in H. apply andb_true_iff in H as [Hc Hd].
  rewrite append_cons. simpl.
  assert (E : (byte c =? byte ":") = false).
  { apply Z.eqb_neq. intros Hb. apply byte_inj in Hb. now subst c. }
  rewrite E. now apply IH.
Qed.

Lemma strchr_spaces (g r : string) :
  all_space g = true -> strchr (g +:+ r) ":" = strchr r ":".
Proof.
  induction g as [|c g IH]; intros H; [now rewrite append_nil|].
  simpl in H. apply andb_true_iff in H as [Hc Hg].
  rewrite append_cons. simpl.
  assert (E : (byte c =? byte ":") = false).
  { apply Z.eqb_neq. intros Hb. apply byte_inj in Hb. now subst c. }
  rewrite E. now apply IH.
Qed.

Section UnixFields.

Variable mktime : tm -> Z.
Variable tm_now : tm.

Lemma this_year :
  0 <= tm_year tm_now < 2 ^ 31 - 1900 ->
  wrap_int (wrap_int (tm_year tm_now + 1900) - 1900) = tm_year tm_now.
Proof.
  intros H. rewrite (wrap_int_id (tm_year tm_now + 1900)) by lia.
  replace (tm_year tm_now + 1900 - 1900) with (tm_year tm_now) by lia.
  apply wrap_int_id. lia.
Qed.

Lemma parse_unix_listing_fields (l : unix_line) (item : ftp_item_t) ty md :
  unix_line_wf l -> unix_line_small l ->
  0 <= tm_year tm_now < 2 ^ 31 - 1900 ->
  unix_type (ul_type l) = Some (ty, md) ->
  parse_unix_listing mktime tm_now (unix_line_text l) item
  = (0, mk_item (strncpy (cut_arrow (ul_rest l))
                         (Z.to_nat (MAX_PATH_LEN - 1)))
                ty (decimal (ul_size l))
                (mktime (unix_line_tm tm_now l (parse_month (ul_month l))))
                md).
Proof.
  intros Hwf Hsmall Hnow Hty. unfold parse_unix_listing.
  rewrite (unix_line_long l Hwf). revert Hwf Hsmall Hty.
  destruct l as [c perms links owner group sz mon day w rest
                   [[[[[[[g1 g2] g3] g4] g5] g6] g7] g8]].
  unfold unix_line_wf, unix_line_text, unix_line_small, unix_line_tm.
  cbn [ul_type ul_perms ul_links ul_owner ul_group ul_size ul_month ul_day
       ul_when ul_rest ul_gaps].
  intros (Hperms & Hlinks & Howner & Hgroup & Hsz & Hmon & Hday & Hw & Hrest
          & G1 & G2 & G3 & G4 & G5 & G6 & G7 & G8) (Bsz & Bday & Bw) Hty.
  rewrite append_cons, Hty. cbv beta iota zeta.
  rewrite (skip_field perms g1) by field_side.
  rewrite (skip_field links g2) by field_side.
  rewrite (skip_field owner g3) by field_side.
  rewrite (skip_field group g4) by field_side.
  rewrite (digits_loop_app wrap_off_t sz) by field_side.
  rewrite (digits_off_t sz Hsz Bsz).
  cbv beta iota zeta.
  rewrite (skip_spaces_gap g5) by field_side.
  destruct (month_step mon
              (g6 +:+ day +:+ g7 +:+ when_text w +:+ g8 +:+ rest) Hmon)
    as (M1 & M2 & M3 & M4).
  rewrite M1, M2, M3, M4. cbv beta iota zeta.
  rewrite (skip_spaces_gap g6) by field_side.
  rewrite (digits_loop_app wrap_int day) by field_side.
  rewrite (digits_int day Hday Bday).
  cbv beta iota zeta.
  assert (Hrest' : skip_spaces (g8 +:+ rest) = rest)
    by (apply skip_spaces_gap; field_side).
  pose proof (decimal_nonneg day (proj1 Hday)) as Pday.
  destruct w as [hh mm | yyyy]; cbn [when_text when_wf] in *.
  - destruct Hw as [Hhh Hmm]. destruct Bw as [Bhh Bmm].
    rewrite (skip_spaces_gap g7) by (rewrite ?append_assoc; field_side).
    rewrite !append_assoc.
    change (":" +:+ mm +:+ g8 +:+ rest) with (String ":" (mm +:+ g8 +:+ rest)).
    rewrite strchr_app.
    rewrite (digits_loop_app wrap_int hh) by field_side.
    rewrite (digits_int hh Hhh Bhh).
    cbv beta iota zeta. rewrite Z.eqb_refl.
    rewrite (digits_loop_app wrap_int mm) by field_side.
    rewrite (digits_int mm Hmm Bmm).
    cbv beta iota zeta. rewrite Hrest', name_present by exact Hrest.
    rewrite (this_year Hnow). reflexivity.
  - rewrite (skip_spaces_gap g7) by field_side.
    pose proof (decimal_nonneg yyyy (proj1 Hw)) as Pyyyy.
    assert (Hcolon : strchr (yyyy +:+ g8 +:+ rest) ":" = strchr rest ":").
    { rewrite (strchr_digits yyyy) by apply Hw.
      apply strchr_spaces, G8. }
    rewrite Hcolon.
    destruct (strchr rest ":").
    + rewrite (digits_loop_app wrap_int yyyy) by field_side.
      rewrite (digits_int yyyy Hw Bw).
      cbv beta iota zeta.
      destruct (gap_cons g8 G8) as (s & g8' & E & Hs & Hg8').
      rewrite E in *. rewrite append_cons in *.
      assert (Hc : (byte s =? byte ":") = false).
      { apply Z.eqb_neq. intros Hb. apply byte_inj in Hb. now subst s. }
      rewrite Hc.
      assert (Hd : digits_loop wrap_int 0 (String s (g8' +:+ rest))
                   = (0, String s (g8' +:+ rest))).
      { simpl. now rewrite (isspace_not_digit s Hs). }
      rewrite Hd. cbv beta iota zeta.
      rewrite Hrest', name_present by exact Hrest.
      rewrite (this_year Hnow). reflexivity.
    + rewrite (digits_loop_app wrap_int yyyy) by field_side.
      rewrite (digits_int yyyy Hw Bw).
      cbv beta iota zeta. rewrite Hrest', name_present by exact Hrest.
      rewrite (wrap_int_id (decimal yyyy - 1900)) by lia. reflexivity.
Qed.

End UnixFields.

Section UnixLine.

Variable mktime : tm -> Z.
Variable tm_now : tm.

(** X16. The fields of a well-formed Unix line whose numerals fit their
    integer types come out as written: the kind and the mode of the type
    byte, the size column in decimal, and a time stamp built from the
    number of the month, the day and either the time of day in the current
    year or midnight in the year given.  When the name holds a colon, a
    year column is read as the hour, in the current year. *)
Theorem unix_line_fields (l : unix_line) (item : ftp_item_t) :
  unix_line_wf l -> unix_line_small l ->
  0 <= tm_year tm_now < 2 ^ 31 - 1900 ->
  ul_type l = "d"%char \/ ul_type l = "-"%char \/ ul_type l = "l"%char ->
  let r := parse_unix_listing mktime tm_now (unix_line_text l) item in
  let kind := kind_of_byte (ul_type l) in
  fst r = 0
  /\ type (snd r) = kind
  /\ mode (snd r) = synthetic_mode kind
  /\ size (snd r) = decimal (ul_size l)
  /\ exists mon,
       months !! Z.to_nat mon = Some (ul_month l) /\ 0 <= mon < 12
       /\ mtime (snd r) = mktime (unix_line_tm tm_now l mon).
Proof.
  intros Hwf Hsmall Hnow Hc r kind.
  destruct (unix_type_cases _ Hc) as (ty & md & Hty & _).
  destruct (unix_type_synthetic _ _ _ Hty) as (_ & Hmd & Hk).
  unfold r.
  rewrite (parse_unix_listing_fields mktime tm_now l item ty md
             Hwf Hsmall Hnow Hty).
  cbn [fst snd type mode size mtime]. fold kind in Hk. subst ty md.
  refine (conj eq_refl (conj eq_refl (conj eq_refl (conj eq_refl _)))).
  exists (parse_month (ul_month l)).
  assert (Hm : ul_month l ∈ months).
  { destruct l as [c perms links owner group sz mon day w rest
                     [[[[[[[g1 g2] g3] g4] g5] g6] g7] g8]].
    apply Hwf. }
  destruct (parse_month_index _ Hm) as [Hr Hi].
  now repeat split.
Qed.

End UnixLine.

Lemma unix_line_fields_witness :
  let l := file_with_arrow in
  let r := parse_unix_listing mktime_utc tm_2026 (unix_line_text l) zero_item in
  let kind := kind_of_byte (ul_type l) in
  fst r = 0
  /\ type (snd r) = kind
  /\ mode (snd r) = synthetic_mode kind
  /\ size (snd r) = decimal (ul_size l)
  /\ exists mon,
       months !! Z.to_nat mon = Some (ul_month l) /\ 0 <= mon < 12
       /\ mtime (snd r) = mktime_utc (unix_line_tm tm_2026 l mon).
Proof.
  apply (unix_line_fields mktime_utc tm_2026 file_with_arrow zero_item).
  - repeat split; try reflexivity; try discriminate. constructor.
  - repeat split; reflexivity.
  - split; [discriminate | reflexivity].
  - right. left. reflexivity.
Defined.

(** A name with a colon: the year 2023 ends up as the hour, and the year
    is the current one. *)
Example year_with_colon_in_name :
  parse_unix_listing mktime_utc tm_2026
    "-rw-r--r-- 1 u g 7 Jan  1  2023 a:b" zero_item
  = (0, mk_item "a:b" FTP_TYPE_FILE 7
                (mktime_utc (mk_tm 0 0 2023 1 0 126))
                (Z.lor S_IFREG perm_0644)).
Proof. reflexivity. Qed.

(** ** The lines of a listing *)

Lemma strtok_loop_app (a b tok : string) :
  strtok_loop (a +:+ String LF b) tok
  = strtok_loop a tok ++ strtok_loop b "".
Proof.
  revert tok. induction a as [|c a IH]; intros tok.
  - rewrite append_nil. simpl. now destruct tok.
  - rewrite append_cons. simpl. destruct (byte c =? 10).
    + destruct tok; rewrite IH; reflexivity.
    + apply IH.
Qed.

Lemma strtok_loop_line (s tok : string) :
  strchr s LF = false -> tok +:+ s <> "" ->
  strtok_loop s tok = [tok +:+ s].
Proof.
  revert tok. induction s as [|c s IH]; intros tok Hs Hne.
  - simpl. destruct tok; [now rewrite append_nil in Hne|].
    f_equal. clear. induction (String a tok) as [|x t IHt]; [reflexivity|].
    rewrite append_cons. now rewrite <- IHt.
  - simpl in Hs. change (byte LF) with 10 in Hs. simpl.
    destruct (byte c =? 10); [discriminate|].
    rewrite IH.
    + now rewrite append_assoc, append_cons, append_nil.
    + exact Hs.
    + rewrite append_assoc, append_cons, append_nil.
      destruct tok; [rewrite append_nil; discriminate|].
      rewrite append_cons. discriminate.
Qed.

Lemma strchr_append (a b : string) (c : ascii) :
  strchr (a +:+ b) c = strchr a c || strchr b c.
Proof.
  induction a as [|x a IH]; [now rewrite append_nil|].
  rewrite append_cons. simpl. now destruct (byte x =? byte c).
Qed.

Lemma strtok_loop_tokens (data tok t : string) :
  strchr tok LF = false ->
  t ∈ strtok_loop data tok -> t <> "" /\ strchr t LF = false.
Proof.
  revert tok. induction data as [|c data IH]; intros tok Htok; simpl.
  - destruct tok; [intros H; now apply elem_of_nil in H|].
    intros H. apply list_elem_of_singleton in H. now subst t.
  - destruct (Z.eqb_spec (byte c) 10) as [E|E].
    + destruct tok.
      * apply IH. reflexivity.
      * intros H. apply elem_of_cons in H as [->|H]; [now split|].
        revert H. apply IH. reflexivity.
    + apply IH. rewrite strchr_append, Htok. simpl.
      change (byte LF) with 10. apply Z.eqb_neq in E. now rewrite E.
Qed.

(** X17. The two [strtok] passes of [ftp_list_dir] see the maximal runs of
    bytes other than the line feed: a text without line feed is one line
    (none when it is empty), the lines of [a LF b] are those of [a]
    followed by those of [b], and no line is empty or holds a line feed. *)
Theorem strtok_lines_split :
  strtok_lines "" = []
  /\ (forall s, strchr s LF = false -> s <> "" -> strtok_lines s = [s])
  /\ (forall a b,
        strtok_lines (a +:+ String LF b) = strtok_lines a ++ strtok_lines b)
  /\ (forall data t,
        t ∈ strtok_lines data -> t <> "" /\ strchr t LF = false).
Proof.
  unfold strtok_lines. split; [reflexivity|]. split; [|split].
  - intros s Hs Hne. rewrite strtok_loop_line; now rewrite ?append_nil.
  - intros a b. apply strtok_loop_app.
  - intros data t. now apply strtok_loop_tokens.
Qed.

Section Listing.

Variable mktime : tm -> Z.
Variable tm_now : tm.
Variables hour0 min0 : Z.
Variable curl_easy_perform : ftp_request -> Z * string.

Lemma list_dir_parse_length (data : string) :
  length (fst (list_dir_parse mktime tm_now hour0 min0 data))
  = length (strtok_lines (c_str data)).
Proof.
  unfold list_dir_parse.
  pose proof (parse_lines_spec mktime tm_now hour0 min0
                (strtok_lines (c_str data))
                (replicate (length (strtok_lines (c_str data))) zero_item)
                0 (length (strtok_lines (c_str data)))) as H.
  rewrite length_replicate in H.
  specialize (H ltac:(lia) ltac:(lia)). cbv zeta in H.
  destruct H as (_ & Hl & _). exact Hl.
Qed.

Lemma omap_length_le {A B : Type} (f : A -> option B) (l : list A) :
  (length (omap f l) <= length l)%nat.
Proof.
  induction l as [|x l IH]; [simpl; lia|].
  cbn [omap list_omap]. destruct (f x); simpl in *; lia.
Qed.

(** X18. What [ftp_list_dir] hands back.  When the transfer fails it
    returns -1 and leaves the caller's empty array and zero count; when it
    succeeds it returns 0 with an array of one slot per line of the
    response and a count between 0 and that number, and each of the first
    [count] slots holds a sound entry: a known kind with its mode and a
    name that is not empty. *)
Theorem ftp_list_dir_result (path : string) :
  let res := curl_easy_perform (LIST path) in
  let '(ret, items, count) :=
    ftp_list_dir mktime tm_now hour0 min0 curl_easy_perform path in
  (fst res <> CURLE_OK -> ret = -1 /\ items = [] /\ count = 0)
  /\ (fst res = CURLE_OK ->
      ret = 0
      /\ length items = length (strtok_lines (c_str (snd res)))
      /\ 0 <= count <= Z.of_nat (length items)
      /\ Forall entry_ok (take (Z.to_nat count) items)).
Proof.
  unfold ftp_list_dir.
  destruct (curl_easy_perform (LIST path)) as [code data]. cbn [fst snd].
  destruct (Z.eqb_spec code CURLE_OK) as [->|Hne]; cbn [negb].
  - pose proof (list_dir_parse_spec mktime tm_now hour0 min0 data) as H.
    pose proof (list_dir_parse_length data) as Hl.
    cbv zeta in H.
    destruct (list_dir_parse mktime tm_now hour0 min0 data) as [items count].
    cbn [fst snd] in *. destruct H as [Hc Ht].
    split; [congruence|]. intros _.
    split; [reflexivity|]. split; [exact Hl|].
    pose proof (omap_length_le (parsed_entry mktime tm_now hour0 min0)
                  (strtok_lines (c_str data))).
    split; [lia|]. rewrite Nat2Z.id, Ht.
    apply Forall_forall. intros it Hit.
    apply list_elem_of_omap in Hit as (line & _ & Hline).
    now apply parsed_entry_ok in Hline.
  - split; [now intros _ | contradiction].
Qed.

End Listing.

(** ** The response buffer *)

Lemma append_nil_r (a : string) : a +:+ "" = a.
Proof. induction a as [|c a IH]; [reflexivity|]. now rewrite append_cons, IH. Qed.

Lemma write_callback_step (chunk : string) (buf : response_buffer_t) :
  rb_size buf = strlen (rb_data buf) ->
  (strlen (rb_data buf) + strlen chunk) * 2 + 1024 < 2 ^ 64 ->
  let buf' := snd (write_callback chunk buf) in
  rb_data buf' = rb_data buf +:+ chunk
  /\ rb_size buf' = strlen (rb_data buf')
  /\ rb_size buf' < rb_capacity buf'
  /\ rb_capacity buf <= rb_capacity buf'.
Proof.
  intros Hs Hb. unfold write_callback. cbn [snd rb_data rb_size rb_capacity].
  pose proof (strlen_nonneg (rb_data buf)). pose proof (strlen_nonneg chunk).
  rewrite Hs, strlen_append. unfold wrap_size_t.
  rewrite (Z.mod_small (strlen (rb_data buf) + strlen chunk)) by lia.
  split; [reflexivity|]. split; [reflexivity|].
  destruct (Z.geb_spec (strlen (rb_data buf) + strlen chunk) (rb_capacity buf)).
  - rewrite Z.mod_small by lia. lia.
  - lia.
Qed.

(** X19. The write callback keeps the response buffer well formed.  From a
    buffer whose size is the length of its data, and for as long as twice
    the bytes received plus 1024 stays below 2^64, after any sequence of
    chunks the data are the bytes received so far followed by the chunks
    in order, the size is their number and stays below the capacity, so
    that the zero byte written after the data lies inside the allocation;
    the capacity never shrinks. *)
Theorem response_buffer_accumulates (chunks : list string)
  (buf : response_buffer_t) :
  rb_size buf = strlen (rb_data buf) ->
  rb_size buf < rb_capacity buf ->
  (strlen (rb_data buf) + strlen (stream chunks)) * 2 + 1024 < 2 ^ 64 ->
  let buf' := received chunks buf in
  rb_data buf' = rb_data buf +:+ stream chunks
  /\ rb_size buf' = strlen (rb_data buf')
  /\ rb_size buf' < rb_capacity buf'
  /\ rb_capacity buf <= rb_capacity buf'.
Proof.
  revert buf. induction chunks as [|chunk chunks IH]; intros buf Hs Hc Hb.
  - simpl. rewrite append_nil_r. repeat split; try assumption. lia.
  - change (stream (chunk :: chunks)) with (chunk +:+ stream chunks) in *.
    change (received (chunk :: chunks) buf)
      with (received chunks (snd (write_callback chunk buf))).
    rewrite strlen_append in Hb.
    pose proof (strlen_nonneg (stream chunks)).
    pose proof (strlen_nonneg chunk).
    pose proof (strlen_nonneg (rb_data buf)).
    destruct (write_callback_step chunk buf Hs ltac:(lia))
      as (Hd & Hs' & Hc' & Hcap).
    cbv zeta in Hd, Hs', Hc', Hcap.
    specialize (IH (snd (write_callback chunk buf)) Hs' Hc').
    rewrite Hd, strlen_append in IH. specialize (IH ltac:(lia)).
    cbv zeta in IH. destruct IH as (I1 & I2 & I3 & I4).
    cbv zeta. refine (conj _ (conj I2 (conj I3 _))); [|lia].
    now rewrite I1, append_assoc.
Qed.

Lemma response_buffer_accumulates_witness :
  let buf' := received ["ab"; ""; "c"] fresh_buffer in
  rb_data buf' = rb_data fresh_buffer +:+ stream ["ab"; ""; "c"]
  /\ rb_size buf' = strlen (rb_data buf')
  /\ rb_size buf' < rb_capacity buf'
  /\ rb_capacity fresh_buffer <= rb_capacity buf'.
Proof.
  apply (response_buffer_accumulates ["ab"; ""; "c"] fresh_buffer);
    reflexivity.
Defined.

(** ** The URL path *)

Lemma components_cons (p : string) : exists h t, components p = h :: t.
Proof.
  induction p as [|c p (h & t & IH)]; [now exists "", []|].
  simpl. destruct (byte c =? byte "/"); [now eexists _, _|].
  rewrite IH. now eexists _, _.
Qed.

Lemma components_no_slash (p : string) :
  strchr_off p "/" = None -> components p = [p].
Proof.
  induction p as [|c p IH]; [reflexivity|]. simpl.
  destruct (byte c =? byte "/"); [discriminate|].
  destruct (strchr_off p "/"); [discriminate|]. intros _.
  now rewrite IH.
Qed.

Lemma components_slash (p : string) (k : nat) :
  strchr_off p "/" = Some k ->
  components p = strncpy p k :: components (advance p (S k))
  /\ (String.length (advance p (S k)) < String.length p)%nat
  /\ String.length (strncpy p k) = k.
Proof.
  revert k. induction p as [|c p IH]; [discriminate|]. simpl. intros k.
  destruct (byte c =? byte "/").
  - intros [= <-]. simpl. split; [now destruct p|].
    split; [destruct p; simpl; lia | reflexivity].
  - destruct (strchr_off p "/") as [j|]; [|discriminate].
    intros [= <-]. destruct (IH j eq_refl) as (Hc & Hl & Hn).
    rewrite Hc. simpl in *. split; [reflexivity|].
    split; [lia | now rewrite Hn].
Qed.

Lemma strncpy_length (p : string) :
  strncpy p (String.length p) = p.
Proof. apply strncpy_short. lia. Qed.

Lemma strncpy_strncpy (p : string) (n m : nat) :
  (m <= n)%nat -> strncpy (strncpy p n) m = strncpy p m.
Proof.
  revert n m. induction p as [|c p IH]; intros [|n] [|m] H; simpl;
    try reflexivity; try lia.
  rewrite IH by lia. reflexivity.
Qed.

Lemma strncpy_min (p : string) (n m : nat) :
  String.length (strncpy p n) = n -> (n <= m)%nat ->
  strncpy p n = strncpy (strncpy p n) m.
Proof. intros Hn Hm. symmetry. apply strncpy_short. lia. Qed.

Section UrlPath.

Variable curl_easy_escape : string -> option string.
Variable out_len : Z.

Lemma encode_loop_bound (fuel : nat) :
  forall p out,
    strlen out <= out_len - 1 ->
    strlen (encode_loop curl_easy_escape out_len fuel p out) <= out_len - 1.
Proof.
  induction fuel as [|fuel IH]; intros p out Hout; [exact Hout|].
  cbn [encode_loop]. destruct p as [|c p]; [exact Hout|].
  destruct (Z.ltb_spec (strlen out) (out_len - 1)); [|exact Hout].
  set (out1 := if (0 <? _)%nat then _ else out).
  assert (H1 : strlen out1 <= out_len - 1).
  { unfold out1. destruct (0 <? _)%nat; [|exact Hout].
    destruct (curl_easy_escape _) as [e|]; [|exact Hout].
    destruct (Z.ltb_spec (strlen out + strlen e) (out_len - 1));
      [|exact Hout].
    rewrite strlen_append. lia. }
  clearbody out1.
  destruct (strchr_off (String c p) "/") as [k|]; [|exact H1].
  apply IH. destruct (Z.ltb_spec (strlen out1) (out_len - 1)); [|exact H1].
  rewrite strlen_append. change (strlen "/") with 1. lia.
Qed.

Lemma encode_loop_extends (fuel : nat) :
  forall p out,
    exists t, encode_loop curl_easy_escape out_len fuel p out = out +:+ t.
Proof.
  induction fuel as [|fuel IH]; intros p out;
    [exists ""; now rewrite append_nil_r|].
  cbn [encode_loop]. destruct p as [|c p];
    [exists ""; now rewrite append_nil_r|].
  destruct (strlen out <? out_len - 1);
    [|exists ""; now rewrite append_nil_r].
  set (out1 := if (0 <? _)%nat then _ else out).
  assert (H1 : exists t, out1 = out +:+ t).
  { unfold out1. destruct (0 <? _)%nat;
      [|exists ""; now rewrite append_nil_r].
    destruct (curl_easy_escape _) as [e|];
      [|exists ""; now rewrite append_nil_r].
    destruct (strlen out + strlen e <? out_len - 1);
      [now exists e | exists ""; now rewrite append_nil_r]. }
  clearbody out1. destruct H1 as [t1 ->].
  destruct (strchr_off (String c p) "/") as [k|]; [|now exists t1].
  destruct (IH (advance (String c p) (S k))
               (if strlen (out +:+ t1) <? out_len - 1
                then (out +:+ t1) +:+ "/" else out +:+ t1)) as [t2 ->].
  destruct (strlen (out +:+ t1) <? out_len - 1).
  - exists (t1 +:+ "/" +:+ t2). now rewrite !append_assoc.
  - exists (t1 +:+ t2). now rewrite !append_assoc.
Qed.

Lemma escaped_component (p : string) (n : nat) :
  (0 < n)%nat -> String.length (strncpy p n) = n ->
  default "" (curl_easy_escape
                (strncpy p (if (256 <=? n)%nat then 255%nat else n)))
  = escaped curl_easy_escape (strncpy p n).
Proof.
  intros Hn Hl. unfold escaped. pose proof Hl as Hl'.
  destruct (strncpy p n) as [|c s] eqn:E; [simpl in Hl; lia|].
  rewrite <- E in *. f_equal. f_equal.
  destruct (Nat.leb_spec 256 n).
  - rewrite strncpy_strncpy by lia. reflexivity.
  - symmetry. apply strncpy_short. lia.
Qed.

Lemma component_step (p out : string) (n : nat) :
  (0 < n)%nat -> String.length (strncpy p n) = n ->
  strlen out + strlen (escaped curl_easy_escape (strncpy p n)) < out_len - 1 ->
  match curl_easy_escape
          (strncpy p (if (256 <=? n)%nat then 255%nat else n)) with
  | Some encoded =>
      if strlen out + strlen encoded <? out_len - 1
      then out +:+ encoded else out
  | None => out
  end = out +:+ escaped curl_easy_escape (strncpy p n).
Proof.
  intros Hn Hl. rewrite <- (escaped_component p n Hn Hl).
  destruct (curl_easy_escape _) as [e|]; simpl.
  - intros Hroom. destruct (Z.ltb_spec (strlen out + strlen e) (out_len - 1));
      [reflexivity | lia].
  - intros _. now rewrite append_nil_r.
Qed.

Lemma url_path_slash (p : string) (k : nat) :
  strchr_off p "/" = Some k ->
  url_path curl_easy_escape p
  = escaped curl_easy_escape (strncpy p k) +:+ "/"
    +:+ url_path curl_easy_escape (advance p (S k)).
Proof.
  intros Hs. unfold url_path.
  destruct (components_slash _ _ Hs) as (-> & _ & _).
  destruct (components_cons (advance p (S k))) as (h & t & ->).
  reflexivity.
Qed.

Lemma url_path_no_slash (p : string) :
  strchr_off p "/" = None ->
  url_path curl_easy_escape p = escaped curl_easy_escape p.
Proof. intros Hs. unfold url_path. now rewrite components_no_slash. Qed.

Lemma encode_loop_spec (fuel : nat) :
  forall p out,
    (String.length p <= fuel)%nat ->
    strlen (out +:+ url_path curl_easy_escape p) < out_len - 1 ->
    encode_loop curl_easy_escape out_len fuel p out
    = out +:+ url_path curl_easy_escape p.
Proof.
  induction fuel as [|fuel IH]; intros p out Hfuel Hroom.
  - destruct p; [|simpl in Hfuel; lia]. simpl.
    unfold url_path. simpl. now rewrite append_nil_r.
  - cbn [encode_loop]. destruct p as [|c p].
    { unfold url_path. simpl. now rewrite append_nil_r. }
    rewrite strlen_append in Hroom.
    destruct (strchr_off (String c p) "/") as [k|] eqn:Hs.
    + rewrite (url_path_slash _ _ Hs) in *.
      destruct (components_slash _ _ Hs) as (_ & Hl & Hn).
      rewrite !strlen_append in Hroom. change (strlen "/") with 1 in Hroom.
      pose proof (strlen_nonneg
                    (escaped curl_easy_escape (strncpy (String c p) k))).
      pose proof (strlen_nonneg
                    (url_path curl_easy_escape (advance (String c p) (S k)))).
      destruct (Z.ltb_spec (strlen out) (out_len - 1)); [|lia].
      set (out1 := if (0 <? k)%nat then _ else out).
      assert (Hout1 : out1
                   = out +:+ escaped curl_easy_escape (strncpy (String c p) k)).
      { unfold out1. destruct (Nat.ltb_spec 0 k).
        - apply component_step; [assumption | assumption | lia].
        - replace k with O by lia. simpl. now rewrite append_nil_r. }
      clearbody out1. subst out1.
      rewrite strlen_append.
      destruct (Z.ltb_spec
                  (strlen out
                   + strlen (escaped curl_easy_escape
                               (strncpy (String c p) k)))
                  (out_len - 1)); [|lia].
      rewrite IH.
      * now rewrite !append_assoc.
      * lia.
      * rewrite !strlen_append. change (strlen "/") with 1. lia.
    + rewrite (url_path_no_slash _ Hs) in *.
      pose proof (strlen_nonneg (escaped curl_easy_escape (String c p))).
      destruct (Z.ltb_spec (strlen out) (out_len - 1)); [|lia].
      change (0 <? String.length (String c p))%nat with true. cbv iota.
      pose proof (component_step (String c p) out
                    (String.length (String c p))) as Hstep.
      rewrite strncpy_length in Hstep. apply Hstep.
      * simpl. lia.
      * reflexivity.
      * exact Hroom.
Qed.

Lemma last_byte_app_slash (out : string) : last_byte (out +:+ "/") = Some "/"%char.
Proof.
  induction out as [|c out IH]; [reflexivity|].
  rewrite append_cons. simpl. rewrite IH.
  destruct (out +:+ "/") eqn:E; [|reflexivity].
  destruct out; discriminate.
Qed.

Lemma join_slash_cons (x h : string) (t : list string) :
  join_slash (x :: h :: t) = x +:+ "/" +:+ join_slash (h :: t).
Proof. reflexivity. Qed.

Lemma join_components (p : string) : join_slash (components p) = p.
Proof.
  induction p as [|c p IH]; [reflexivity|]. cbn [components].
  destruct (components_cons p) as (h & t & E). rewrite E in *.
  destruct (byte_eqb_true c "/") as [H1 H2].
  destruct (byte c =? byte "/").
  - rewrite (H1 eq_refl), join_slash_cons, IH. reflexivity.
  - destruct t as [|x t].
    + simpl in *. now rewrite IH.
    + rewrite join_slash_cons in *. rewrite append_cons. now rewrite IH.
Qed.

(** X20. [encode_ftp_path] never writes past the buffer.  It fails only for
    a buffer of size 0; otherwise, whatever the path and whatever the
    escaping function returns, the string it leaves has at most
    [out_len - 1] bytes, begins with a slash when the buffer has room for
    one, and for a directory ends with a slash unless the buffer is
    full. *)
Theorem encode_ftp_path_bounded (path : string) (is_dir : bool) :
  (out_len = 0 ->
   encode_ftp_path curl_easy_escape out_len path is_dir = None)
  /\ (0 < out_len ->
      exists out,
        encode_ftp_path curl_easy_escape out_len path is_dir = Some out
        /\ strlen out <= out_len - 1
        /\ (2 <= out_len -> exists r, out = String "/" r)
        /\ (is_dir = true -> strlen out < out_len - 1 ->
            ends_with_slash out = true)).
Proof.
  unfold encode_ftp_path. split; [now intros -> |]. intros Hlen.
  destruct (Z.eqb_spec out_len 0) as [|_]; [lia|].
  set (out0 := if 0 <? out_len - 1 then "/" else "").
  set (p := match path with "" => path | String c p' => _ end).
  assert (H0 : strlen out0 <= out_len - 1).
  { unfold out0. destruct (Z.ltb_spec 0 (out_len - 1)).
    - change (strlen "/") with 1. lia.
    - change (strlen "") with 0. lia. }
  pose proof (encode_loop_bound (String.length p) p out0 H0) as Hb.
  destruct (encode_loop_extends (String.length p) p out0) as [t Ht].
  set (out := encode_loop curl_easy_escape out_len (String.length p) p out0)
    in *.
  eexists. split; [reflexivity|].
  fold (ends_with_slash out).
  destruct (Z.ltb_spec (strlen out) (out_len - 1)) as [Hroom|Hfull].
  - destruct (Z.ltb_spec 0 (strlen out)) as [Hpos|Hzero].
    + destruct (ends_with_slash out) eqn:El.
      * rewrite !andb_false_r, andb_false_l. cbn [negb andb].
        refine (conj Hb (conj _ _)); [|now intros _ _].
        intros H2. rewrite Ht. unfold out0.
        destruct (Z.ltb_spec 0 (out_len - 1)); [|lia].
        exists t. reflexivity.
      * rewrite !andb_true_r. destruct is_dir; cbn [negb andb].
        -- rewrite strlen_append. change (strlen "/") with 1.
           split; [lia|]. split.
           ++ intros H2. rewrite Ht. unfold out0.
              destruct (Z.ltb_spec 0 (out_len - 1)); [|lia].
              exists (t +:+ "/"). now rewrite append_assoc.
           ++ intros _ _. unfold ends_with_slash.
              now rewrite last_byte_app_slash.
        -- refine (conj Hb (conj _ _)); [|discriminate].
           intros H2. rewrite Ht. unfold out0.
           destruct (Z.ltb_spec 0 (out_len - 1)); [|lia].
           exists t. reflexivity.
    + rewrite andb_false_r, !andb_false_l.
      refine (conj Hb (conj _ _)).
      * intros H2. rewrite Ht. unfold out0.
        destruct (Z.ltb_spec 0 (out_len - 1)); [|lia].
        exists t. reflexivity.
      * intros _ _. exfalso. pose proof (strlen_nonneg out).
        revert Hzero. rewrite Ht. unfold out0.
        destruct (Z.ltb_spec 0 (out_len - 1)); [|lia].
        rewrite strlen_append. change (strlen "/") with 1.
        pose proof (strlen_nonneg t). lia.
  - rewrite andb_false_r.
    refine (conj Hb (conj _ _)); [|intros _ ?; lia].
    intros H2. rewrite Ht. unfold out0.
    destruct (Z.ltb_spec 0 (out_len - 1)); [|lia].
    exists t. reflexivity.
Qed.

(** X21. With room in the buffer, [encode_ftp_path] writes a slash and then
    the components of the path, each replaced by the escape of its first
    255 bytes (by nothing when it is empty or the escape fails), with the
    slashes between them kept; one leading slash of the path is dropped,
    and for a directory a closing slash is added unless there is one.  A
    path whose components are at most 255 bytes long and are their own
    escapes comes out unchanged behind the leading slash. *)
Theorem encode_ftp_path_components (p : string) (is_dir : bool) :
  strlen (url_path curl_easy_escape p) + 2 < out_len - 1 ->
  let u := String "/" (url_path curl_easy_escape p) in
  let full := if is_dir && negb (ends_with_slash u) then u +:+ "/" else u in
  encode_ftp_path curl_easy_escape out_len (String "/" p) is_dir = Some full
  /\ (strncpy p 1 <> "/" ->
      encode_ftp_path curl_easy_escape out_len p is_dir = Some full)
  /\ ((forall c, c ∈ components p -> c <> "" ->
         (String.length c <= 255)%nat /\ curl_easy_escape c = Some c) ->
      url_path curl_easy_escape p = p).
Proof.
  intros Hroom u full.
  pose proof (strlen_nonneg (url_path curl_easy_escape p)) as Hu.
  assert (Hloop : encode_loop curl_easy_escape out_len (String.length p) p "/"
                  = u).
  { rewrite encode_loop_spec; [reflexivity | lia |].
    rewrite strlen_append. change (strlen "/") with 1. lia. }
  assert (Hfinal :
            (if is_dir && (0 <? strlen u)
                && negb (match last_byte u with
                         | Some c => byte c =? byte "/"
                         | None => false
                         end)
                && (strlen u <? out_len - 1)
             then u +:+ "/" else u) = full).
  { unfold full, ends_with_slash.
    assert (Hs : strlen u = 1 + strlen (url_path curl_easy_escape p))
      by apply strlen_cons.
    destruct (Z.ltb_spec 0 (strlen u)); [|lia].
    destruct (Z.ltb_spec (strlen u) (out_len - 1)); [|lia].
    now rewrite !andb_true_r. }
  assert (Hlen : (out_len =? 0) = false) by (apply Z.eqb_neq; lia).
  assert (Hfirst : (0 <? out_len - 1) = true) by (apply Z.ltb_lt; lia).
  split; [|split].
  - unfold encode_ftp_path. rewrite Hlen, Hfirst, Z.eqb_refl.
    cbv zeta. rewrite Hloop, Hfinal. reflexivity.
  - intros Hp. unfold encode_ftp_path. rewrite Hlen, Hfirst.
    assert (E : match p with
                | "" => p
                | String c p' => if byte c =? byte "/" then p' else p
                end = p).
    { destruct p as [|c p']; [reflexivity|].
      destruct (byte_eqb_true c "/") as [H1 _].
      destruct (byte c =? byte "/"); [|reflexivity].
      exfalso. apply Hp. rewrite (H1 eq_refl). now destruct p'. }
    rewrite E. cbv zeta. rewrite Hloop, Hfinal. reflexivity.
  - intros Hid. unfold url_path.
    rewrite <- (join_components p) at 2. f_equal.
    induction (components p) as [|c l IH]; [reflexivity|].
    cbn [fmap list_fmap]. f_equal.
    + destruct c as [|a c]; [reflexivity|].
      destruct (Hid (String a c)) as [Hc He]; [left | discriminate|].
      unfold escaped. rewrite strncpy_short by exact Hc. now rewrite He.
    + apply IH. intros d Hd. apply Hid. now right.
Qed.

End UrlPath.

Lemma encode_ftp_path_components_witness :
  let p := "my docs/a b" in
  let u := String "/" (url_path escape_space p) in
  let full := if true && negb (ends_with_slash u) then u +:+ "/" else u in
  encode_ftp_path escape_space 4096 (String "/" p) true = Some full
  /\ (strncpy p 1 <> "/" ->
      encode_ftp_path escape_space 4096 p true = Some full)
  /\ ((forall c, c ∈ components p -> c <> "" ->
         (String.length c <= 255)%nat /\ escape_space c = Some c) ->
      url_path escape_space p = p).
Proof.
  apply (encode_ftp_path_components escape_space 4096 "my docs/a b" true).
  reflexivity.
Defined.

(** The URL path of a directory whose name holds a space. *)
Example encode_ftp_path_my_docs :
  encode_ftp_path escape_space 4096 "/my docs/a b" true
  = Some "/my%20docs/a%20b/"
  /\ encode_ftp_path escape_space 4096 "/my docs/a b" false
     = Some "/my%20docs/a%20b"
  /\ encode_ftp_path escape_nothing 4096 "pub//x/" true = Some "/pub//x/"
  /\ encode_ftp_path escape_nothing 6 "/pub/x" false = Some "/pub/".
Proof. repeat split; reflexivity. Qed.

(** ** Reading and truncating *)

Section ReadTruncate.

Variable mktime : tm -> Z.
Variable tm_now : tm.
Variables hour0 min0 : Z.
Variable curl_easy_perform : ftp_request -> Z * string.

(** X22. [cftpfs_truncate] returns 0 whatever the server answers, sends the
    download of the file and then, if the download succeeded or the empty
    file could be created, the upload, and leaves the context as it is:
    the cached listing of the parent is kept, and a [cftpfs_getattr] of
    the file within the time-out still returns the attributes listed
    before, without a request. *)
Theorem truncate_keeps_cached_attributes (d x temp_path : string)
  (fd now later : Z) (w : world) :
  x <> "" -> strchr x "/" = false -> strlen d < MAX_PATH_LEN ->
  fst (cache_get (g_context w) d now) = None ->
  fst (curl_easy_perform (LIST d)) = CURLE_OK ->
  later - now <= effective_timeout (g_context w) ->
  let path := d +:+ String "/" x in
  let getattr := cftpfs_getattr mktime tm_now hour0 min0 curl_easy_perform in
  let first := getattr path now w in
  let truncated :=
    cftpfs_truncate curl_easy_perform path temp_path fd (snd first) in
  let uploads :=
    (fst (curl_easy_perform (RETR path temp_path)) =? CURLE_OK)
    || (fd >=? 0) in
  fst truncated = 0
  /\ g_context (snd truncated) = g_context (snd first)
  /\ wire (snd truncated)
     = wire w ++ [LIST d; RETR path temp_path]
       ++ (if uploads then [STOR temp_path path] else [])
  /\ getattr path later (snd truncated) = (fst first, snd truncated).
Proof.
  intros Hx Hslash Hd Hmiss Hok Ht path getattr first truncated uploads.
  unfold truncated, uploads, first, getattr, path.
  rewrite (getattr_miss mktime tm_now hour0 min0 curl_easy_perform
             d x now w Hx Hslash Hmiss Hok).
  cbv zeta. cbn [snd fst].
  set (parsed := list_dir_parse mktime tm_now hour0 min0
                   (snd (curl_easy_perform (LIST d)))).
  set (ctx1 := cache_put _ d _ _ now).
  set (p := d +:+ String "/" x).
  assert (Hc : dir_cache ctx1
               = mk_entry d (if Z.of_nat (snd parsed) >? 0
                             then fst parsed else [])
                          (Z.of_nat (snd parsed)) now
                 :: remove_first d
                      (dir_cache (snd (cache_get (g_context w) d now)))).
  { unfold ctx1. now apply cache_put_head. }
  assert (Hto : effective_timeout ctx1 = effective_timeout (g_context w)).
  { unfold ctx1, effective_timeout.
    rewrite cache_put_timeout. now rewrite cache_get_timeout. }
  assert (Hshape : exists reqs,
            cftpfs_truncate curl_easy_perform p temp_path fd
              (mk_world ctx1 (wire w ++ [LIST d]))
            = (0, mk_world ctx1 (wire w ++ reqs))
            /\ reqs = [LIST d; RETR p temp_path]
                      ++ (if (fst (curl_easy_perform (RETR p temp_path))
                              =? CURLE_OK) || (fd >=? 0)
                          then [STOR temp_path p] else [])).
  { unfold cftpfs_truncate, ftp_download, sent. cbn [g_context wire].
    destruct (fst (curl_easy_perform (RETR p temp_path)) =? CURLE_OK);
      cbn [negb orb].
    - eexists. split; [|reflexivity]. cbn [Z.eqb].
      now rewrite <- !app_assoc.
    - change (-1 =? 0) with false. cbv iota.
      destruct (fd >=? 0); eexists; (split; [|reflexivity]);
        now rewrite <- !app_assoc. }
  destruct Hshape as (reqs & -> & Hreqs). cbn [fst snd g_context wire].
  refine (conj eq_refl (conj eq_refl (conj _ _))).
  - now rewrite Hreqs.
  - unfold p.
    rewrite (getattr_hit mktime tm_now hour0 min0 curl_easy_perform
               d x _ _ _ now later (mk_world ctx1 (wire w ++ reqs))
               Hx Hslash Hc)
      by (cbn [g_context]; rewrite Hto; lia).
    cbv zeta. rewrite find_item_cached, Nat2Z.id.
    now destruct (find_item x (fst parsed) (snd parsed)).
Qed.

(** X23. A read-only open takes no slot and leaves [fi->fh] as it came in;
    [cftpfs_read] then goes by that number alone.  When it names no open
    handle, every read downloads the file again: one RETR per call, -EIO
    if it fails, the downloaded copy as the file read otherwise, and the
    context as before.  When it names a slot that is in use, for whatever
    path, the read is served from that handle's spill file without a
    request. *)
Theorem read_without_a_handle (path temp_path temp1 temp2 : string)
  (fi : fuse_file_info) (fd : Z) (io1 io2 : file_io) (w : world) :
  Z.land (fi_flags fi) O_ACCMODE = O_RDONLY ->
  let opened := cftpfs_open path fi temp_path fd w in
  let fi1 := snd (fst opened) in
  let read := cftpfs_read curl_easy_perform path fi1 in
  let ok := fst (curl_easy_perform (RETR path temp1)) =? CURLE_OK in
  opened = (0, fi, w)
  /\ (live_handle (g_context w) (fi_fh fi) = None ->
      read temp1 io1 (snd opened)
      = (if ok then io_result io1 else - EIO,
         if ok then Some temp1 else None,
         mk_world (g_context w) (wire w ++ [RETR path temp1]))
      /\ snd (read temp2 io2 (snd (read temp1 io1 (snd opened))))
         = mk_world (g_context w)
                    (wire w ++ [RETR path temp1; RETR path temp2]))
  /\ (forall h,
        live_handle (g_context w) (fi_fh fi) = Some h ->
        read temp1 io1 (snd opened)
        = (io_result io1,
           Some (strncpy (fh_temp_path h) (Z.to_nat (MAX_PATH_LEN - 1))),
           w)).
Proof.
  intros Hro opened fi1 read ok.
  assert (Hopen : opened = (0, fi, w)).
  { unfold opened, cftpfs_open. now rewrite Hro. }
  unfold read, fi1. rewrite Hopen. cbn [fst snd].
  split; [reflexivity|]. split.
  - intros Hdead.
    assert (Hread : forall t io w',
              g_context w' = g_context w ->
              cftpfs_read curl_easy_perform path fi t io w'
              = (if fst (curl_easy_perform (RETR path t)) =? CURLE_OK
                 then io_result io else - EIO,
                 if fst (curl_easy_perform (RETR path t)) =? CURLE_OK
                 then Some t else None,
                 mk_world (g_context w) (wire w' ++ [RETR path t]))).
    { intros t io w' Hctx. unfold cftpfs_read, ftp_download, sent.
      rewrite Hctx, Hdead.
      now destruct (fst (curl_easy_perform (RETR path t)) =? CURLE_OK). }
    rewrite (Hread temp1 io1 w eq_refl). split; [reflexivity|].
    cbn [snd]. rewrite Hread by reflexivity. cbn [snd wire].
    now rewrite <- app_assoc.
  - intros h Hlive. unfold cftpfs_read. now rewrite Hlive.
Qed.

End ReadTruncate.

Section BorrowedSlot.

Variable curl_easy_perform : ftp_request -> Z * string.

(** X24. [cftpfs_release] goes by the number in [fi->fh] and not by the
    path.  Let a file [b] be open for writing in slot [i] and written to,
    and let a read-only open of another file [a] arrive with [fi->fh = i]
    (it leaves the number as it came in).  Then reading [a] reads the
    spill file of [b]; releasing [a] uploads that spill file to the path
    of [a] and frees the slot, and a later write through the handle of
    [b] returns -EBADF. *)
Theorem read_only_release_takes_the_slot (a b temp_a temp_b temp_r : string)
  (fi_a fi_b : fuse_file_info) (fd_a fd_b n errno : Z) (io : file_io)
  (again : spill_io) (w : world) (i : nat) :
  Z.land (fi_flags fi_b) O_ACCMODE <> O_RDONLY ->
  0 <= fd_b ->
  free_slot (file_handles (g_context w)) = Some i ->
  0 < n ->
  Z.land (fi_flags fi_a) O_ACCMODE = O_RDONLY ->
  fi_fh fi_a = Z.of_nat i ->
  let opened_b := cftpfs_open b fi_b temp_b fd_b w in
  let fi_b1 := snd (fst opened_b) in
  let written_b :=
    cftpfs_write b fi_b1 (SpillWritten n errno) (snd opened_b) in
  let opened_a := cftpfs_open a fi_a temp_a fd_a (snd written_b) in
  let fi_a1 := snd (fst opened_a) in
  let read_a :=
    cftpfs_read curl_easy_perform a fi_a1 temp_r io (snd opened_a) in
  let released_a := cftpfs_release a fi_a1 (snd opened_a) in
  opened_a = (0, fi_a, snd written_b)
  /\ read_a
     = (io_result io, Some (strncpy temp_b (Z.to_nat (MAX_PATH_LEN - 1))),
        snd written_b)
  /\ fst released_a = 0
  /\ wire (snd released_a) = wire (snd written_b) ++ [STOR temp_b a]
  /\ file_handles (g_context (snd released_a))
     = file_handles (g_context w)
  /\ cftpfs_write b fi_b1 again (snd released_a)
     = (- EBADF, snd released_a).
Proof.
  intros Hacc Hfd Hfree Hn Hro Hfh
         opened_b fi_b1 written_b opened_a fi_a1 read_a released_a.
  pose proof Hfree as Hs. apply free_slot_some in Hs as [Hslot Hm].
  assert (Hi : (i < length (file_handles (g_context w)))%nat)
    by (eapply lookup_lt_Some; exact Hslot).
  assert (Hopen : exists h reqs,
             fh_temp_path h = temp_b
             /\ opened_b = (0, mk_fi (fi_flags fi_b) (Z.of_nat i),
                            open_world w i h reqs)).
  { unfold opened_b.
    rewrite (open_result b fi_b temp_b fd_b w i Hacc Hfd Hfree).
    destruct (creates_new (fi_flags fi_b)); eexists _, _;
      (split; [|reflexivity]); reflexivity. }
  destruct Hopen as (h & reqs & Htemp & Hopened).
  assert (Hfi : fi_b1 = mk_fi (fi_flags fi_b) (Z.of_nat i))
    by (unfold fi_b1; now rewrite Hopened).
  assert (Hw1 : snd opened_b = open_world w i h reqs) by now rewrite Hopened.
  assert (Hlive1 : live_handle (g_context (snd opened_b)) (fi_fh fi_b1)
                   = Some h).
  { rewrite Hw1, Hfi. now apply open_world_live. }
  assert (Hwritten : written_b
            = (n, set_context (snd opened_b)
                    (set_file_handles (g_context (snd opened_b))
                       (<[Z.to_nat (fi_fh fi_b1) := Some (set_dirty h true)]>
                          (file_handles (g_context (snd opened_b))))))).
  { unfold written_b. now apply write_result. }
  assert (Hslots2 : file_handles (g_context (snd written_b))
                    = <[i := Some (set_dirty h true)]>
                        (file_handles (g_context w))).
  { rewrite Hwritten. cbn [snd set_context g_context file_handles
                            set_file_handles].
    rewrite Hw1, Hfi. unfold open_world.
    cbn [g_context file_handles set_file_handles fi_fh].
    rewrite Nat2Z.id. apply list_insert_insert_eq. }
  assert (Hlive2 : live_handle (g_context (snd written_b)) (fi_fh fi_a)
                   = Some (set_dirty h true)).
  { rewrite Hfh. unfold live_handle. rewrite Hslots2, Nat2Z.id.
    destruct (Z.geb_spec (Z.of_nat i) MAX_HANDLES) as [Hge|_]; [lia|].
    now rewrite list_lookup_insert_eq. }
  assert (Hopen_a : opened_a = (0, fi_a, snd written_b)).
  { unfold opened_a, cftpfs_open. now rewrite Hro. }
  unfold read_a, released_a, fi_a1. rewrite Hopen_a. cbn [fst snd].
  split; [reflexivity|]. split.
  { unfold cftpfs_read. rewrite Hlive2. cbn [fh_temp_path set_dirty].
    now rewrite Htemp. }
  rewrite (release_uploads a fi_a (snd written_b) (set_dirty h true) Hlive2)
    by reflexivity.
  cbn [fst snd wire g_context fh_temp_path set_dirty]. rewrite Htemp.
  split; [reflexivity|]. split; [reflexivity|].
  assert (Hslots3 : file_handles
                      (handle_release
                         (invalidate_parent (g_context (snd written_b)) a)
                         (fi_fh fi_a))
                    = file_handles (g_context w)).
  { rewrite (handle_release_live _ _ (set_dirty h true)).
    - rewrite invalidate_parent_handles, Hslots2, Hfh, Nat2Z.id.
      rewrite list_insert_insert_eq. now apply list_insert_id.
    - rewrite Hfh. lia.
    - unfold live_handle in *. now rewrite invalidate_parent_handles. }
  split; [exact Hslots3|].
  unfold cftpfs_write. cbn [g_context].
  assert (Hdead : live_handle
                    (handle_release
                       (invalidate_parent (g_context (snd written_b)) a)
                       (fi_fh fi_a)) (fi_fh fi_b1) = None).
  { unfold live_handle. rewrite Hslots3, Hfi. cbn [fi_fh].
    rewrite Nat2Z.id, Hslot.
    now destruct (Z.of_nat i >=? MAX_HANDLES). }
  now rewrite Hdead.
Qed.

End BorrowedSlot.

Lemma truncate_keeps_cached_attributes_witness :
  let path := "/pub" +:+ String "/" "README" in
  let getattr := cftpfs_getattr mktime_utc tm_2026 0 0 S6_server in
  let first := getattr path 100 (fresh_world 30) in
  let truncated := cftpfs_truncate S6_server path "/tmp/t" 3 (snd first) in
  let uploads :=
    (fst (S6_server (RETR path "/tmp/t")) =? CURLE_OK) || (3 >=? 0) in
  fst truncated = 0
  /\ g_context (snd truncated) = g_context (snd first)
  /\ wire (snd truncated)
     = wire (fresh_world 30) ++ [LIST "/pub"; RETR path "/tmp/t"]
       ++ (if uploads then [STOR "/tmp/t" path] else [])
  /\ getattr path 120 (snd truncated) = (fst first, snd truncated).
Proof.
  apply (truncate_keeps_cached_attributes mktime_utc tm_2026 0 0 S6_server
           "/pub" "README" "/tmp/t" 3 100 120 (fresh_world 30)).
  - discriminate.
  - reflexivity.
  - reflexivity.
  - reflexivity.
  - reflexivity.
  - vm_compute. discriminate.
Defined.

Lemma read_without_a_handle_witness :
  let path := "/pub/README" in
  let fi := mk_fi O_RDONLY 0 in
  let w := fresh_world 30 in
  let opened := cftpfs_open path fi "/tmp/s" 3 w in
  let fi1 := snd (fst opened) in
  let read := cftpfs_read S6_server path fi1 in
  let ok := fst (S6_server (RETR path "/tmp/r1")) =? CURLE_OK in
  opened = (0, fi, w)
  /\ (live_handle (g_context w) (fi_fh fi) = None ->
      read "/tmp/r1" (FileRead 42 0) (snd opened)
      = (if ok then io_result (FileRead 42 0) else - EIO,
         if ok then Some "/tmp/r1" else None,
         mk_world (g_context w) (wire w ++ [RETR path "/tmp/r1"]))
      /\ snd (read "/tmp/r2" (FileRead 0 0)
                   (snd (read "/tmp/r1" (FileRead 42 0) (snd opened))))
         = mk_world (g_context w)
                    (wire w ++ [RETR path "/tmp/r1"; RETR path "/tmp/r2"]))
  /\ (forall h,
        live_handle (g_context w) (fi_fh fi) = Some h ->
        read "/tmp/r1" (FileRead 42 0) (snd opened)
        = (io_result (FileRead 42 0),
           Some (strncpy (fh_temp_path h) (Z.to_nat (MAX_PATH_LEN - 1))),
           w)).
Proof.
  apply (read_without_a_handle S6_server "/pub/README" "/tmp/s" "/tmp/r1"
           "/tmp/r2" (mk_fi O_RDONLY 0) 3 (FileRead 42 0) (FileRead 0 0)
           (fresh_world 30)).
  reflexivity.
Defined.

Lemma read_only_release_takes_the_slot_witness :
  let a := "/a" in
  let b := "/b" in
  let fi_a := mk_fi O_RDONLY 0 in
  let fi_b := mk_fi O_WRONLY 0 in
  let w := fresh_world 30 in
  let opened_b := cftpfs_open b fi_b "/tmp/sb" 3 w in
  let fi_b1 := snd (fst opened_b) in
  let written_b :=
    cftpfs_write b fi_b1 (SpillWritten 5 0) (snd opened_b) in
  let opened_a := cftpfs_open a fi_a "/tmp/sa" 4 (snd written_b) in
  let fi_a1 := snd (fst opened_a) in
  let read_a :=
    cftpfs_read S6_server a fi_a1 "/tmp/r" (FileRead 5 0) (snd opened_a) in
  let released_a := cftpfs_release a fi_a1 (snd opened_a) in
  opened_a = (0, fi_a, snd written_b)
  /\ read_a
     = (io_result (FileRead 5 0),
        Some (strncpy "/tmp/sb" (Z.to_nat (MAX_PATH_LEN - 1))),
        snd written_b)
  /\ fst released_a = 0
  /\ wire (snd released_a) = wire (snd written_b) ++ [STOR "/tmp/sb" a]
  /\ file_handles (g_context (snd released_a))
     = file_handles (g_context w)
  /\ cftpfs_write b fi_b1 (SpillWritten 1 0) (snd released_a)
     = (- EBADF, snd released_a).
Proof.
  apply (read_only_release_takes_the_slot S6_server "/a" "/b" "/tmp/sa"
           "/tmp/sb" "/tmp/r" (mk_fi O_RDONLY 0) (mk_fi O_WRONLY 0) 4 3 5 0
           (FileRead 5 0) (SpillWritten 1 0) (fresh_world 30) 0).
  - vm_compute. discriminate.
  - lia.
  - reflexivity.
  - lia.
  - reflexivity.
  - reflexivity.
Defined.

(** ** Paths without an entry, and the handle interface *)

Lemma strchr_slash_not_root (path : string) :
  strchr path "/" = false -> (strcmp path "/" =? 0) = false.
Proof.
  intros H. apply strcmp_neqb. intros ->. discriminate.
Qed.

Section NoEntry.

Variable mktime : tm -> Z.
Variable tm_now : tm.
Variables hour0 min0 : Z.
Variable curl_easy_perform : ftp_request -> Z * string.

(** X25. Where [cftpfs_getattr] finds no entry.  The root is a directory
    with mode 0755 and two links, answered without a request.  A path
    without a slash, and a path that ends with a slash, are answered
    -ENOENT without a request.  And when the listing of the parent is
    neither cached nor delivered by the server, the answer is -ENOENT as
    well, after one LIST, with nothing put in the cache. *)
Theorem getattr_without_an_entry (d x path : string) (now : Z) (w : world) :
  let getattr := cftpfs_getattr mktime tm_now hour0 min0 curl_easy_perform in
  getattr "/" now w = (0, mk_stat (Z.lor S_IFDIR perm_0755) 2 0 0, w)
  /\ (strchr path "/" = false -> getattr path now w = (- ENOENT, zero_stat, w))
  /\ (d <> "" ->
      getattr (d +:+ String "/" "") now w = (- ENOENT, zero_stat, w))
  /\ (x <> "" -> strchr x "/" = false ->
      fst (cache_get (g_context w) d now) = None ->
      fst (curl_easy_perform (LIST d)) <> CURLE_OK ->
      getattr (d +:+ String "/" x) now w
      = (- ENOENT, zero_stat,
         mk_world (snd (cache_get (g_context w) d now))
                  (wire w ++ [LIST d]))).
Proof.
  intros getattr. unfold getattr. split; [reflexivity|]. split; [|split].
  - intros Hp. unfold cftpfs_getattr.
    now rewrite (strchr_slash_not_root path Hp), (strrchr_none path "/" Hp).
  - intros Hd. unfold cftpfs_getattr.
    assert (Hroot : (strcmp (d +:+ String "/" "") "/" =? 0) = false).
    { apply strcmp_neqb. destruct d as [|a d]; [contradiction|].
      rewrite append_cons. destruct d; [|discriminate].
      rewrite append_nil. discriminate. }
    rewrite Hroot, (strrchr_last d "" "/" eq_refl), advance_app.
    reflexivity.
  - intros Hx Hslash Hmiss Hfail. unfold cftpfs_getattr.
    assert (Hroot : (strcmp (d +:+ String "/" x) "/" =? 0) = false).
    { apply strcmp_neqb. destruct d as [|a d].
      - rewrite append_nil. intros [= E]. contradiction.
      - rewrite append_cons. destruct d; [|discriminate].
        rewrite append_nil. discriminate. }
    rewrite Hroot, (strrchr_last d x "/" Hslash), strncpy_app, advance_app.
    destruct x as [|a x]; [contradiction|].
    rewrite (cached_listing_failed mktime tm_now hour0 min0 curl_easy_perform
               d now w Hmiss Hfail).
    reflexivity.
Qed.

End NoEntry.

(** X26. The handle interface of handles.c.  For a number that is not
    negative [handle_get] is the test the callbacks of main.c make on
    [fi->fh].  [handle_release] frees exactly the slot it is given: the
    number is dead afterwards, every other number names what it named
    before, the cache is untouched, and releasing a number that names no
    handle changes nothing. *)
Theorem handle_release_frees_one (ctx : cftpfs_context_t) (fh : Z) :
  (0 <= fh -> handle_get ctx fh = live_handle ctx fh)
  /\ handle_get (handle_release ctx fh) fh = None
  /\ (forall j, j <> fh ->
                handle_get (handle_release ctx fh) j = handle_get ctx j)
  /\ dir_cache (handle_release ctx fh) = dir_cache ctx
  /\ (handle_get ctx fh = None -> handle_release ctx fh = ctx).
Proof.
  split; [|split; [|split; [|split]]].
  - intros Hfh. unfold handle_get, live_handle.
    destruct (Z.ltb_spec fh 0); [lia|]. reflexivity.
  - unfold handle_get, handle_release.
    destruct ((fh <? 0) || (fh >=? MAX_HANDLES)) eqn:E; [reflexivity|].
    destruct (file_handles ctx !! Z.to_nat fh) as [[h|]|] eqn:El;
      cbn [default from_option]; unfold id; rewrite ?El; try reflexivity.
    unfold set_file_handles. cbn [file_handles].
    rewrite list_lookup_insert_eq; [reflexivity|].
    eapply lookup_lt_Some. exact El.
  - intros j Hj. unfold handle_get, handle_release.
    destruct ((j <? 0) || (j >=? MAX_HANDLES)) eqn:Ej; [reflexivity|].
    destruct ((fh <? 0) || (fh >=? MAX_HANDLES)) eqn:E; [reflexivity|].
    destruct (default None (file_handles ctx !! Z.to_nat fh));
      [|reflexivity].
    unfold set_file_handles. cbn [file_handles].
    apply orb_false_iff in Ej as [Ej _]. apply orb_false_iff in E as [E _].
    apply Z.ltb_ge in Ej, E.
    rewrite list_lookup_insert_ne by lia. reflexivity.
  - apply handle_release_cache.
  - unfold handle_get, handle_release.
    destruct ((fh <? 0) || (fh >=? MAX_HANDLES)); [reflexivity|].
    now intros ->.
Qed.
